(** * Weather-Data-Analysis-Dashboard: [app.py], class [WeatherDataAnalyzer]

    A shallow embedding of the synthetic weather generator and of the
    analyses that consume it.  Arrays are lists, Python [int]s are [Z],
    exceptions are an explicit [result], and NumPy's [float64] scalars are
    an interface ([Scalar]) with three interpretations:

    - [binary64]: IEEE 754 double precision (the kernel's primitive floats),
      the arithmetic NumPy really performs, used to run the code and to
      state what it does where rounding decides the outcome;
    - [R]: exact real arithmetic on finite values, used where no division by
      zero can occur;
    - [xreal]: exact real arithmetic completed with the IEEE special values
      ([+inf], [-inf], [nan]) and IEEE's rules for division by zero.

    Part I holds the definitions, Part II the properties. *)

From Stdlib Require Import Floats String.
From Stdlib Require Import ZArith List Bool Lia.
From Stdlib Require Import Reals Lra.
Import ListNotations.

Set Implicit Arguments.
Local Open Scope Z_scope.

(* ===================================================================== *)
(** * Part I.  Definitions *)
(* ===================================================================== *)

(** ** Exceptions *)

(** The exceptions that Python, [datetime] and NumPy raise on the paths
    modelled here. *)
Inductive exn : Type :=
| ValueError
| IndexError
| OverflowError.

Inductive result (A : Type) : Type :=
| Ok (a : A)
| Raise (e : exn).

Arguments Ok {A} a.
Arguments Raise {A} e.

Definition bind {A B : Type} (m : result A) (k : A -> result B) : result B :=
  match m with
  | Ok a => k a
  | Raise e => Raise e
  end.

Notation "x <- m ;; k" := (bind m (fun x => k))
  (at level 61, m at next level, right associativity).

(** A list comprehension whose element expression may raise: elements are
    evaluated left to right and the first exception aborts the whole list. *)
Fixpoint mapM {A B : Type} (f : A -> result B) (l : list A) : result (list B) :=
  match l with
  | [] => Ok []
  | a :: t => b <- f a ;; bs <- mapM f t ;; Ok (b :: bs)
  end.

(** ** Scalars *)

(** What the program asks of a [float64]: conversion from an integer, the
    four operations, square root, absolute value and the comparisons. *)
Class Scalar (F : Type) : Type := {
  of_int : Z -> F;
  fadd : F -> F -> F;
  fsub : F -> F -> F;
  fmul : F -> F -> F;
  fdiv : F -> F -> F;
  fsqrt : F -> F;
  fabs : F -> F;
  feqb : F -> F -> bool;
  fltb : F -> F -> bool;
  fleb : F -> F -> bool
}.

Declare Scope np_scope.
Delimit Scope np_scope with np.
Notation "x + y" := (fadd x y) : np_scope.
Notation "x - y" := (fsub x y) : np_scope.
Notation "x * y" := (fmul x y) : np_scope.
Notation "x / y" := (fdiv x y) : np_scope.
Notation "x ==? y" := (feqb x y) (at level 70) : np_scope.
Notation "x <? y" := (fltb x y) : np_scope.
Notation "x <=? y" := (fleb x y) : np_scope.
Notation "x >? y" := (fltb y x) : np_scope.
Notation "x >=? y" := (fleb y x) : np_scope.

(** A decimal literal [n/d] of the source, such as [0.3 = 3/10] or
    [365.25 = 36525/100].  In [binary64] the quotient of two exactly
    represented integers is correctly rounded, so this is the literal's
    value. *)
Definition lit {F : Type} `{Scalar F} (n : Z) (d : positive) : F :=
  (of_int n / of_int (Zpos d))%np.

(** [np.isnan]: a NaN is the one value that differs from itself. *)
Definition np_isnan {F : Type} `{Scalar F} (x : F) : bool := negb (x ==? x)%np.

(** *** IEEE 754 binary64 *)

(** The conversion of an integer, through the 63-bit integers: it is the
    conversion of Python for an integer below [2^63] in absolute value,
    which every integer that the program converts is (day counts, window
    lengths and the constants of the formulas). *)
Definition b64_of_Z (z : Z) : float :=
  match z with
  | Z0 => PrimFloat.of_uint63 (Uint63.of_Z 0)
  | Zpos _ => PrimFloat.of_uint63 (Uint63.of_Z z)
  | Zneg p => PrimFloat.opp (PrimFloat.of_uint63 (Uint63.of_Z (Zpos p)))
  end.

#[export] Instance binary64 : Scalar float := {
  of_int := b64_of_Z;
  fadd := PrimFloat.add;
  fsub := PrimFloat.sub;
  fmul := PrimFloat.mul;
  fdiv := PrimFloat.div;
  fsqrt := PrimFloat.sqrt;
  fabs := PrimFloat.abs;
  feqb := PrimFloat.eqb;
  fltb := PrimFloat.ltb;
  fleb := PrimFloat.leb
}.

(** *** Exact reals *)

Definition Reqb (a b : R) : bool := if Req_dec_T a b then true else false.
Definition Rltb (a b : R) : bool := if Rlt_dec a b then true else false.
Definition Rleb (a b : R) : bool := if Rle_dec a b then true else false.

#[export] Instance exactR : Scalar R := {
  of_int := IZR;
  fadd := Rplus;
  fsub := Rminus;
  fmul := Rmult;
  fdiv := Rdiv;
  fsqrt := sqrt;
  fabs := Rabs;
  feqb := Reqb;
  fltb := Rltb;
  fleb := Rleb
}.

(** *** Exact reals with the IEEE special values *)

Inductive xreal : Type :=
| Fin (r : R)
| PInf
| NInf
| NaN.

Definition xopp (a : xreal) : xreal :=
  match a with
  | Fin r => Fin (- r)
  | PInf => NInf
  | NInf => PInf
  | NaN => NaN
  end.

Definition xadd (a b : xreal) : xreal :=
  match a, b with
  | NaN, _ | _, NaN => NaN
  | Fin x, Fin y => Fin (x + y)
  | PInf, NInf | NInf, PInf => NaN
  | PInf, _ | _, PInf => PInf
  | NInf, _ | _, NInf => NInf
  end.

Definition xsub (a b : xreal) : xreal := xadd a (xopp b).

(** The sign of a special or finite value, as a real: [0] for NaN. *)
Definition xsign (a : xreal) : R :=
  match a with
  | Fin r => if Rlt_dec 0 r then 1 else if Rlt_dec r 0 then -1 else 0
  | PInf => 1
  | NInf => -1
  | NaN => 0
  end%R.

Definition xinf_of_sign (s : R) : xreal :=
  if Rlt_dec 0 s then PInf else if Rlt_dec s 0 then NInf else NaN.

Definition xmul (a b : xreal) : xreal :=
  match a, b with
  | NaN, _ | _, NaN => NaN
  | Fin x, Fin y => Fin (x * y)
  | _, _ => xinf_of_sign (xsign a * xsign b)
  end.

(** Division: [x/0] is an infinity of the sign of [x], [0/0] and
    [inf/inf] are NaN, a finite value over an infinity is [0]. *)
Definition xdiv (a b : xreal) : xreal :=
  match a, b with
  | NaN, _ | _, NaN => NaN
  | Fin x, Fin y =>
      if Req_dec_T y 0 then xinf_of_sign (xsign a) else Fin (x / y)
  | Fin _, _ => Fin 0
  | _, Fin _ =>
      if Req_dec_T (xsign b) 0 then a else xinf_of_sign (xsign a * xsign b)
  | _, _ => NaN
  end.

Definition xsqrt (a : xreal) : xreal :=
  match a with
  | Fin r => if Rlt_dec r 0 then NaN else Fin (sqrt r)
  | PInf => PInf
  | NInf | NaN => NaN
  end.

Definition xabs (a : xreal) : xreal :=
  match a with
  | Fin r => Fin (Rabs r)
  | PInf | NInf => PInf
  | NaN => NaN
  end.

Definition xeqb (a b : xreal) : bool :=
  match a, b with
  | Fin x, Fin y => Reqb x y
  | PInf, PInf | NInf, NInf => true
  | _, _ => false
  end.

Definition xltb (a b : xreal) : bool :=
  match a, b with
  | NaN, _ | _, NaN => false
  | Fin x, Fin y => Rltb x y
  | NInf, NInf | PInf, _ => false
  | NInf, _ | _, PInf => true
  | _, NInf => false
  end.

Definition xleb (a b : xreal) : bool :=
  match a, b with
  | NaN, _ | _, NaN => false
  | Fin x, Fin y => Rleb x y
  | NInf, _ | _, PInf => true
  | _, _ => false
  end.

#[export] Instance extendedR : Scalar xreal := {
  of_int := fun z => Fin (IZR z);
  fadd := xadd;
  fsub := xsub;
  fmul := xmul;
  fdiv := xdiv;
  fsqrt := xsqrt;
  fabs := xabs;
  feqb := xeqb;
  fltb := xltb;
  fleb := xleb
}.

(** ** Arrays *)

(** One-dimensional NumPy arrays are lists.  An elementwise binary
    operation follows NumPy's broadcasting rule for one-dimensional operands:
    equal shapes combine pointwise, a one-element operand is stretched, any
    other pair of shapes raises [ValueError]. *)
Fixpoint zip_with {A B C : Type} (op : A -> B -> C) (a : list A) (b : list B)
  : list C :=
  match a, b with
  | x :: a', y :: b' => op x y :: zip_with op a' b'
  | _, _ => []
  end.

Definition np_binop {A B C : Type} (op : A -> B -> C) (a : list A) (b : list B)
  : result (list C) :=
  if Nat.eqb (length a) (length b) then Ok (zip_with op a b)
  else match a, b with
       | [x], _ => Ok (map (op x) b)
       | _, [y] => Ok (map (fun x => op x y) a)
       | _, _ => Raise ValueError
       end.

(** [np.where(mask)[0]]: the indices at which [mask] is true, increasing. *)
Fixpoint where_from (i : Z) (mask : list bool) : list Z :=
  match mask with
  | [] => []
  | b :: t => if b then i :: where_from (i + 1) t else where_from (i + 1) t
  end.

Definition np_where (mask : list bool) : list Z := where_from 0 mask.

(** [np.diff]: the first difference [a[i+1] - a[i]]. *)
Fixpoint np_diff (a : list Z) : list Z :=
  match a with
  | x :: (y :: _) as t => (y - x) :: np_diff t
  | _ => []
  end.

(** [.astype(int)] on a boolean array. *)
Definition astype_int (b : bool) : Z := if b then 1 else 0.

(** [np.sum] of a boolean array: the number of true entries. *)
Definition count_true (mask : list bool) : Z :=
  fold_left (fun n b => n + astype_int b) mask 0.

(** [a[mask]]: the entries of [a] whose mask entry is true. *)
Fixpoint select {A : Type} (a : list A) (mask : list bool) : list A :=
  match a, mask with
  | x :: a', b :: m' => if b then x :: select a' m' else select a' m'
  | _, _ => []
  end.

(** ** [find_consecutive_events] (lines 186-193) *)

Definition changes (boolean_array : list bool) : list Z :=
  np_diff (map astype_int ([false] ++ boolean_array ++ [false])).

Definition starts (boolean_array : list bool) : list Z :=
  np_where (map (fun c => c =? 1) (changes boolean_array)).

Definition ends (boolean_array : list bool) : list Z :=
  np_where (map (fun c => c =? -1) (changes boolean_array)).

Definition lengths (boolean_array : list bool) : result (list Z) :=
  np_binop Z.sub (ends boolean_array) (starts boolean_array).

Definition find_consecutive_events (boolean_array : list bool) (min_length : Z)
  : result Z :=
  ls <- lengths boolean_array ;;
  Ok (count_true (map (fun l => l >=? min_length) ls)).

(** ** The dry-spell loop of [precipitation_patterns] (lines 238-250) *)

(** The loop state: [current_spell] and the list [dry_spell_lengths]. *)
Definition dry_spell_step (st : Z * list Z) (day : bool) : Z * list Z :=
  let (current_spell, dry_spell_lengths) := st in
  if day then (current_spell + 1, dry_spell_lengths)
  else (0, if current_spell >? 0 then dry_spell_lengths ++ [current_spell]
           else dry_spell_lengths).

Definition dry_spell_loop (no_rain : list bool) : list Z :=
  let (current_spell, dry_spell_lengths) :=
    fold_left dry_spell_step no_rain (0, []) in
  if current_spell >? 0 then dry_spell_lengths ++ [current_spell]
  else dry_spell_lengths.

(** ** Indexing and loops *)

(** [range(start, stop)]. *)
Fixpoint range_from (start : Z) (n : nat) : list Z :=
  match n with
  | O => []
  | S k => start :: range_from (start + 1) k
  end.

Definition range (start stop : Z) : list Z :=
  range_from start (Z.to_nat (stop - start)).

(** Python's index rule: a negative index counts from the end, an index
    outside the array raises [IndexError]. *)
Definition norm_index {A : Type} (a : list A) (i : Z) : result nat :=
  let n := Z.of_nat (length a) in
  let j := if i <? 0 then i + n else i in
  if (0 <=? j) && (j <? n) then Ok (Z.to_nat j) else Raise IndexError.

Definition getitem {A : Type} (a : list A) (i : Z) : result A :=
  j <- norm_index a i ;;
  match nth_error a j with
  | Some x => Ok x
  | None => Raise IndexError
  end.

(** In-place assignment [a[i] = x], as the array after it. *)
Definition setitem {A : Type} (a : list A) (i : Z) (x : A) : result (list A) :=
  j <- norm_index a i ;;
  Ok (firstn j a ++ x :: skipn (S j) a).

(** A [for] loop over [idx] whose body updates a state and may raise. *)
Fixpoint for_each {S I : Type} (body : S -> I -> result S) (idx : list I)
  (s : S) : result S :=
  match idx with
  | [] => Ok s
  | i :: t => s' <- body s i ;; for_each body t s'
  end.

(** ** [datetime] *)

(** A [datetime] at midnight is identified with its proleptic Gregorian
    ordinal ([datetime.toordinal]): day 1 is 0001-01-01 and the last
    representable day, 9999-12-31, is [MAXORDINAL]. *)
Definition datetime : Type := Z.

Definition days_before_year (year : Z) : Z :=
  let y := year - 1 in
  y * 365 + y / 4 - y / 100 + y / 400.

Definition is_leap (year : Z) : bool :=
  (year mod 4 =? 0) && (negb (year mod 100 =? 0) || (year mod 400 =? 0)).

Definition days_before_month (year month : Z) : Z :=
  nth (Z.to_nat month) [0; 0; 31; 59; 90; 120; 151; 181; 212; 243; 273; 304; 334] 0
  + (if (2 <? month) && is_leap year then 1 else 0).

Definition ymd2ord (year month day : Z) : datetime :=
  days_before_year year + days_before_month year month + day.

Definition MAXORDINAL : Z := Eval vm_compute in ymd2ord 9999 12 31.

(** [timedelta(days=i)]: at most 999999999 days in magnitude. *)
Definition timedelta (days : Z) : result Z :=
  if (-999999999 <=? days) && (days <=? 999999999) then Ok days
  else Raise OverflowError.

(** [datetime + timedelta]: the result must be a representable date. *)
Definition datetime_add (d : datetime) (delta : Z) : result datetime :=
  let o := d + delta in
  if (0 <? o) && (o <=? MAXORDINAL) then Ok o else Raise OverflowError.

(** [date.timetuple().tm_yday], by the 400/100/4/1-year cycles. *)
Definition tm_yday (d : datetime) : Z :=
  let n := d - 1 in
  let n := n mod 146097 in
  let n100 := n / 36524 in
  let n := n mod 36524 in
  let n := n mod 1461 in
  let n1 := n / 365 in
  let n := n mod 365 in
  if (n1 =? 4) || (n100 =? 4) then 366 else n + 1.

(** ** [generate_weather_data] (lines 18-53) *)

(** [np.sin] and [np.pi]. *)
Class Trig (F : Type) : Type := {
  np_sin : F -> F;
  np_pi : F
}.

#[export] Instance trigR : Trig R := {
  np_sin := sin;
  np_pi := PI
}.

(** The random source.  Each call site of [np.random] gets the stream of
    its successive draws: [draw k] is the [k]-th value that call returns. *)
Record Draws (F : Type) : Type := {
  normal_0_5 : nat -> F;      (* np.random.normal(0, 5, days)   line 27 *)
  normal_0_10 : nat -> F;     (* np.random.normal(0, 10, days)  line 34 *)
  random_01 : nat -> F;       (* np.random.random(days)         line 40 *)
  exponential_5 : nat -> F;   (* np.random.exponential(5, days) line 42 *)
  normal_0_3 : nat -> F;      (* np.random.normal(0, 3, days)   line 45 *)
  normal_0_8 : nat -> F       (* np.random.normal(0, 8, days)   line 49 *)
}.

(** A sampler called with [size = days] returns an array of that many
    draws; a negative size raises [ValueError]. *)
Definition np_random {F : Type} (draw : nat -> F) (size : Z) : result (list F) :=
  if size <? 0 then Raise ValueError
  else Ok (map draw (seq 0 (Z.to_nat size))).

Record WeatherSeries (F : Type) : Type := {
  dates : list datetime;
  temperature : list F;
  humidity : list F;
  precipitation : list F;
  wind_speed : list F;
  pressure : list F
}.

Section Generator.

Context {F : Type} `{Scalar F} `{Trig F}.
Local Open Scope np_scope.

(** [np.maximum], [np.minimum] and [np.clip] on scalars: a NaN in the
    first operand is kept. *)
Definition np_maximum (a b : F) : F := if (a >=? b) || np_isnan a then a else b.
Definition np_minimum (a b : F) : F := if (a <=? b) || np_isnan a then a else b.
Definition np_clip (x lo hi : F) : F := np_minimum (np_maximum x lo) hi.

Definition start_date : datetime := ymd2ord 2021 1 1.

(** Line 22: [[start_date + timedelta(days=i) for i in range(days)]]. *)
Definition make_dates (days : Z) : result (list datetime) :=
  mapM (fun i => delta <- timedelta i ;; datetime_add start_date delta)
       (range 0 days).

(** Line 29, one iteration:
    [daily_variation[i] += 0.3 * daily_variation[i-1]]. *)
Definition ar_step (daily_variation : list F) (i : Z) : result (list F) :=
  x <- getitem daily_variation i ;;
  p <- getitem daily_variation (i - 1)%Z ;;
  setitem daily_variation i (x + lit 3 10 * p).

(** Lines 28-29: the loop over [range(1, days)]. *)
Definition ar_loop (days : Z) (daily_variation : list F) : result (list F) :=
  for_each ar_step (range 1 days) daily_variation.

Definition generate_weather_data (days : Z) (rng : Draws F)
  : result (WeatherSeries F) :=
  dates <- make_dates days ;;
  let day_of_year := map tm_yday dates in
  let seasonal_temp :=
    map (fun d => of_int 20 + of_int 15 *
           np_sin (of_int 2 * np_pi * of_int d / lit 36525 100
                   - np_pi / of_int 2)) day_of_year in
  daily_variation <- np_random (normal_0_5 rng) days ;;
  daily_variation <- ar_loop days daily_variation ;;
  temperature <- np_binop fadd seasonal_temp daily_variation ;;
  let base_humidity :=
    map (fun t => of_int 70 - lit 5 10 * (t - of_int 20)) temperature in
  humidity_noise <- np_random (normal_0_10 rng) days ;;
  humidity <- np_binop fadd base_humidity humidity_noise ;;
  let humidity := map (fun h => np_clip h (of_int 10) (of_int 100)) humidity in
  let precip_probability := map (fun h => (h - of_int 30) / of_int 70) humidity in
  let precip_probability :=
    map (fun p => np_clip p (of_int 0) (of_int 1)) precip_probability in
  u <- np_random (random_01 rng) days ;;
  rain_events <- np_binop fltb u (map (fun p => p * lit 3 10) precip_probability) ;;
  amounts <- np_random (exponential_5 rng) days ;;
  precipitation <-
    np_binop (fun (e : bool) a => if e then a else of_int 0) rain_events amounts ;;
  wind_noise <- np_random (normal_0_3 rng) days ;;
  base_wind <-
    np_binop fadd (map (fun p => of_int 8 + lit 3 10 * p) precipitation) wind_noise ;;
  let wind_speed := map (fun w => np_clip w (of_int 0) (of_int 50)) base_wind in
  let seasonal_pressure :=
    map (fun d => of_int 1013 + of_int 10 *
           np_sin (of_int 2 * np_pi * of_int d / lit 36525 100)) day_of_year in
  pressure_variation <- np_random (normal_0_8 rng) days ;;
  let pressure_drop :=
    map (fun p => of_int (-5 * astype_int (p >? of_int 0))) precipitation in
  pressure <- np_binop fadd seasonal_pressure pressure_variation ;;
  pressure <- np_binop fadd pressure pressure_drop ;;
  Ok {| dates := dates; temperature := temperature; humidity := humidity;
        precipitation := precipitation; wind_speed := wind_speed;
        pressure := pressure |}.

End Generator.

(** ** Reductions *)

Section Analyses.

Context {F : Type} `{Scalar F}.
Local Open Scope np_scope.

(** [np.sum].  The entries are added one after the other, from [0.0],
    as NumPy adds an array of fewer than 8 entries.  NumPy adds longer
    arrays in blocks (and [np.dot] likewise), which can change the last
    bit of a binary64 sum; over the reals the order is immaterial, and
    the statements about binary64 below either run arrays of fewer than
    8 entries or do not depend on the order. *)
Definition np_sum (a : list F) : F := fold_left fadd a (of_int 0).

(** [np.mean]: the sum over the number of entries; [0.0/0] on an empty
    array. *)
Definition np_mean (a : list F) : F :=
  np_sum a / of_int (Z.of_nat (length a)).

(** [np.std]: the root of the mean squared deviation from the mean. *)
Definition np_std (a : list F) : F :=
  let arrmean := np_mean a in
  let x := map (fun v => v - arrmean) a in
  fsqrt (np_mean (map (fun v => v * v) x)).

(** [np.max], [np.min] and [np.ptp]; an empty array raises. *)
Definition np_max (a : list F) : result F :=
  match a with
  | [] => Raise ValueError
  | x :: t => Ok (fold_left np_maximum t x)
  end.

Definition np_min (a : list F) : result F :=
  match a with
  | [] => Raise ValueError
  | x :: t => Ok (fold_left np_minimum t x)
  end.

Definition np_ptp (a : list F) : result F :=
  hi <- np_max a ;; lo <- np_min a ;; Ok (hi - lo).

(** [np.argmax]: the running maximum [mp] is replaced by an entry [x]
    when [not (x <= mp)]; the scan stops at the first NaN. *)
Fixpoint argmax_from (mp : F) (max_ind i : Z) (a : list F) : Z :=
  match a with
  | [] => max_ind
  | x :: t =>
      if np_isnan mp then max_ind
      else if negb (x <=? mp) then argmax_from x i (i + 1)%Z t
      else argmax_from mp max_ind (i + 1)%Z t
  end.

Definition np_argmax (a : list F) : result Z :=
  match a with
  | [] => Raise ValueError
  | x :: t => Ok (argmax_from x 0 1 t)
  end.

(** ** [correlation_analysis] (lines 111-119) *)

(** [np.column_stack([...]).T]: the variables as rows; they must have one
    common length. *)
Definition column_stack_T (vars : list (list F)) : result (list (list F)) :=
  match vars with
  | [] => Raise ValueError
  | v :: t =>
      if forallb (fun w => Nat.eqb (length w) (length v)) t then Ok vars
      else Raise ValueError
  end.

Definition np_dot (a b : list F) : F := np_sum (zip_with fmul a b).

(** [np.cov] with its defaults (rows are variables, [ddof = 1]): the rows
    are centred, multiplied into one another and scaled by [1 / fact],
    where [fact = N - 1], replaced by [0.0] when it is not positive. *)
Definition np_cov (m : list (list F)) : list (list F) :=
  let n := Z.of_nat (length (hd [] m)) in
  let fact := if (n - 1 <=? 0)%Z then 0%Z else (n - 1)%Z in
  let X := map (fun row => let avg := np_mean row in
                           map (fun v => v - avg) row) m in
  map (fun xi => map (fun xj => np_dot xi xj * (of_int 1 / of_int fact)) X) X.

Definition diag (c : list (list F)) : list F :=
  map (fun i => nth i (nth i c []) (of_int 0)) (seq 0 (length c)).

(** [np.corrcoef]: the covariance matrix, its rows divided by the standard
    deviations, then its columns, then clipped to [[-1, 1]]. *)
Definition np_corrcoef (m : list (list F)) : list (list F) :=
  let c := np_cov m in
  let stddev := map fsqrt (diag c) in
  let c := zip_with (fun row s => map (fun v => v / s) row) c stddev in
  let c := map (fun row => zip_with fdiv row stddev) c in
  map (map (fun v => np_clip v (of_int (-1)) (of_int 1))) c.

(** The five variables in the fixed order of line 111. *)
Definition variables (s : WeatherSeries F) : list (list F) :=
  [temperature s; humidity s; precipitation s; wind_speed s; pressure s].

Definition correlation_analysis (s : WeatherSeries F)
  : result (list (list F)) :=
  weather_data_T <- column_stack_T (variables s) ;;
  Ok (np_corrcoef weather_data_T).

(** ** [extreme_weather_analysis] (lines 147-184) *)

(** [(a - np.mean(a)) / np.std(a)]. *)
Definition zscores (a : list F) : list F :=
  let m := np_mean a in
  let sd := np_std a in
  map (fun v => (v - m) / sd) a.

Definition temp_normalized (s : WeatherSeries F) : list F :=
  map fabs (zscores (temperature s)).

Definition wind_normalized (s : WeatherSeries F) : list F :=
  zscores (wind_speed s).

Definition precip_normalized (s : WeatherSeries F) : list F :=
  zscores (precipitation s).

Definition extreme_score (s : WeatherSeries F) : result (list F) :=
  tw <- np_binop fadd (temp_normalized s) (wind_normalized s) ;;
  np_binop fadd tw (precip_normalized s).

Definition most_extreme_day (s : WeatherSeries F) : result Z :=
  sc <- extreme_score s ;; np_argmax sc.

(** [self.precipitation[self.precipitation > 0]]. *)
Definition rainy (s : WeatherSeries F) : list F :=
  select (precipitation s) (map (fun p => p >? of_int 0) (precipitation s)).

Record ExtremeReport : Type := {
  temp_hot : F;
  temp_cold : F;
  heavy_rain : F;
  high_wind : F;
  hot_days : Z;
  cold_days : Z;
  heavy_rain_days : Z;
  high_wind_days : Z;
  heat_waves : Z;
  extreme_date : datetime;
  extreme_temperature : F;
  extreme_precipitation : F;
  extreme_wind_speed : F
}.

Section WithPercentile.

(** [np.percentile(a, q)], a function of NumPy that is taken as given. *)
Variable np_percentile : list F -> Z -> result F.

Definition heavy_rain_threshold (s : WeatherSeries F) : result F :=
  np_percentile (rainy s) 90.

Definition extreme_weather_analysis (s : WeatherSeries F)
  : result ExtremeReport :=
  temp_hot <- np_percentile (temperature s) 95 ;;
  temp_cold <- np_percentile (temperature s) 5 ;;
  heavy_rain <- heavy_rain_threshold s ;;
  high_wind <- np_percentile (wind_speed s) 95 ;;
  let hot_days := count_true (map (fun t => t >? temp_hot) (temperature s)) in
  let cold_days := count_true (map (fun t => t <? temp_cold) (temperature s)) in
  let heavy_rain_days :=
    count_true (map (fun p => p >? heavy_rain) (precipitation s)) in
  let high_wind_days :=
    count_true (map (fun w => w >? high_wind) (wind_speed s)) in
  let hot_day_mask := map (fun t => t >? temp_hot) (temperature s) in
  heat_waves <- find_consecutive_events hot_day_mask 3 ;;
  day <- most_extreme_day s ;;
  d <- getitem (dates s) day ;;
  t <- getitem (temperature s) day ;;
  p <- getitem (precipitation s) day ;;
  w <- getitem (wind_speed s) day ;;
  Ok {| temp_hot := temp_hot; temp_cold := temp_cold;
        heavy_rain := heavy_rain; high_wind := high_wind;
        hot_days := hot_days; cold_days := cold_days;
        heavy_rain_days := heavy_rain_days;
        high_wind_days := high_wind_days; heat_waves := heat_waves;
        extreme_date := d; extreme_temperature := t;
        extreme_precipitation := p; extreme_wind_speed := w |}.

End WithPercentile.

(** ** [moving_averages] (lines 200-220) *)

Definition np_ones (n : Z) : list F := repeat (of_int 1) (Z.to_nat n).

(** The windows of [n] consecutive entries of [a], left to right. *)
Fixpoint windows (n : nat) (a : list F) : list (list F) :=
  match a with
  | [] => []
  | _ :: t => if Nat.leb n (length a) then firstn n a :: windows n t else []
  end.

(** [np.convolve(a, v, mode='valid')]: the longer operand takes the place
    of [a], an empty operand raises, and the shorter operand, reversed, is
    slid over the longer one where it fits entirely. *)
Definition np_convolve_valid (a v : list F) : result (list F) :=
  let (a, v) := if Nat.ltb (length a) (length v) then (v, a) else (a, v) in
  if Nat.eqb (length a) 0 then Raise ValueError
  else if Nat.eqb (length v) 0 then Raise ValueError
  else Ok (map (fun w => np_dot w (rev v)) (windows (length v) a)).

Definition moving_average (window : Z) (a : list F) : result (list F) :=
  np_convolve_valid a (map (fun o => o / of_int window) (np_ones window)).

Definition trend_direction (slope : F) : string :=
  if slope >? of_int 0 then "warming"%string else "cooling"%string.

Record TrendReport : Type := {
  temp_7day : list F;
  temp_30day : list F;
  range_original : F;
  range_7day : F;
  range_30day : F;
  slope : F;
  intercept : F;
  direction : string
}.

Section WithPolyfit.

(** [np.polyfit(x, y, 1)], the least-squares line of NumPy, taken as
    given: it returns the slope and the intercept. *)
Variable np_polyfit : list F -> list F -> result (F * F).

Definition moving_averages (s : WeatherSeries F) : result TrendReport :=
  let window_7 := 7%Z in
  let window_30 := 30%Z in
  temp_7day <- moving_average window_7 (temperature s) ;;
  temp_30day <- moving_average window_30 (temperature s) ;;
  r0 <- np_ptp (temperature s) ;;
  r7 <- np_ptp temp_7day ;;
  r30 <- np_ptp temp_30day ;;
  let days_array :=
    map of_int (range 0 (Z.of_nat (length (temperature s)))) in
  fit <- np_polyfit days_array (temperature s) ;;
  let (slope, intercept) := fit in
  Ok {| temp_7day := temp_7day; temp_30day := temp_30day;
        range_original := r0; range_7day := r7; range_30day := r30;
        slope := slope; intercept := intercept;
        direction := trend_direction slope |}.

End WithPolyfit.

(** ** [precipitation_patterns] (lines 227-259) *)

(** A printed line: a label and the number formatted after it. *)
Inductive line : Type :=
| Text (s : string)
| IntField (label : string) (n : Z)
| FloatField (label : string) (x : F).

Definition avg_rainy_day (s : WeatherSeries F) : F := np_mean (rainy s).

Definition no_rain (s : WeatherSeries F) : list bool :=
  map (fun p => p ==? of_int 0) (precipitation s).

Definition precipitation_patterns (days : Z) (s : WeatherSeries F)
  : list line :=
  let rainy_days := count_true (map (fun p => p >? of_int 0) (precipitation s)) in
  let total_precipitation := np_sum (precipitation s) in
  let dry_spell_lengths := dry_spell_loop (no_rain s) in
  [ Text "Precipitation Summary:";
    IntField "Total rainy days" rainy_days;
    FloatField "Rainy day percentage"
      (of_int rainy_days / of_int days * of_int 100);
    FloatField "Total precipitation" total_precipitation;
    FloatField "Average per rainy day" (avg_rainy_day s) ]
  ++ (if Nat.ltb 0 (length dry_spell_lengths)
      then [ Text "Dry Spell Analysis:";
             IntField "Number of dry spells"
               (Z.of_nat (length dry_spell_lengths));
             FloatField "Average dry spell"
               (np_mean (map of_int dry_spell_lengths));
             IntField "Longest dry spell"
               (fold_left Z.max dry_spell_lengths 0%Z);
             IntField "Shortest dry spell"
               (fold_left Z.min (tl dry_spell_lengths)
                  (hd 0%Z dry_spell_lengths)) ]
      else []).

End Analyses.

(** ** [seasonal_analysis] (lines 82-104) *)

Definition days_in_month (year month : Z) : Z :=
  if (month =? 2) && is_leap year then 29
  else nth (Z.to_nat month) [0; 31; 28; 31; 30; 31; 30; 31; 31; 30; 31; 30; 31] 0.

(** [date.month], by the same cycles as [tm_yday]: the month is estimated
    from the day [n] of the year (counted from 0) as [(n + 50) >> 5] and
    lowered by one when that month starts after day [n]. *)
Definition month_from_yday (leapyear : bool) (n : Z) : Z :=
  let month := Z.shiftr (n + 50) 5 in
  let preceding :=
    nth (Z.to_nat month)
        [0; 0; 31; 59; 90; 120; 151; 181; 212; 243; 273; 304; 334] 0
    + (if (2 <? month) && leapyear then 1 else 0) in
  if preceding >? n then month - 1 else month.

Definition date_month (d : datetime) : Z :=
  let n := d - 1 in
  let n := n mod 146097 in
  let n100 := n / 36524 in
  let n := n mod 36524 in
  let n4 := n / 1461 in
  let n := n mod 1461 in
  let n1 := n / 365 in
  let n := n mod 365 in
  if (n1 =? 4) || (n100 =? 4) then 12
  else month_from_yday ((n1 =? 3) && (negb (n4 =? 24) || (n100 =? 3))) n.

(** The check of one date: its month and its day of the year are read
    back from its ordinal. *)
Definition check_date (year month day : Z) : bool :=
  let o := ymd2ord year month day in
  (date_month o =? month)
  && (tm_yday o =? days_before_month year month + day).

(** The check of every date of the years 1 to 400, one full cycle of the
    calendar. *)
Definition check_cycle : bool :=
  forallb (fun y =>
    forallb (fun m =>
      forallb (fun d => check_date y m d)
              (range 1 (days_in_month y m + 1)))
      (range 1 13))
    (range 1 401).

(** [np.isin(x, values)] on one entry. *)
Definition np_isin (x : Z) (values : list Z) : bool := existsb (Z.eqb x) values.

(** [a[mask]] with NumPy's check: a mask that is not empty must have the
    length of the array, or [IndexError] is raised; the length of an
    empty mask is not checked, and it selects nothing. *)
Definition getmask {A : Type} (a : list A) (mask : list bool)
  : result (list A) :=
  if Nat.eqb (length mask) 0 then Ok []
  else if Nat.eqb (length a) (length mask) then Ok (select a mask)
  else Raise IndexError.

Definition seasons : list (string * list Z) :=
  [ ("Winter", [12; 1; 2]); ("Spring", [3; 4; 5]);
    ("Summer", [6; 7; 8]); ("Fall", [9; 10; 11]) ]%string.

(** The months of the dates (line 82) and the mask of one season. *)
Definition months_of {F : Type} (s : WeatherSeries F) : list Z :=
  map date_month (dates s).

Definition season_mask {F : Type} (s : WeatherSeries F)
  (season_months : list Z) : list bool :=
  map (fun m => np_isin m season_months) (months_of s).

(** What [seasonal_analysis] prints: the mean temperature of each season
    and the total precipitation of each month, 1 to 12. *)
Definition seasonal_analysis {F : Type} `{Scalar F} (s : WeatherSeries F)
  : result (list (string * F) * list (Z * F)) :=
  averages <-
    mapM (fun season : string * list Z =>
            season_temps <- getmask (temperature s) (season_mask s (snd season)) ;;
            Ok (fst season, np_mean season_temps))
         seasons ;;
  totals <-
    mapM (fun month =>
            month_precip <-
              getmask (precipitation s)
                      (map (fun m => m =? month) (months_of s)) ;;
            Ok (month, np_sum month_precip))
         (range 1 13) ;;
  Ok (averages, totals).

(** ** [correlation_analysis]: the strong correlations (lines 121, 135-140) *)

Definition variable_names : list string :=
  ["Temperature"; "Humidity"; "Precipitation"; "Wind Speed"; "Pressure"]%string.

(** The lines printed under "Strong Correlations": for [i] from 0 and [j]
    from [i + 1], the names of the two variables and the entry [[i, j]] of
    the matrix when its absolute value is above [0.3]. *)
Definition strong_correlations {F : Type} `{Scalar F} (c : list (list F))
  : result (list (string * string * F)) :=
  let n := Z.of_nat (length variable_names) in
  rows <-
    mapM (fun i =>
            found <-
              mapM (fun j =>
                      row <- getitem c i ;;
                      corr <- getitem row j ;;
                      if (fabs corr >? lit 3 10)%np
                      then vi <- getitem variable_names i ;;
                           vj <- getitem variable_names j ;;
                           Ok [(vi, vj, corr)]
                      else Ok [])
                   (range (i + 1) n) ;;
            Ok (concat found))
         (range 0 n) ;;
  Ok (concat rows).

(** ** [basic_statistics] (lines 60-75) *)

(** The six numbers printed for one variable. *)
Record Summary (F : Type) : Type := {
  stat_mean : F;
  stat_median : F;
  stat_std : F;
  stat_min : F;
  stat_max : F;
  stat_range : F
}.

(** ** [generate_report] (lines 266-289) and [main] (lines 297-301) *)

(** The numbers of the "key insights". *)
Record Insights (F : Type) : Type := {
  temp_range : F;
  temp_mean : F;
  wet_days : Z;
  wet_percentage : F;
  temp_humid_corr : F;
  hot_threshold : F;
  insight_hot_days : Z
}.

Section Report.

Context {F : Type} `{Scalar F}.
Local Open Scope np_scope.

(** [np.median], [np.percentile] and [np.polyfit], functions of NumPy
    that are taken as given.  [np.median] returns a number on every array
    (a NaN on an empty one). *)
Variable np_median : list F -> F.
Variable np_percentile : list F -> Z -> result F.
Variable np_polyfit : list F -> list F -> result (F * F).

(** The dictionary of line 60, in its order. *)
Definition labelled_variables (s : WeatherSeries F)
  : list (string * list F) :=
  [ ("Temperature (°C)", temperature s); ("Humidity (%)", humidity s);
    ("Precipitation (mm)", precipitation s);
    ("Wind Speed (km/h)", wind_speed s);
    ("Pressure (hPa)", pressure s) ]%string.

(** Lines 70-75 for one variable. *)
Definition summarize (data : list F) : result (Summary F) :=
  let mean := np_mean data in
  let median := np_median data in
  let std := np_std data in
  lo <- np_min data ;;
  hi <- np_max data ;;
  r <- np_ptp data ;;
  Ok {| stat_mean := mean; stat_median := median; stat_std := std;
        stat_min := lo; stat_max := hi; stat_range := r |}.

Definition basic_statistics (s : WeatherSeries F)
  : result (list (string * Summary F)) :=
  mapM (fun nd : string * list F =>
          st <- summarize (snd nd) ;; Ok (fst nd, st))
       (labelled_variables s).

(** [np.corrcoef(x, y)] on two one-dimensional arrays: they are stacked
    as the two rows of one matrix, which needs them to have one length. *)
Definition np_corrcoef_xy (x y : list F) : result (list (list F)) :=
  if Nat.eqb (length x) (length y) then Ok (np_corrcoef [x; y])
  else Raise ValueError.

(** Lines 277-289. *)
Definition key_insights (days : Z) (s : WeatherSeries F)
  : result (Insights F) :=
  temp_range <- np_ptp (temperature s) ;;
  let temp_mean := np_mean (temperature s) in
  let wet_days :=
    count_true (map (fun p => p >? of_int 0) (precipitation s)) in
  c <- np_corrcoef_xy (temperature s) (humidity s) ;;
  row <- getitem c 0 ;;
  temp_humid_corr <- getitem row 1 ;;
  hot_threshold <- np_percentile (temperature s) 95 ;;
  let hot_days :=
    count_true (map (fun t => t >? hot_threshold) (temperature s)) in
  Ok {| temp_range := temp_range; temp_mean := temp_mean;
        wet_days := wet_days;
        wet_percentage := of_int wet_days / of_int days * of_int 100;
        temp_humid_corr := temp_humid_corr;
        hot_threshold := hot_threshold; insight_hot_days := hot_days |}.

(** What [generate_report] computes: the results of the six analyses, in
    the order of their calls, and the key insights. *)
Record Report : Type := {
  statistics : list (string * Summary F);
  seasonal : list (string * F) * list (Z * F);
  correlations : list (list F);
  extremes : @ExtremeReport F;
  trends : @TrendReport F;
  precipitation_lines : list (@line F);
  insights : Insights F
}.

Definition generate_report (days : Z) (s : WeatherSeries F)
  : result Report :=
  st <- basic_statistics s ;;
  se <- seasonal_analysis s ;;
  co <- correlation_analysis s ;;
  ex <- extreme_weather_analysis np_percentile s ;;
  tr <- moving_averages np_polyfit s ;;
  let pr := precipitation_patterns days s in
  ins <- key_insights days s ;;
  Ok {| statistics := st; seasonal := se; correlations := co;
        extremes := ex; trends := tr; precipitation_lines := pr;
        insights := ins |}.

(** The analyzer of [main]: it is built for [days] days, its data are
    generated and its report is made. *)
Definition run_analyzer `{Trig F} (days : Z) (rng : Draws F)
  : result Report :=
  s <- generate_weather_data days rng ;;
  generate_report days s.

Definition main `{Trig F} (rng : Draws F) : result Report :=
  run_analyzer 1095 rng.

End Report.

(** ** Auxiliary definitions of the proofs *)

(** Following the spec's words for a run, "a maximal contiguous block of
    days satisfying a boolean predicate": a mask written out as its runs.
    Each pair [(len, gap)] stands for [len] true entries followed by [gap]
    false ones; the runs are maximal when every [len] is positive and every
    [gap] but the last is. *)
Fixpoint runs_mask (runs : list (nat * nat)) : list bool :=
  match runs with
  | [] => []
  | (len, gap) :: rest => repeat true len ++ repeat false gap ++ runs_mask rest
  end.

Fixpoint maximal_runs (runs : list (nat * nat)) : Prop :=
  match runs with
  | [] => True
  | (len, gap) :: rest =>
      (1 <= len)%nat /\ (rest = [] \/ (1 <= gap)%nat) /\ maximal_runs rest
  end.

(** The edge detector seen from inside the array: [prev] is the entry to the
    left of [l], [i] the index of the difference between [prev] and the head
    of [l]; the closing [false] of the padding follows [l]. *)
Definition edges (v : Z) (prev : bool) (i : Z) (l : list bool) : list Z :=
  where_from i (map (fun c => c =? v)
                  (np_diff (map astype_int (prev :: l ++ [false])))).

(** What the sequential loop still emits from a state [cur], on [l]. *)
Fixpoint spells (cur : Z) (l : list bool) : list Z :=
  match l with
  | [] => if cur >? 0 then [cur] else []
  | true :: t => spells (cur + 1) t
  | false :: t => (if cur >? 0 then [cur] else []) ++ spells 0 t
  end.

(** Following the spec's words for the temperature variation: a prefix
    scan, that is a fold that carries the previous output, with multiplier
    0.3: [variation[0] = noise[0]] and
    [variation[i] = noise[i] + 0.3 * variation[i-1]]. *)
Fixpoint scan_from {F : Type} `{Scalar F} (carry : F) (noise : list F)
  : list F :=
  match noise with
  | [] => []
  | n :: t => let v := (n + lit 3 10 * carry)%np in v :: scan_from v t
  end.

Definition ar1_scan {F : Type} `{Scalar F} (noise : list F) : list F :=
  match noise with
  | [] => []
  | n0 :: t => n0 :: scan_from n0 t
  end.

(** The invariants of a generated series of [days] days (spec, section 3):
    the date array and the five variables have length [days]; the dates
    start on 2021-01-01 and each is the day after the one before it;
    humidity lies in [[10, 100]], precipitation is not negative, wind speed
    lies in [[0, 50]]. *)
Definition series_invariants (days : Z) (s : WeatherSeries R) : Prop :=
  Z.of_nat (length (dates s)) = days
  /\ Z.of_nat (length (temperature s)) = days
  /\ Z.of_nat (length (humidity s)) = days
  /\ Z.of_nat (length (precipitation s)) = days
  /\ Z.of_nat (length (wind_speed s)) = days
  /\ Z.of_nat (length (pressure s)) = days
  /\ nth_error (dates s) 0 = Some (ymd2ord 2021 1 1)
  /\ (forall i d d',
        nth_error (dates s) i = Some d ->
        nth_error (dates s) (S i) = Some d' -> d' = d + 1)
  /\ Forall (fun h => 10 <= h <= 100)%R (humidity s)
  /\ Forall (fun p => 0 <= p)%R (precipitation s)
  /\ Forall (fun w => 0 <= w <= 50)%R (wind_speed s).

(** A random source whose every draw is [0]. *)
Definition calm : Draws R :=
  {| normal_0_5 := fun _ => 0%R; normal_0_10 := fun _ => 0%R;
     random_01 := fun _ => 0%R; exponential_5 := fun _ => 0%R;
     normal_0_3 := fun _ => 0%R; normal_0_8 := fun _ => 0%R |}.

(** The six arrays of a series have one length. *)
Definition same_lengths {F : Type} (s : WeatherSeries F) : Prop :=
  length (dates s) = length (temperature s)
  /\ Forall (fun v => length v = length (temperature s)) (variables s).

(** Series used to run the analyses in binary64: two days. *)
Definition two_days (temp humid precip wind press : float * float)
  : WeatherSeries float :=
  {| dates := [ymd2ord 2021 1 1; ymd2ord 2021 1 2];
     temperature := [fst temp; snd temp];
     humidity := [fst humid; snd humid];
     precipitation := [fst precip; snd precip];
     wind_speed := [fst wind; snd wind];
     pressure := [fst press; snd press] |}.

(** Two days with one and the same temperature. *)
Definition flat_temperature : WeatherSeries float :=
  two_days (20, 20)%float (52, 50)%float (0, 2)%float (8, 10)%float
           (1015, 1013)%float.

(** Two days without rain. *)
Definition dry_days : WeatherSeries float :=
  two_days (20, 22)%float (52, 50)%float (0, 0)%float (8, 10)%float
           (1015, 1013)%float.

(** Two days on which every variable changes. *)
Definition changing_days : WeatherSeries float :=
  two_days (20, 22)%float (52, 50)%float (0, 2)%float (8, 10)%float
           (1015, 1013)%float.

(** The same two days over the extended reals. *)
Definition two_days_exact (temp humid precip wind press : R * R)
  : WeatherSeries xreal :=
  {| dates := [ymd2ord 2021 1 1; ymd2ord 2021 1 2];
     temperature := [Fin (fst temp); Fin (snd temp)];
     humidity := [Fin (fst humid); Fin (snd humid)];
     precipitation := [Fin (fst precip); Fin (snd precip)];
     wind_speed := [Fin (fst wind); Fin (snd wind)];
     pressure := [Fin (fst press); Fin (snd press)] |}.

Definition dry_days_exact : WeatherSeries xreal :=
  two_days_exact (20, 22)%R (52, 50)%R (0, 0)%R (8, 10)%R (1015, 1013)%R.

(** NumPy's order on scores, in which a NaN counts as the greatest value:
    [np_le x m] says that [m] is at least [x], [np_lt x m] that [m] is
    strictly above [x]. *)
Definition np_le (x m : xreal) : Prop := m = NaN \/ xleb x m = true.

Definition np_lt (x m : xreal) : Prop :=
  x <> NaN /\ (m = NaN \/ xltb x m = true).

(** [day] is the first index at which the scores [sc] are maximal: no
    score is above the score [m] of [day], and every earlier score is
    strictly below it. *)
Definition first_maximum (sc : list xreal) (day : Z) : Prop :=
  exists m,
    0 <= day
    /\ nth_error sc (Z.to_nat day) = Some m
    /\ (forall j x, nth_error sc j = Some x -> np_le x m)
    /\ (forall j x, nth_error sc j = Some x -> Z.of_nat j < day -> np_lt x m).

(** Two days that tie: both have the composite score [1]. *)
Definition tied_days : WeatherSeries float :=
  two_days (20, 22)%float (52, 50)%float (2, 0)%float (8, 10)%float
           (1015, 1013)%float.

(** Entry [(i, j)] of a matrix. *)
Definition entry {F : Type} `{Scalar F} (m : list (list F)) (i j : nat) : F :=
  nth j (nth i m []) (of_int 0).

(** A variable varies when two of its entries differ: it is not constant. *)
Definition varies (a : list R) : Prop :=
  exists x y, In x a /\ In y a /\ x <> y.

(** The two changing days over the reals. *)
Definition changing_days_exact : WeatherSeries R :=
  {| dates := [ymd2ord 2021 1 1; ymd2ord 2021 1 2];
     temperature := [20; 22]%R;
     humidity := [52; 50]%R;
     precipitation := [0; 2]%R;
     wind_speed := [8; 10]%R;
     pressure := [1015; 1013]%R |}.

(** Three days on which every variable changes; all means are integers. *)
Definition three_days : WeatherSeries float :=
  {| dates := [ymd2ord 2021 1 1; ymd2ord 2021 1 2; ymd2ord 2021 1 3];
     temperature := [20; 20; 23]%float;
     humidity := [50; 53; 59]%float;
     precipitation := [0; 0; 3]%float;
     wind_speed := [8; 11; 17]%float;
     pressure := [1013; 1013; 1016]%float |}.

(** The matrix of [correlation_analysis], empty if it raised. *)
Definition corr_matrix {F : Type} `{Scalar F} (s : WeatherSeries F)
  : list (list F) :=
  match correlation_analysis s with
  | Ok m => m
  | Raise _ => []
  end.

(** The series that [generate_weather_data] builds when nothing raises,
    as one expression: every array operation is the pointwise one. *)
Definition generated {F : Type} `{Scalar F} `{Trig F} (days : Z)
  (rng : Draws F) : WeatherSeries F :=
  let n := Z.to_nat days in
  let sample := fun draw : nat -> F => map draw (seq 0 n) in
  let dates := map (fun i => start_date + i) (range_from 0 n) in
  let day_of_year := map tm_yday dates in
  let seasonal_temp :=
    map (fun d => of_int 20 + of_int 15 *
           np_sin (of_int 2 * np_pi * of_int d / lit 36525 100
                   - np_pi / of_int 2))%np day_of_year in
  let temperature :=
    zip_with fadd seasonal_temp (ar1_scan (sample (normal_0_5 rng))) in
  let base_humidity :=
    map (fun t => of_int 70 - lit 5 10 * (t - of_int 20))%np temperature in
  let humidity :=
    map (fun h => np_clip h (of_int 10) (of_int 100))
        (zip_with fadd base_humidity (sample (normal_0_10 rng))) in
  let precip_probability :=
    map (fun p => np_clip p (of_int 0) (of_int 1))
        (map (fun h => (h - of_int 30) / of_int 70)%np humidity) in
  let rain_events :=
    zip_with fltb (sample (random_01 rng))
             (map (fun p => p * lit 3 10)%np precip_probability) in
  let precipitation :=
    zip_with (fun (e : bool) a => if e then a else of_int 0) rain_events
             (sample (exponential_5 rng)) in
  let wind_speed :=
    map (fun w => np_clip w (of_int 0) (of_int 50))
        (zip_with fadd
           (map (fun p => of_int 8 + lit 3 10 * p)%np precipitation)
           (sample (normal_0_3 rng))) in
  let seasonal_pressure :=
    map (fun d => of_int 1013 + of_int 10 *
           np_sin (of_int 2 * np_pi * of_int d / lit 36525 100))%np
        day_of_year in
  let pressure_drop :=
    map (fun p => of_int (-5 * astype_int (p >? of_int 0)%np)) precipitation in
  let pressure :=
    zip_with fadd
      (zip_with fadd seasonal_pressure (sample (normal_0_8 rng)))
      pressure_drop in
  {| dates := dates; temperature := temperature; humidity := humidity;
     precipitation := precipitation; wind_speed := wind_speed;
     pressure := pressure |}.

(** A random source under which it cannot rain: every uniform draw is 1. *)
Definition rainless : Draws R :=
  {| normal_0_5 := fun _ => 0%R; normal_0_10 := fun _ => 0%R;
     random_01 := fun _ => 1%R; exponential_5 := fun _ => 7%R;
     normal_0_3 := fun _ => 0%R; normal_0_8 := fun _ => 0%R |}.

(** The test of line 139. *)
Definition strong {F : Type} `{Scalar F} (r : F) : bool :=
  (fabs r >? lit 3 10)%np.

(** The pairs above the diagonal, row by row, and the line of one pair. *)
Definition upper_pairs : list (nat * nat) :=
  [(0, 1); (0, 2); (0, 3); (0, 4); (1, 2); (1, 3); (1, 4); (2, 3); (2, 4);
   (3, 4)]%nat.

Definition listed {F : Type} `{Scalar F} (c : list (list F))
  (ij : nat * nat) : string * string * F :=
  (nth (fst ij) variable_names ""%string,
   nth (snd ij) variable_names ""%string,
   entry c (fst ij) (snd ij)).

(** A zero of either sign or a NaN, in binary64. *)
Definition zero_or_nan64 (x : float) : Prop :=
  match Prim2SF x with
  | S754_zero _ | S754_nan => True
  | _ => False
  end.

(** A variable without variance, as the code computes it in binary64: it
    is not empty and either it is [0.0] throughout, or it has fewer than 8
    entries and the deviation of every entry from the computed mean is
    [0.0] (a constant whose mean is computed exactly, as for 20, 20).  On
    fewer than 8 entries [np_sum] adds as NumPy does, and zeros add up to
    zero in any order, so this is a condition on what the program
    computes. *)
Definition degenerate (a : list float) : Prop :=
  a <> []
  /\ (Forall (fun v => v = 0%float) a
      \/ ((length a < 8)%nat
          /\ Forall (fun v => (v - np_mean a)%np = 0%float) a)).

(** Three days with a temperature of 0.1, whose mean is not computed
    exactly; the other variables are those of [three_days]. *)
Definition tenths : WeatherSeries float :=
  {| dates := [ymd2ord 2021 1 1; ymd2ord 2021 1 2; ymd2ord 2021 1 3];
     temperature := [0x1.999999999999ap-4; 0x1.999999999999ap-4;
                     0x1.999999999999ap-4]%float;
     humidity := [50; 53; 59]%float;
     precipitation := [0; 0; 3]%float;
     wind_speed := [8; 11; 17]%float;
     pressure := [1013; 1013; 1016]%float |}.


(* ===================================================================== *)
(** * Part II.  Properties *)
(* ===================================================================== *)

Unset Implicit Arguments.

(** ** Run lengths: edge detection against sequential accumulation *)

Section RunLengths.

Lemma edges_nil v prev i :
  edges v prev i [] = if (0 - astype_int prev =? v) then [i] else [].
Proof. unfold edges; simpl. destruct (_ =? _); reflexivity. Qed.

Lemma edges_cons v prev i x l :
  edges v prev i (x :: l) =
  (if astype_int x - astype_int prev =? v then [i] else [])
    ++ edges v x (i + 1) l.
Proof. unfold edges; simpl. destruct (_ =? _); reflexivity. Qed.

Lemma fold_dry_spell_step l : forall cur acc,
  (let (c, a) := fold_left dry_spell_step l (cur, acc) in
   if c >? 0 then a ++ [c] else a) = acc ++ spells cur l.
Proof.
  induction l as [|[] l IH]; intros cur acc; simpl.
  - destruct (cur >? 0); [reflexivity | now rewrite app_nil_r].
  - apply IH.
  - rewrite IH. destruct (cur >? 0); simpl.
    + now rewrite <- app_assoc.
    + reflexivity.
Qed.

Lemma dry_spell_loop_spells l : dry_spell_loop l = spells 0 l.
Proof. unfold dry_spell_loop. now rewrite fold_dry_spell_step. Qed.

(** The pending start of an open run, [i - cur], is put back in front of
    the starts still to come; the ends then pair with them one to one and
    the differences are what the loop emits. *)
Lemma edges_spells l : forall prev i cur,
  (prev = true -> 0 < cur) -> (prev = false -> cur = 0) ->
  zip_with Z.sub (edges (-1) prev i l)
    ((if prev then [i - cur] else []) ++ edges 1 prev i l) = spells cur l
  /\ length (edges (-1) prev i l)
     = length ((if prev then [i - cur] else []) ++ edges 1 prev i l).
Proof.
  induction l as [|x l IH]; intros prev i cur Ht Hf.
  - rewrite !edges_nil. destruct prev; simpl.
    + specialize (Ht eq_refl).
      replace (cur >? 0) with true by (symmetry; apply Z.gtb_lt; lia).
      split; [f_equal; lia | reflexivity].
    + rewrite (Hf eq_refl). split; reflexivity.
  - rewrite !edges_cons. destruct prev, x; simpl.
    + specialize (Ht eq_refl).
      replace (i - cur) with (i + 1 - (cur + 1)) by lia.
      apply (IH true (i + 1) (cur + 1)); [lia | discriminate].
    + specialize (Ht eq_refl).
      replace (cur >? 0) with true by (symmetry; apply Z.gtb_lt; lia).
      destruct (IH false (i + 1) 0) as [IH1 IH2];
        [discriminate | reflexivity |].
      simpl in IH1, IH2. split; [|now rewrite IH2].
      rewrite IH1. simpl. f_equal. lia.
    + rewrite (Hf eq_refl).
      destruct (IH true (i + 1) 1) as [IH1 IH2]; [lia | discriminate |].
      simpl in IH1, IH2. replace (i + 1 - 1) with i in IH1 by lia.
      change (0 + 1) with 1. split; assumption.
    + rewrite (Hf eq_refl).
      apply (IH false (i + 1) 0); [discriminate | reflexivity].
Qed.

Lemma run_lengths_agree_aux (mask : list bool) :
  lengths mask = Ok (spells 0 mask).
Proof.
  destruct (edges_spells mask false 0 0) as [Hzip Hlen];
    [discriminate | reflexivity |].
  simpl in Hzip, Hlen.
  unfold lengths, np_binop, ends, starts, changes, np_where.
  change ([false] ++ mask ++ [false]) with (false :: mask ++ [false]).
  fold (edges (-1) false 0 mask) (edges 1 false 0 mask).
  rewrite Hlen, Nat.eqb_refl, Hzip. reflexivity.
Qed.

(** C1.  On every boolean mask the edge-detection run detector of
    [find_consecutive_events] (pad with [False], cast to 0/1, first
    difference, starts at +1, exclusive ends at -1, [ends - starts]) raises
    no exception and computes exactly the list that the sequential loop of
    [precipitation_patterns] accumulates: the same run lengths in the same
    order. *)
Theorem run_lengths_agree (mask : list bool) :
  lengths mask = Ok (dry_spell_loop mask).
Proof.
  rewrite dry_spell_loop_spells. apply run_lengths_agree_aux.
Qed.

(** The count that [find_consecutive_events] returns is the number of
    entries of the sequential list that reach [min_length]. *)
Lemma find_consecutive_events_spells mask min_length :
  find_consecutive_events mask min_length
  = Ok (count_true (map (fun l => l >=? min_length) (dry_spell_loop mask))).
Proof.
  unfold find_consecutive_events.
  now rewrite run_lengths_agree_aux, dry_spell_loop_spells.
Qed.

(** What is computed is the list of the maximal runs: on a mask that
    consists of [lead] false entries and then of maximal runs, the loop,
    and so the detector, returns the lengths of these runs in order. *)
Lemma spells_false (n : nat) (l : list bool) :
  spells 0 (repeat false n ++ l) = spells 0 l.
Proof. induction n; simpl; auto. Qed.

Lemma spells_true (n : nat) (l : list bool) : forall cur,
  spells cur (repeat true n ++ l) = spells (cur + Z.of_nat n) l.
Proof.
  induction n as [|n IH]; intros cur.
  - simpl. f_equal. lia.
  - cbn [repeat app spells]. rewrite IH. f_equal. lia.
Qed.

Lemma spells_runs (runs : list (nat * nat)) :
  maximal_runs runs ->
  spells 0 (runs_mask runs) = map (fun r => Z.of_nat (fst r)) runs.
Proof.
  induction runs as [|[len gap] rest IH]; intros Hm.
  - reflexivity.
  - destruct Hm as (Hlen & Hgap & Hrest). cbn [runs_mask map fst].
    rewrite spells_true, Z.add_0_l.
    assert (Hpos : (Z.of_nat len >? 0) = true) by (apply Z.gtb_lt; lia).
    destruct gap as [|gap].
    + destruct Hgap as [-> | Hgap]; [|lia]. simpl. now rewrite Hpos.
    + cbn [repeat app spells]. rewrite Hpos, spells_false, (IH Hrest).
      reflexivity.
Qed.

Lemma lengths_of_maximal_runs (lead : nat) (runs : list (nat * nat)) :
  maximal_runs runs ->
  lengths (repeat false lead ++ runs_mask runs)
  = Ok (map (fun r => Z.of_nat (fst r)) runs).
Proof.
  intros Hm. now rewrite run_lengths_agree_aux, spells_false, spells_runs.
Qed.

(** The dry spells of the precipitation [[0,0,5,0,0,0,2,0]]: the mask
    [precipitation == 0] has the runs 2, 3 and 1, by either method. *)
Lemma dry_spell_example :
  let no_rain := map (fun p => PrimFloat.eqb p 0)
                     [0; 0; 5; 0; 0; 0; 2; 0]%float in
  dry_spell_loop no_rain = [2; 3; 1] /\ lengths no_rain = Ok [2; 3; 1].
Proof. split; vm_compute; reflexivity. Qed.

(** C7.  On [[T,T,F,T,T,T,F,T]] the detector finds the run lengths
    [[2,3,1]], and with minimum run length 3 it returns the count 1. *)
Theorem run_length_example :
  lengths [true; true; false; true; true; true; false; true] = Ok [2; 3; 1]
  /\ find_consecutive_events
       [true; true; false; true; true; true; false; true] 3 = Ok 1.
Proof. split; vm_compute; reflexivity. Qed.

End RunLengths.

(** ** The autoregressive loop *)

Section ARLoop.

Context {F : Type} `{Scalar F}.

Lemma norm_index_in_range {A : Type} (a : list A) (i : nat) :
  (i < length a)%nat -> norm_index a (Z.of_nat i) = Ok i.
Proof.
  intros Hi. unfold norm_index.
  replace (Z.of_nat i <? 0) with false by (symmetry; apply Z.ltb_ge; lia).
  replace (0 <=? Z.of_nat i) with true by (symmetry; apply Z.leb_le; lia).
  replace (Z.of_nat i <? Z.of_nat (length a)) with true
    by (symmetry; apply Z.ltb_lt; lia).
  simpl. now rewrite Nat2Z.id.
Qed.

Lemma getitem_middle {A : Type} (pre : list A) (x : A) (post : list A) :
  getitem (pre ++ x :: post) (Z.of_nat (length pre)) = Ok x.
Proof.
  unfold getitem. rewrite norm_index_in_range.
  - simpl. rewrite nth_error_app2 by lia. now rewrite Nat.sub_diag.
  - rewrite length_app. simpl. lia.
Qed.

Lemma firstn_middle {A : Type} (pre post : list A) :
  firstn (length pre) (pre ++ post) = pre.
Proof. induction pre; simpl; [now destruct post | now f_equal]. Qed.

Lemma skipn_middle {A : Type} (pre : list A) (x : A) (post : list A) :
  skipn (S (length pre)) (pre ++ x :: post) = post.
Proof. induction pre; simpl; auto. Qed.

Lemma setitem_middle {A : Type} (pre : list A) (x y : A) (post : list A) :
  setitem (pre ++ x :: post) (Z.of_nat (length pre)) y = Ok (pre ++ y :: post).
Proof.
  unfold setitem. rewrite norm_index_in_range.
  - cbn [bind]. now rewrite firstn_middle, skipn_middle.
  - rewrite length_app. simpl. lia.
Qed.

(** One iteration at index [length pre + 1], with everything to the left
    already final. *)
Lemma ar_step_middle (pre : list F) (p x : F) (post : list F) :
  ar_step (pre ++ p :: x :: post) (Z.of_nat (length pre) + 1)
  = Ok (pre ++ p :: (x + lit 3 10 * p)%np :: post).
Proof.
  unfold ar_step.
  replace (Z.of_nat (length pre) + 1 - 1) with (Z.of_nat (length pre)) by lia.
  rewrite (getitem_middle pre p (x :: post)).
  replace (Z.of_nat (length pre) + 1) with (Z.of_nat (length (pre ++ [p])))
    by (rewrite length_app; simpl; lia).
  change (pre ++ p :: x :: post) with (pre ++ [p] ++ x :: post).
  rewrite app_assoc, getitem_middle. simpl.
  rewrite setitem_middle, <- app_assoc. reflexivity.
Qed.

(** The loop invariant: once the indices up to [length pre] are done, the
    remaining iterations turn the untouched tail into the scan that carries
    the last finished value. *)
Lemma ar_loop_invariant (rest : list F) : forall (pre : list F) (p : F),
  for_each ar_step (range_from (Z.of_nat (length pre) + 1) (length rest))
    (pre ++ p :: rest)
  = Ok (pre ++ p :: scan_from p rest).
Proof.
  induction rest as [|x rest IH]; intros pre p; simpl.
  - reflexivity.
  - rewrite ar_step_middle. simpl.
    specialize (IH (pre ++ [p]) (x + lit 3 10 * p)%np).
    rewrite length_app in IH. simpl in IH.
    replace (Z.of_nat (length pre + 1) + 1)
      with (Z.of_nat (length pre) + 1 + 1) in IH by lia.
    rewrite <- !app_assoc in IH. exact IH.
Qed.

Lemma ar_loop_scan (noise : list F) :
  ar_loop (Z.of_nat (length noise)) noise = Ok (ar1_scan noise).
Proof.
  unfold ar_loop, range. destruct noise as [|n0 t].
  - reflexivity.
  - replace (Z.to_nat (Z.of_nat (length (n0 :: t)) - 1)) with (length t)
      by (simpl length; lia).
    apply (ar_loop_invariant t [] n0).
Qed.

Lemma scan_from_length (noise : list F) : forall carry,
  length (scan_from carry noise) = length noise.
Proof. induction noise; intros; simpl; auto. Qed.

Lemma scan_from_step (noise : list F) : forall carry i x p,
  nth_error noise (S i) = Some x ->
  nth_error (scan_from carry noise) i = Some p ->
  nth_error (scan_from carry noise) (S i) = Some (x + lit 3 10 * p)%np.
Proof.
  induction noise as [|n t IH]; intros carry i x p Hx Hp.
  - discriminate.
  - destruct i as [|i]; simpl in *.
    + inversion Hp; subst p. destruct t as [|y t]; [discriminate|].
      simpl in *. now inversion Hx.
    + now apply IH.
Qed.

(** C6.  For every noise array (its length is [days]) the in-place loop of
    lines 28-29 raises no exception and leaves exactly the prefix scan with
    multiplier 0.3: the result has the length of the noise, its entry 0 is
    [noise[0]], and every later entry [i] is
    [noise[i] + 0.3 * variation[i-1]].  Nothing is assumed of the
    arithmetic, so this holds in binary64 as it does over the reals. *)
Theorem ar_loop_is_prefix_scan (noise : list F) :
  exists variation,
    ar_loop (Z.of_nat (length noise)) noise = Ok variation
    /\ variation = ar1_scan noise
    /\ length variation = length noise
    /\ nth_error variation 0 = nth_error noise 0
    /\ forall i x p,
         nth_error noise (S i) = Some x ->
         nth_error variation i = Some p ->
         nth_error variation (S i) = Some (x + lit 3 10 * p)%np.
Proof.
  exists (ar1_scan noise). split; [apply ar_loop_scan|].
  split; [reflexivity|]. destruct noise as [|n0 t]; simpl.
  - repeat split; auto. intros [|i]; discriminate.
  - rewrite scan_from_length. repeat split; auto.
    intros i x p Hx Hp. destruct i as [|i]; simpl in Hp.
    + inversion Hp; subst p. destruct t as [|y t]; [discriminate|].
      simpl in *. now inversion Hx.
    + now apply scan_from_step.
Qed.

End ARLoop.

(** ** Moving averages: the length of [np.convolve(..., mode='valid')] *)

Section MovingAverage.

Context {F : Type} `{Scalar F}.

Lemma windows_length (n : nat) (a : list F) :
  (1 <= n)%nat -> length (windows n a) = (length a + 1 - n)%nat.
Proof.
  intros Hn. induction a as [|x t IH].
  - cbn [windows length]. lia.
  - cbn [windows]. destruct (Nat.leb n (length (x :: t))) eqn:E.
    + apply Nat.leb_le in E. cbn [length] in *. rewrite IH. lia.
    + apply Nat.leb_gt in E. cbn [length] in *. lia.
Qed.

Lemma np_ones_length (n : Z) : length (np_ones (F := F) n) = Z.to_nat n.
Proof. apply repeat_length. Qed.

(** The length law of NumPy's valid convolution: [max - min + 1] on
    non-empty operands, [ValueError] when one is empty. *)
Lemma np_convolve_valid_length (a v : list F) :
  match np_convolve_valid a v with
  | Ok out =>
      a <> [] /\ v <> [] /\
      length out = (Nat.max (length a) (length v)
                    - Nat.min (length a) (length v) + 1)%nat
  | Raise e => (a = [] \/ v = []) /\ e = ValueError
  end.
Proof.
  unfold np_convolve_valid.
  destruct (Nat.ltb (length a) (length v)) eqn:E;
    [apply Nat.ltb_lt in E | apply Nat.ltb_ge in E].
  - destruct v as [|y v]; [simpl in E; lia|].
    destruct a as [|x a]; simpl Nat.eqb; cbv iota.
    + split; auto.
    + repeat split; try discriminate.
      rewrite length_map, windows_length by (simpl; lia). lia.
  - destruct a as [|x a]; simpl Nat.eqb; cbv iota.
    + split; auto.
    + destruct v as [|y v]; simpl Nat.eqb; cbv iota.
      * split; auto.
      * repeat split; try discriminate.
        rewrite length_map, windows_length by (simpl; lia). lia.
Qed.

(** C2, as the code has it.  For a window [w >= 1] (the code uses 7 and
    30) and a series of length [N]: when [w <= N] the smoothed series has
    length [N - w + 1]; when [1 <= N < w] no exception is raised and the
    smoothed series is not empty but has length [w - N + 1], because
    [np.convolve] slides the shorter operand over the longer one; when
    [N = 0] the call raises [ValueError]. *)
Theorem moving_average_length (w : Z) (temps : list F) :
  1 <= w ->
  let N := Z.of_nat (length temps) in
  (N = 0 -> moving_average w temps = Raise ValueError)
  /\ (1 <= N -> w <= N ->
      exists out, moving_average w temps = Ok out
                  /\ Z.of_nat (length out) = N - w + 1)
  /\ (1 <= N -> N < w ->
      exists out, moving_average w temps = Ok out
                  /\ Z.of_nat (length out) = w - N + 1).
Proof.
  intros Hw N. unfold moving_average.
  pose proof (np_convolve_valid_length temps
                (map (fun o => (o / of_int w)%np) (np_ones w))) as L.
  set (kernel := map (fun o => (o / of_int w)%np) (np_ones w)) in *.
  assert (Hk : length kernel = Z.to_nat w)
    by (unfold kernel; now rewrite length_map, np_ones_length).
  destruct (np_convolve_valid temps kernel) as [out|e].
  - destruct L as (Ha & _ & Hlen). rewrite Hk in Hlen.
    assert (N <> 0) by (subst N; destruct temps; [congruence | simpl; lia]).
    repeat split.
    + intros; contradiction.
    + intros _ Hle. exists out. split; [reflexivity|]. subst N. lia.
    + intros _ Hlt. exists out. split; [reflexivity|]. subst N. lia.
  - destruct L as ([Ha | Hv] & ->).
    + repeat split; auto; intros; subst N temps; simpl in *; lia.
    + rewrite Hv in Hk. simpl in Hk. lia.
Qed.

End MovingAverage.

(** C2 at a concrete series: three days and the 7-day window. *)
Lemma moving_average_length_witness :
  exists out, moving_average 7 [1; 2; 3]%float = Ok out
              /\ Z.of_nat (length out) = 7 - 3 + 1.
Proof.
  destruct (moving_average_length (F := float) 7 [1; 2; 3]%float)
    as (_ & _ & Hshort); [lia|].
  apply Hshort; simpl; lia.
Defined.

(** C2 as the spec states it fails: with three days the 7-day average is
    not empty, it has five entries (each the sum of the three values over
    seven, about 0.857); and on an empty series the call raises. *)
Lemma moving_average_short_series :
  moving_average 7 [1; 2; 3]%float = Ok (repeat 0x1.b6db6db6db6dap-1%float 5)
  /\ moving_average 7 ([] : list float) = Raise ValueError.
Proof. split; vm_compute; reflexivity. Qed.

(** ** The generator: shape, dates and bounds *)

Section ListFacts.

Context {A B C : Type}.

Lemma zip_with_length (op : A -> B -> C) (a : list A) : forall b,
  length a = length b -> length (zip_with op a b) = length a.
Proof.
  induction a as [|x a IH]; intros [|y b] E; simpl in *; try discriminate; auto.
Qed.

Lemma np_binop_same_length (op : A -> B -> C) (a : list A) (b : list B) :
  length a = length b -> np_binop op a b = Ok (zip_with op a b).
Proof. intros E. unfold np_binop. now rewrite E, Nat.eqb_refl. Qed.

Lemma zip_with_Forall (P : C -> Prop) (op : A -> B -> C) (a : list A) :
  forall b, (forall x y, In y b -> P (op x y)) -> Forall P (zip_with op a b).
Proof.
  induction a as [|x a IH]; intros [|y b] Hop; simpl; constructor.
  - apply Hop. now left.
  - apply IH. intros; apply Hop. now right.
Qed.

Lemma mapM_ok (f : A -> result B) (g : A -> B) (l : list A) :
  (forall x, In x l -> f x = Ok (g x)) -> mapM f l = Ok (map g l).
Proof.
  induction l as [|x l IH]; intros Hf; simpl.
  - reflexivity.
  - rewrite (Hf x) by now left. simpl. rewrite IH; [reflexivity|].
    intros; apply Hf. now right.
Qed.

Lemma mapM_raise (f : A -> result B) (e : exn) (l : list A) :
  (forall x e', f x = Raise e' -> e' = e) ->
  (exists x, In x l /\ f x = Raise e) ->
  mapM f l = Raise e.
Proof.
  intros Hone. induction l as [|x l IH]; intros (y & Hin & Hy).
  - destruct Hin.
  - simpl. destruct (f x) as [b|e'] eqn:E; simpl.
    + destruct Hin as [-> | Hin]; [congruence|].
      rewrite IH; [reflexivity | eauto].
    + now rewrite (Hone _ _ E).
Qed.

End ListFacts.

Lemma range_from_length (n : nat) : forall start,
  length (range_from start n) = n.
Proof. induction n; intros; simpl; auto. Qed.

Lemma range_from_In (n : nat) : forall start x,
  In x (range_from start n) <-> start <= x < start + Z.of_nat n.
Proof.
  induction n as [|n IH]; intros start x; simpl.
  - lia.
  - rewrite IH. lia.
Qed.

Lemma range_from_nth (n : nat) : forall start i,
  (i < n)%nat -> nth_error (range_from start n) i = Some (start + Z.of_nat i).
Proof.
  induction n as [|n IH]; intros start i Hi; [lia|].
  destruct i as [|i]; simpl.
  - f_equal. lia.
  - rewrite IH by lia. f_equal. lia.
Qed.

Lemma Some_eq {A : Type} (a b : A) : Some a = Some b -> a = b.
Proof. intros E. now inversion E. Qed.

(** Offsets [0, 1, 2, ...] from a first day are consecutive days. *)
Lemma consecutive_offsets (first : Z) (n : nat) : forall i d d',
  nth_error (map (fun k => first + k) (range_from 0 n)) i = Some d ->
  nth_error (map (fun k => first + k) (range_from 0 n)) (S i) = Some d' ->
  d' = d + 1.
Proof.
  intros i d d' Hi HSi.
  assert (Hlt : (S i < n)%nat).
  { destruct (Nat.lt_ge_cases (S i) n) as [|Hge]; [assumption|].
    exfalso. erewrite (proj2 (nth_error_None _ _)) in HSi; [discriminate|].
    rewrite length_map, range_from_length. exact Hge. }
  rewrite nth_error_map, range_from_nth in Hi, HSi by lia.
  cbn [option_map] in Hi, HSi.
  apply Some_eq in Hi, HSi. lia.
Qed.

(** The last day of [datetime] is 2914268 days after the start date. *)
Lemma last_day : MAXORDINAL - start_date = 2914268.
Proof. reflexivity. Qed.

Lemma make_dates_ok (days : Z) :
  days <= 2914269 ->
  make_dates days = Ok (map (fun i => start_date + i) (range 0 days)).
Proof.
  intros Hd. unfold make_dates. apply mapM_ok. intros i Hi.
  apply range_from_In in Hi.
  assert (Hi' : 0 <= i <= 2914268) by lia.
  unfold timedelta, datetime_add.
  replace ((-999999999 <=? i) && (i <=? 999999999)) with true
    by (symmetry; apply andb_true_iff; split; apply Z.leb_le; lia).
  cbn [bind]. pose proof last_day as L.
  replace ((0 <? start_date + i) && (start_date + i <=? MAXORDINAL)) with true;
    [reflexivity|].
  symmetry; apply andb_true_iff; split;
    [apply Z.ltb_lt | apply Z.leb_le]; unfold start_date in *;
    change (ymd2ord 2021 1 1) with 737791 in *; lia.
Qed.

(** Beyond 9999-12-31 the list comprehension of line 22 raises. *)
Lemma make_dates_overflow (days : Z) :
  2914269 < days -> make_dates days = Raise OverflowError.
Proof.
  intros Hd. unfold make_dates. apply mapM_raise.
  - intros i e. unfold timedelta, datetime_add.
    destruct ((-999999999 <=? i) && (i <=? 999999999)); cbn [bind];
      [|congruence].
    destruct ((0 <? start_date + i) && (start_date + i <=? MAXORDINAL));
      congruence.
  - exists 2914269. split.
    + apply range_from_In. lia.
    + reflexivity.
Qed.

Lemma np_clip_bounds (x lo hi : R) :
  (lo <= hi)%R -> (lo <= np_clip x lo hi <= hi)%R.
Proof.
  intros Hlh. unfold np_clip, np_minimum, np_maximum, np_isnan.
  cbn [fleb feqb exactR]. unfold Rleb, Reqb.
  destruct (Rle_dec lo x); destruct (Req_dec_T x x); cbn [orb negb];
    try congruence;
    repeat (destruct (Rle_dec _ _) || destruct (Req_dec_T _ _));
    cbn [orb negb]; try congruence; lra.
Qed.

Lemma np_random_ok {F : Type} (draw : nat -> F) (size : Z) :
  0 <= size -> np_random draw size = Ok (map draw (seq 0 (Z.to_nat size))).
Proof.
  intros Hs. unfold np_random.
  now replace (size <? 0) with false by (symmetry; apply Z.ltb_ge; lia).
Qed.

Lemma ar1_scan_length {F : Type} `{Scalar F} (noise : list F) :
  length (ar1_scan noise) = length noise.
Proof. destruct noise; simpl; [|rewrite scan_from_length]; reflexivity. Qed.

Lemma ar_loop_ok {F : Type} `{Scalar F} (days : Z) (noise : list F) :
  Z.of_nat (length noise) = days -> ar_loop days noise = Ok (ar1_scan noise).
Proof. intros <-. apply ar_loop_scan. Qed.

Ltac solve_len :=
  repeat (rewrite ?length_map, ?length_seq, ?ar1_scan_length,
            ?range_from_length;
          try (rewrite zip_with_length by solve_len));
  try reflexivity; try lia.

(** The series that [generate_weather_data] returns, written as one
    expression over the arrays of draws. *)
Lemma generate_weather_data_ok (days : Z) (rng : Draws R) :
  0 <= days <= 2914269 ->
  exists s, generate_weather_data days rng = Ok s
    /\ dates s = map (fun i => start_date + i) (range 0 days)
    /\ length (temperature s) = Z.to_nat days
    /\ (exists h, humidity s = map (fun v => np_clip v (of_int 10) (of_int 100)) h
                  /\ length h = Z.to_nat days)
    /\ (exists (ev : list bool),
          precipitation s
          = zip_with (fun (e : bool) a => if e then a else of_int 0) ev
              (map (exponential_5 rng) (seq 0 (Z.to_nat days)))
          /\ length ev = Z.to_nat days)
    /\ (exists w, wind_speed s = map (fun v => np_clip v (of_int 0) (of_int 50)) w
                  /\ length w = Z.to_nat days)
    /\ length (pressure s) = Z.to_nat days.
Proof.
  intros Hd. unfold generate_weather_data.
  rewrite make_dates_ok by lia. cbn [bind].
  rewrite !np_random_ok by lia. cbn [bind].
  rewrite ar_loop_ok by (rewrite length_map, length_seq; lia). cbn [bind].
  unfold range. rewrite Z.sub_0_r.
  repeat (rewrite np_binop_same_length by solve_len; cbn [bind]).
  eexists. split; [reflexivity|]. cbn [dates temperature humidity precipitation wind_speed pressure].
  split; [reflexivity|]. split; [solve_len|].
  split; [eexists; split; [reflexivity | solve_len]|].
  split; [eexists; split; [reflexivity | solve_len]|].
  split; [eexists; split; [reflexivity | solve_len]|].
  solve_len.
Qed.


Lemma map_clip_Forall (lo hi : R) (a : list R) :
  (lo <= hi)%R ->
  Forall (fun v => lo <= v <= hi)%R (map (fun v => np_clip v lo hi) a).
Proof.
  intros Hlh. apply Forall_forall. intros v Hv.
  apply in_map_iff in Hv. destruct Hv as (x & <- & _).
  now apply np_clip_bounds.
Qed.

(** C3, as the code has it.  For every day count from 1 up to 2914269
    (the last one whose dates all exist: day 2914268 after 2021-01-01 is
    9999-12-31) and every draw of the random sources, the exponential
    draws being non-negative, the generator returns a series, and the
    series has the invariants: six arrays of length [days], consecutive
    dates, and the bounds on humidity, precipitation and wind speed. *)
Theorem generate_weather_data_invariants (days : Z) (rng : Draws R) :
  1 <= days <= 2914269 ->
  (forall k, (0 <= exponential_5 rng k)%R) ->
  exists s, generate_weather_data days rng = Ok s /\ series_invariants days s.
Proof.
  intros Hd Hexp.
  destruct (generate_weather_data_ok days rng) as
    (s & Hs & Hdates & Ht & (h & Hh & Lh) & (ev & Hp & Lev) & (w & Hw & Lw) & Hpr);
    [lia|].
  exists s. split; [exact Hs|]. unfold series_invariants.
  rewrite Hdates, Hh, Hp, Hw, Ht, Hpr.
  unfold range. rewrite Z.sub_0_r.
  repeat split.
  - solve_len.
  - lia.
  - solve_len.
  - solve_len.
  - solve_len.
  - lia.
  - destruct (Z.to_nat days) eqn:E; [lia | reflexivity].
  - apply consecutive_offsets.
  - apply (map_clip_Forall 10 100 h). lra.
  - apply zip_with_Forall. intros [] y Hy; [|simpl; lra].
    apply in_map_iff in Hy. destruct Hy as (k & <- & _). apply Hexp.
  - apply (map_clip_Forall 0 50 w). lra.
Qed.

(** Past the last representable date no series is produced, whatever the
    scalars and the draws. *)
Lemma generate_weather_data_overflow {F : Type} `{Scalar F} `{Trig F}
  (days : Z) (rng : Draws F) :
  2914269 < days -> generate_weather_data days rng = Raise OverflowError.
Proof.
  intros Hd. unfold generate_weather_data.
  now rewrite make_dates_overflow by lia.
Qed.

(** C3 at a concrete input: two days of calm weather. *)
Lemma generate_weather_data_witness :
  exists s, generate_weather_data 2 calm = Ok s /\ series_invariants 2 s.
Proof.
  apply (generate_weather_data_invariants 2 calm).
  - lia.
  - intros k. simpl. lra.
Defined.

(** C3 as the spec states it fails: a day count of 2914270 is at least 1,
    yet line 22 asks for the date 10000-01-01 and raises
    [OverflowError]; no series is generated. *)
Lemma generate_weather_data_too_many_days :
  generate_weather_data 2914270 calm = Raise OverflowError.
Proof. apply generate_weather_data_overflow. lia. Qed.

(** ** The trend label *)


(** In binary64 the same holds of the zeros of both signs, and a NaN
    slope, which compares false with everything, is labelled "cooling". *)
Lemma trend_direction_binary64 :
  trend_direction 0%float = "cooling"%string
  /\ trend_direction (-0)%float = "cooling"%string
  /\ trend_direction nan = "cooling"%string
  /\ trend_direction 0x1p-1074%float = "warming"%string.
Proof. repeat split; vm_compute; reflexivity. Qed.

(** ** Degenerate input: a constant variable *)

Lemma xdiv_zero_zero : xdiv (Fin 0) (Fin 0) = NaN.
Proof.
  unfold xdiv, xinf_of_sign, xsign.
  destruct (Req_dec_T 0 0) as [_|N]; [|now elim N].
  destruct (Rlt_dec 0 0); [lra|].
  destruct (Rlt_dec 0 0); [lra | reflexivity].
Qed.

Lemma zscores_length {F : Type} `{Scalar F} (a : list F) :
  length (zscores a) = length a.
Proof. unfold zscores. apply length_map. Qed.

Lemma same_lengths_variables {F : Type} `{Scalar F} (s : WeatherSeries F) :
  same_lengths s ->
  length (humidity s) = length (temperature s)
  /\ length (precipitation s) = length (temperature s)
  /\ length (wind_speed s) = length (temperature s)
  /\ length (pressure s) = length (temperature s).
Proof.
  intros [_ Hv]. unfold variables in Hv.
  repeat match goal with
         | Hf : Forall _ (_ :: _) |- _ => inversion Hf; subst; clear Hf
         end.
  auto.
Qed.

Lemma column_stack_T_ok {F : Type} `{Scalar F} (s : WeatherSeries F) :
  same_lengths s -> column_stack_T (variables s) = Ok (variables s).
Proof.
  intros Hs. destruct (same_lengths_variables s Hs) as (Eh & Ep & Ew & Epr).
  unfold column_stack_T, variables. cbn [forallb].
  now rewrite Eh, Ep, Ew, Epr, Nat.eqb_refl.
Qed.


(** ** Degenerate input: no rainy day *)

Lemma select_none {A : Type} (f : A -> bool) (a : list A) :
  (forall x, In x a -> f x = false) -> select a (map f a) = [].
Proof.
  induction a as [|x a IH]; intros Hf; simpl.
  - reflexivity.
  - rewrite (Hf x) by now left. apply IH. intros; apply Hf. now right.
Qed.

Lemma np_mean_empty : np_mean ([] : list xreal) = NaN.
Proof. unfold np_mean, np_sum. simpl. apply xdiv_zero_zero. Qed.

(** C5, as the code has it.  When no day has precipitation above 0, the
    selection [precipitation[precipitation > 0]] is empty and is used
    unguarded: [np.percentile] is called on the empty array, whatever it
    then does, and the mean per rainy day is the NaN of [0.0/0], which is
    what the report prints; no line of the report says that no
    precipitation was observed. *)
Theorem no_rainy_day_is_not_guarded
  (np_percentile : list xreal -> Z -> result xreal) (days : Z)
  (s : WeatherSeries xreal) :
  (forall p, In p (precipitation s) -> (p >? of_int 0)%np = false) ->
  rainy s = []
  /\ heavy_rain_threshold np_percentile s = np_percentile [] 90
  /\ avg_rainy_day s = NaN
  /\ In (FloatField "Average per rainy day" NaN) (precipitation_patterns days s)
  /\ forall l, In l (precipitation_patterns days s) ->
               l <> Text "no precipitation observed".
Proof.
  intros Hdry.
  assert (Hr : rainy s = []) by (unfold rainy; now apply select_none).
  assert (Ha : avg_rainy_day s = NaN)
    by (unfold avg_rainy_day; rewrite Hr; apply np_mean_empty).
  repeat split.
  - exact Hr.
  - unfold heavy_rain_threshold. now rewrite Hr.
  - exact Ha.
  - unfold precipitation_patterns. rewrite Ha. apply in_or_app. left.
    simpl. tauto.
  - intros l Hl. unfold precipitation_patterns in Hl.
    apply in_app_or in Hl. destruct Hl as [Hl | Hl].
    + simpl in Hl. repeat destruct Hl as [<- | Hl]; try discriminate.
      destruct Hl.
    + destruct (Nat.ltb 0 _) in Hl; simpl in Hl;
        repeat destruct Hl as [<- | Hl]; try discriminate; destruct Hl.
Qed.

(** C5 at a concrete series: two days without rain. *)
Lemma no_rainy_day_witness :
  rainy dry_days_exact = []
  /\ avg_rainy_day dry_days_exact = NaN.
Proof.
  destruct (no_rainy_day_is_not_guarded
              (fun _ _ => Raise IndexError) 2 dry_days_exact)
    as (Hr & _ & Ha & _).
  - intros p [<- | [<- | []]]; cbn [fltb extendedR of_int xltb];
      unfold Rltb; destruct (Rlt_dec _ _); simpl in *; trivial; lra.
  - split; assumption.
Defined.

(** C5 as the spec states it fails, run in binary64: on two dry days the
    report of [precipitation_patterns] is produced without any guard and
    its average per rainy day is [nan]. *)
Lemma dry_days_report :
  rainy dry_days = []
  /\ precipitation_patterns 2 dry_days
     = [ Text "Precipitation Summary:";
         IntField "Total rainy days" 0;
         FloatField "Rainy day percentage" 0%float;
         FloatField "Total precipitation" 0%float;
         FloatField "Average per rainy day" nan;
         Text "Dry Spell Analysis:";
         IntField "Number of dry spells" 1;
         FloatField "Average dry spell" 2%float;
         IntField "Longest dry spell" 2;
         IntField "Shortest dry spell" 2 ].
Proof. split; vm_compute; reflexivity. Qed.

(** ** The most extreme day: [np.argmax] and ties *)

Ltac decide_reals :=
  unfold Rleb, Rltb, Reqb in *;
  repeat match goal with
         | |- context [Rle_dec ?a ?b] => destruct (Rle_dec a b)
         | |- context [Rlt_dec ?a ?b] => destruct (Rlt_dec a b)
         | |- context [Req_dec_T ?a ?b] => destruct (Req_dec_T a b)
         | H : context [Rle_dec ?a ?b] |- _ => destruct (Rle_dec a b)
         | H : context [Rlt_dec ?a ?b] |- _ => destruct (Rlt_dec a b)
         | H : context [Req_dec_T ?a ?b] |- _ => destruct (Req_dec_T a b)
         end;
  try discriminate; try congruence; try lra; auto.

Lemma np_isnan_xreal (x : xreal) : np_isnan x = true <-> x = NaN.
Proof.
  unfold np_isnan. cbn [feqb extendedR].
  destruct x; simpl; split; intros E; try discriminate; try reflexivity.
  decide_reals.
Qed.

Lemma xleb_not_nan (y m : xreal) : xleb y m = true -> y <> NaN /\ m <> NaN.
Proof. destruct y, m; simpl; intros E; split; congruence. Qed.

Lemma xleb_refl (x : xreal) : x <> NaN -> xleb x x = true.
Proof. destruct x; simpl; intros E; try congruence. decide_reals. Qed.

Lemma xleb_false (x m : xreal) :
  xleb x m = false -> m <> NaN -> x = NaN \/ xltb m x = true.
Proof.
  destruct x, m; simpl; intros E Hm; auto; try congruence.
  right. decide_reals.
Qed.

Lemma xleb_xltb_trans (y m x : xreal) :
  xleb y m = true -> xltb m x = true -> xltb y x = true /\ xleb y x = true.
Proof.
  destruct y, m, x; simpl; intros E1 E2; split; try congruence;
    decide_reals.
Qed.

Lemma xltb_irrefl (x : xreal) : xltb x x = false.
Proof. destruct x; simpl; auto. decide_reals. Qed.

(** The state of the scan of [np.argmax] after the entries [pre]: the
    running maximum [mp] stands at [max_ind], nothing seen is above it and
    everything before it is strictly below. *)
Lemma argmax_from_first_maximum (t : list xreal) :
  forall (pre : list xreal) (mp : xreal) (max_ind : Z),
  0 <= max_ind ->
  nth_error pre (Z.to_nat max_ind) = Some mp ->
  (forall j y, nth_error pre j = Some y -> np_le y mp) ->
  (forall j y, nth_error pre j = Some y -> Z.of_nat j < max_ind -> np_lt y mp) ->
  first_maximum (pre ++ t)
    (argmax_from mp max_ind (Z.of_nat (length pre)) t).
Proof.
  induction t as [|x t IH]; intros pre mp max_ind H0 Hmp Hle Hlt.
  - simpl. rewrite app_nil_r. exists mp. auto.
  - assert (Hin : (Z.to_nat max_ind < length pre)%nat)
      by (apply nth_error_Some; congruence).
    cbn [argmax_from]. destruct (np_isnan mp) eqn:Enan.
    + apply np_isnan_xreal in Enan. subst mp. exists NaN.
      split; [assumption|]. split; [now rewrite nth_error_app1|].
      split; [intros; now left|].
      intros j y Hy Hj. split; [|now left].
      rewrite nth_error_app1 in Hy by lia.
      now destruct (Hlt j y Hy Hj).
    + assert (Hmn : mp <> NaN).
      { intro E. apply np_isnan_xreal in E. congruence. }
      replace (Z.of_nat (length pre) + 1) with (Z.of_nat (length (pre ++ [x])))
        by (rewrite length_app; simpl; lia).
      replace (pre ++ x :: t) with ((pre ++ [x]) ++ t)
        by (now rewrite <- app_assoc).
      cbn [fleb extendedR]. destruct (xleb x mp) eqn:Ex; cbn [negb].
      * apply IH; auto.
        -- now rewrite nth_error_app1.
        -- intros j y Hy. destruct (Nat.lt_ge_cases j (length pre)) as [Hj|Hj].
           ++ rewrite nth_error_app1 in Hy by assumption. eauto.
           ++ rewrite nth_error_app2 in Hy by assumption.
              destruct (j - length pre)%nat as [|[|k]]; simpl in Hy;
                try discriminate.
              apply Some_eq in Hy. subst y. now right.
        -- intros j y Hy Hj. rewrite nth_error_app1 in Hy by lia. eauto.
      * destruct (xleb_false x mp Ex Hmn) as [-> | Hx].
        -- apply IH.
           ++ lia.
           ++ rewrite Nat2Z.id, nth_error_app2, Nat.sub_diag by lia.
              reflexivity.
           ++ intros; now left.
           ++ intros j y Hy Hj. split; [|now left].
              rewrite nth_error_app1 in Hy by lia.
              destruct (Hle j y Hy) as [E | E]; [congruence|].
              now apply xleb_not_nan in E.
        -- apply IH.
           ++ lia.
           ++ rewrite Nat2Z.id, nth_error_app2, Nat.sub_diag by lia.
              reflexivity.
           ++ intros j y Hy. right.
              destruct (Nat.lt_ge_cases j (length pre)) as [Hj|Hj].
              ** rewrite nth_error_app1 in Hy by assumption.
                 destruct (Hle j y Hy) as [E | E]; [congruence|].
                 now apply (xleb_xltb_trans y mp x).
              ** rewrite nth_error_app2 in Hy by assumption.
                 destruct (j - length pre)%nat as [|[|k]]; simpl in Hy;
                   try discriminate.
                 apply Some_eq in Hy. subst y. apply xleb_refl.
                 intro E. subst x. now destruct mp.
           ++ intros j y Hy Hj. rewrite nth_error_app1 in Hy by lia.
              destruct (Hle j y Hy) as [E | E]; [congruence|].
              split; [now apply xleb_not_nan in E|].
              right. now apply (xleb_xltb_trans y mp x).
Qed.

Lemma np_argmax_first_maximum (x : xreal) (t : list xreal) :
  exists day, np_argmax (x :: t) = Ok day /\ first_maximum (x :: t) day.
Proof.
  eexists. split; [reflexivity|].
  apply (argmax_from_first_maximum t [x] x 0); try lia.
  - reflexivity.
  - intros [|[|j]] y Hy; simpl in Hy; try discriminate.
    apply Some_eq in Hy. subst y.
    destruct x; [right; apply xleb_refl; discriminate | right | right | left];
      reflexivity.
Qed.

(** A day whose score equals the maximal one is not before the first
    maximum. *)
Lemma first_maximum_ties (sc : list xreal) (day : Z) :
  first_maximum sc day ->
  forall j x m,
    nth_error sc (Z.to_nat day) = Some m -> nth_error sc j = Some x ->
    x = m -> day <= Z.of_nat j.
Proof.
  intros (m' & H0 & Hm & _ & Hlt) j x m Hm' Hx ->.
  rewrite Hm in Hm'. apply Some_eq in Hm'. subst m'.
  destruct (Z.lt_ge_cases (Z.of_nat j) day) as [Hj|Hj]; [|assumption].
  destruct (Hlt j m Hx Hj) as [Hn [E | E]]; [congruence|].
  rewrite xltb_irrefl in E. discriminate.
Qed.

(** C10.  For every series: when the composite scores are computed, the
    day that [np.argmax] reports is the first index at which the score is
    maximal (a NaN counting as the greatest score, as in NumPy): no day
    has a higher score, every earlier day has a strictly lower one, and so
    any day that shares the maximal score has an index at least as large.
    When the scores cannot be computed the exception is passed on, and on
    an empty series [np.argmax] raises [ValueError]. *)
Theorem most_extreme_day_is_first_maximum (s : WeatherSeries xreal) :
  match extreme_score s with
  | Ok [] => most_extreme_day s = Raise ValueError
  | Ok sc =>
      exists day,
        most_extreme_day s = Ok day
        /\ first_maximum sc day
        /\ forall j x m,
             nth_error sc (Z.to_nat day) = Some m ->
             nth_error sc j = Some x -> x = m -> day <= Z.of_nat j
  | Raise e => most_extreme_day s = Raise e
  end.
Proof.
  unfold most_extreme_day. destruct (extreme_score s) as [[|x t]|e];
    cbn [bind]; try reflexivity.
  destruct (np_argmax_first_maximum x t) as (day & Hday & Hfirst).
  exists day. split; [exact Hday|]. split; [exact Hfirst|].
  now apply first_maximum_ties.
Qed.

(** On a series whose arrays have one length the scores are computed, one
    per day, so that the first case of the theorem cannot arise from an
    exception and the second only from an empty series. *)
Lemma extreme_score_ok {F : Type} `{Scalar F} (s : WeatherSeries F) :
  same_lengths s ->
  exists sc, extreme_score s = Ok sc /\ length sc = length (temperature s).
Proof.
  intros Hs. destruct (same_lengths_variables s Hs) as (_ & Ep & Ew & _).
  unfold extreme_score, temp_normalized, wind_normalized, precip_normalized.
  rewrite np_binop_same_length
    by (now rewrite length_map, !zscores_length, Ew).
  cbn [bind].
  rewrite np_binop_same_length
    by (rewrite zip_with_length;
        now rewrite ?length_map, !zscores_length, ?Ew, ?Ep).
  eexists. split; [reflexivity|].
  rewrite zip_with_length.
  - rewrite zip_with_length; now rewrite length_map, !zscores_length, ?Ew.
  - rewrite zip_with_length;
      now rewrite ?length_map, !zscores_length, ?Ew, ?Ep.
Qed.

(** Run in binary64 on two days whose composite scores are both [1]: the
    first of them is reported. *)
Lemma tied_days_report_the_first :
  extreme_score tied_days = Ok [1; 1]%float
  /\ most_extreme_day tied_days = Ok 0.
Proof. split; vm_compute; reflexivity. Qed.

(** ** The correlation matrix over the reals *)

Lemma fold_Rplus_shift (l : list R) : forall a,
  fold_left Rplus l a = (a + fold_left Rplus l 0)%R.
Proof.
  induction l as [|x l IH]; intros a; simpl.
  - lra.
  - rewrite IH, (IH (0 + x)%R). lra.
Qed.

Lemma zip_with_Rmult_comm (a : list R) : forall b,
  zip_with Rmult a b = zip_with Rmult b a.
Proof.
  induction a as [|x a IH]; intros [|y b]; simpl; auto.
  now rewrite IH, Rmult_comm.
Qed.

Lemma np_dot_comm (a b : list R) : np_dot a b = np_dot b a.
Proof. unfold np_dot. cbn [fmul exactR]. now rewrite zip_with_Rmult_comm. Qed.

Lemma np_dot_self_nonneg (a : list R) : (0 <= np_dot a a)%R.
Proof.
  unfold np_dot, np_sum. cbn [fmul fadd of_int exactR].
  induction a as [|x a IH]; simpl.
  - lra.
  - rewrite fold_Rplus_shift. nra.
Qed.

Lemma np_dot_self_pos (a : list R) :
  (exists x, In x a /\ x <> 0%R) -> (0 < np_dot a a)%R.
Proof.
  intros (x & Hin & Hx). induction a as [|y a IH]; [destruct Hin|].
  pose proof (np_dot_self_nonneg a) as Hnn.
  unfold np_dot, np_sum in *. cbn [fmul fadd of_int exactR] in *. simpl.
  rewrite fold_Rplus_shift. destruct Hin as [-> | Hin].
  - nra.
  - specialize (IH Hin). nra.
Qed.

(** A variable that varies has an entry away from its mean. *)
Lemma centre_varies (a : list R) :
  varies a ->
  exists x, In x (map (fun v => (v - np_mean a)%np) a) /\ x <> 0%R.
Proof.
  intros (x & y & Hx & Hy & Hxy). cbn [fsub exactR].
  destruct (Req_dec_T x (np_mean a)) as [E | E].
  - exists (y - np_mean a)%R. split; [|lra].
    apply in_map_iff. now exists y.
  - exists (x - np_mean a)%R. split; [|lra].
    apply in_map_iff. now exists x.
Qed.

Lemma varies_length (a : list R) : varies a -> (2 <= length a)%nat.
Proof.
  intros (x & y & Hx & Hy & Hxy).
  destruct a as [|u [|v a]]; simpl in *; try lia; try tauto.
  destruct Hx as [<- | []], Hy as [<- | []]. congruence.
Qed.

Lemma np_clip_one : np_clip 1%R (of_int (-1)) (of_int 1) = 1%R.
Proof.
  unfold np_clip, np_minimum, np_maximum, np_isnan.
  cbn [fleb feqb of_int exactR]. decide_reals.
Qed.

Lemma corr_entry_sym (a b : list R) (k si sj lo hi : R) :
  np_clip (np_dot a b * k / si / sj)%R lo hi
  = np_clip (np_dot b a * k / sj / si)%R lo hi.
Proof. f_equal. rewrite (np_dot_comm a b). unfold Rdiv. ring. Qed.

Lemma corr_entry_diag (a : list R) (k : R) :
  (0 < np_dot a a * k)%R ->
  np_clip (np_dot a a * k / sqrt (np_dot a a * k)
           / sqrt (np_dot a a * k))%R (of_int (-1)) (of_int 1) = 1%R.
Proof.
  intros Hd. set (d := (np_dot a a * k)%R) in *.
  pose proof (sqrt_lt_R0 d Hd) as Hs.
  replace (d / sqrt d / sqrt d)%R with 1%R; [apply np_clip_one|].
  rewrite <- (sqrt_sqrt d) at 1 by lra. field. lra.
Qed.

(** The scale [1 / (N - 1)] of [np.cov] is positive from two entries on. *)
Lemma cov_scale_pos (n : nat) :
  (2 <= n)%nat ->
  (0 < 1 / IZR (if (Z.of_nat n - 1 <=? 0)%Z then 0 else Z.of_nat n - 1))%R.
Proof.
  intros Hn.
  replace (Z.of_nat n - 1 <=? 0)%Z with false
    by (symmetry; apply Z.leb_gt; lia).
  apply Rdiv_lt_0_compat; [lra|]. apply IZR_lt. lia.
Qed.

(** C8, in exact arithmetic.  For every series whose five variables have
    one length and all vary, the matrix of [correlation_analysis], computed
    over the reals, is symmetric and has exactly 1 on its diagonal. *)
Theorem correlation_matrix_symmetric_unit_diagonal (s : WeatherSeries R) :
  same_lengths s -> Forall varies (variables s) ->
  exists m, correlation_analysis s = Ok m
    /\ (forall i j, (i < 5)%nat -> (j < 5)%nat -> entry m i j = entry m j i)
    /\ (forall i, (i < 5)%nat -> entry m i i = 1%R).
Proof.
  intros Hs Hv. unfold correlation_analysis.
  rewrite column_stack_T_ok by assumption. cbn [bind].
  eexists. split; [reflexivity|].
  destruct (same_lengths_variables s Hs) as (Eh & Ep & Ew & Epr).
  unfold variables in Hv.
  repeat match goal with
         | Hf : Forall _ (_ :: _) |- _ => inversion Hf; subst; clear Hf
         end.
  assert (Hk := cov_scale_pos (length (temperature s))).
  match goal with
  | Hvar : varies (temperature s) |- _ =>
      specialize (Hk (varies_length _ Hvar))
  end.
  unfold np_corrcoef, np_cov, diag, variables.
  cbn [map zip_with seq nth length hd].
  cbn [fmul fdiv fsqrt of_int exactR] in *.
  set (k := (1 / IZR _)%R) in *.
  repeat match goal with
         | Hvar : varies ?a |- _ =>
             let P := fresh "P" in
             pose proof (np_dot_self_pos _ (centre_varies a Hvar)) as P;
             cbn [fsub exactR] in P; clear Hvar
         end.
  split.
  - intros i j Hi Hj. unfold entry.
    do 5 (destruct i as [|i];
          [do 5 (destruct j as [|j];
                 [cbn [nth]; first [reflexivity | apply corr_entry_sym]|]);
           lia|]).
    lia.
  - intros i Hi. unfold entry.
    do 5 (destruct i as [|i];
          [cbn [nth]; apply corr_entry_diag;
           apply Rmult_lt_0_compat; assumption|]).
    lia.
Qed.

(** C8 at a concrete series: the two changing days, over the reals. *)
Lemma correlation_matrix_witness :
  exists m, correlation_analysis changing_days_exact = Ok m
    /\ entry m 0 1 = entry m 1 0 /\ entry m 0 0 = 1%R.
Proof.
  destruct (correlation_matrix_symmetric_unit_diagonal changing_days_exact)
    as (m & Hm & Hsym & Hdiag).
  - split; [reflexivity|]. repeat constructor.
  - repeat constructor; eexists; eexists;
      (split; [left; reflexivity | split; [right; left; reflexivity|]]);
      simpl; lra.
  - exists m. split; [exact Hm|]. split; [apply Hsym | apply Hdiag]; lia.
Defined.

(** C8 as the spec states it fails, run in binary64, on series whose
    intermediate sums and products are all exact, so that only the square
    roots and the two divisions round.  On the two changing days every
    variance is 2 and the diagonal entry [(2 / sqrt 2) / sqrt 2] is
    [0.99999999999999989], below 1.  On the three days the entries (0,1)
    and (1,0), which divide by the two standard deviations in opposite
    orders, differ in their last bit. *)
Lemma correlation_matrix_binary64 :
  entry (corr_matrix changing_days) 0 0 = 0x1.fffffffffffffp-1%float
  /\ PrimFloat.ltb (entry (corr_matrix changing_days) 0 0) 1 = true
  /\ PrimFloat.ltb (entry (corr_matrix three_days) 1 0)
                   (entry (corr_matrix three_days) 0 1) = true.
Proof. repeat split; vm_compute; reflexivity. Qed.

(* ===================================================================== *)
(** * Further properties of the code *)
(* ===================================================================== *)

(** ** Runs: their lengths and their count *)

Lemma count_true_shift (l : list bool) : forall n,
  fold_left (fun n b => n + astype_int b) l n = n + count_true l.
Proof.
  unfold count_true. induction l as [|b l IH]; intros n; simpl.
  - lia.
  - rewrite IH, (IH (astype_int b)). lia.
Qed.

Lemma count_true_cons (b : bool) (l : list bool) :
  count_true (b :: l) = astype_int b + count_true l.
Proof. unfold count_true at 1. simpl. now rewrite count_true_shift. Qed.

Lemma count_true_nil : count_true [] = 0.
Proof. reflexivity. Qed.

Lemma count_true_nonneg (l : list bool) : 0 <= count_true l.
Proof.
  induction l as [|b l IH].
  - rewrite count_true_nil. lia.
  - rewrite count_true_cons. destruct b; cbn [astype_int]; lia.
Qed.

Lemma count_true_le_length (l : list bool) :
  count_true l <= Z.of_nat (length l).
Proof.
  induction l as [|b l IH].
  - rewrite count_true_nil. simpl. lia.
  - rewrite count_true_cons. cbn [length]. destruct b; cbn [astype_int]; lia.
Qed.

(** The sum of an integer array. *)
Lemma sum_shift (l : list Z) : forall n,
  fold_left Z.add l n = n + fold_left Z.add l 0.
Proof.
  induction l as [|x l IH]; intros n; simpl.
  - lia.
  - rewrite IH, (IH x). lia.
Qed.

Lemma spells_positive (l : list bool) : forall cur,
  0 <= cur -> Forall (fun len => 1 <= len) (spells cur l).
Proof.
  induction l as [|b l IH]; intros cur Hc.
  - cbn [spells]. destruct (cur >? 0) eqn:E; constructor; [|constructor].
    rewrite Z.gtb_ltb in E. apply Z.ltb_lt in E. lia.
  - destruct b; cbn [spells].
    + apply IH. lia.
    + apply Forall_app. split; [|apply IH; lia].
      destruct (cur >? 0) eqn:E; constructor; [|constructor].
      rewrite Z.gtb_ltb in E. apply Z.ltb_lt in E. lia.
Qed.

Lemma gtb_false (z : Z) : (z >? 0) = false -> z <= 0.
Proof. rewrite Z.gtb_ltb. apply Z.ltb_ge. Qed.

Lemma gtb_true (z : Z) : (z >? 0) = true -> 0 < z.
Proof. rewrite Z.gtb_ltb. apply Z.ltb_lt. Qed.

Lemma spells_total (l : list bool) : forall cur,
  0 <= cur -> fold_left Z.add (spells cur l) 0 = cur + count_true l.
Proof.
  induction l as [|b l IH]; intros cur Hc.
  - rewrite count_true_nil. cbn [spells].
    destruct (cur >? 0) eqn:E; simpl; [lia|]. apply gtb_false in E. lia.
  - rewrite count_true_cons. destruct b; cbn [spells astype_int].
    + rewrite IH by lia. lia.
    + destruct (cur >? 0) eqn:E; cbn [app].
      * cbn [fold_left]. rewrite sum_shift, IH by lia. lia.
      * rewrite IH by lia. apply gtb_false in E. lia.
Qed.

(** The number of runs is at most the number of false entries plus one. *)
Lemma spells_count (l : list bool) : forall cur,
  Z.of_nat (length (spells cur l))
  <= Z.of_nat (length l) - count_true l + 1.
Proof.
  induction l as [|b l IH]; intros cur.
  - rewrite count_true_nil. cbn [spells]. destruct (cur >? 0); simpl; lia.
  - rewrite count_true_cons. destruct b; cbn [spells length astype_int].
    + specialize (IH (cur + 1)). lia.
    + specialize (IH 0). rewrite length_app.
      destruct (cur >? 0); simpl length; lia.
Qed.

(** The lengths that the dry-spell loop accumulates are positive, add up
    to the number of true entries, and are at most one more than the
    false entries. *)
Lemma dry_spell_loop_facts (mask : list bool) :
  Forall (fun len => 1 <= len) (dry_spell_loop mask)
  /\ fold_left Z.add (dry_spell_loop mask) 0 = count_true mask
  /\ Z.of_nat (length (dry_spell_loop mask))
     <= Z.of_nat (length mask) - count_true mask + 1.
Proof.
  rewrite dry_spell_loop_spells.
  split; [apply spells_positive; lia|].
  split; [rewrite spells_total; lia | apply spells_count].
Qed.

(** X1.  On every mask the run lengths that [find_consecutive_events]
    computes (and that the dry-spell loop accumulates) are all at least 1,
    they add up to the number of true entries of the mask, and there are
    at most one more of them than there are false entries. *)
Theorem run_lengths_positive_and_total (mask : list bool) :
  exists ls,
    lengths mask = Ok ls
    /\ dry_spell_loop mask = ls
    /\ Forall (fun len => 1 <= len) ls
    /\ fold_left Z.add ls 0 = count_true mask
    /\ Z.of_nat (length ls) <= Z.of_nat (length mask) - count_true mask + 1.
Proof.
  exists (spells 0 mask). split; [apply run_lengths_agree_aux|].
  split; [apply dry_spell_loop_spells|].
  split; [apply spells_positive; lia|].
  split; [rewrite spells_total; lia | apply spells_count].
Qed.

Lemma count_at_least_bound (m : Z) (ls : list Z) :
  0 <= m -> Forall (fun len => 1 <= len) ls ->
  0 <= count_true (map (fun l => l >=? m) ls)
  /\ count_true (map (fun l => l >=? m) ls) * m <= fold_left Z.add ls 0
  /\ count_true (map (fun l => l >=? m) ls) <= Z.of_nat (length ls).
Proof.
  intros Hm Hls. induction Hls as [|x ls Hx Hls IH].
  - unfold count_true; simpl. lia.
  - cbn [map length]. rewrite count_true_cons. cbn [fold_left].
    rewrite sum_shift. destruct IH as (I0 & I1 & I2).
    destruct (x >=? m) eqn:E; cbn [astype_int].
    + rewrite Z.geb_leb in E. apply Z.leb_le in E. nia.
    + nia.
Qed.

Lemma count_at_least_antitone (m m' : Z) (ls : list Z) :
  m <= m' ->
  count_true (map (fun l => l >=? m') ls)
  <= count_true (map (fun l => l >=? m) ls).
Proof.
  intros Hm. induction ls as [|x ls IH]; [reflexivity|].
  cbn [map]. rewrite !count_true_cons.
  destruct (x >=? m') eqn:E'; destruct (x >=? m) eqn:E; cbn [astype_int];
    lia.
Qed.

(** The count of the runs of [min_length] entries or more. *)
Lemma find_consecutive_events_count (mask : list bool) (min_length : Z) :
  0 <= min_length ->
  exists c,
    find_consecutive_events mask min_length = Ok c
    /\ 0 <= c /\ c * min_length <= count_true mask.
Proof.
  intros Hm. rewrite find_consecutive_events_spells. eexists.
  split; [reflexivity|].
  destruct (dry_spell_loop_facts mask) as (Hpos & Htot & _).
  destruct (count_at_least_bound min_length _ Hm Hpos) as (H0 & H1 & _).
  split; [exact H0 | lia].
Qed.

(** X2.  [find_consecutive_events] never raises.  Its count is not
    negative, is at most the number of true entries divided by a
    non-negative [min_length] (the qualifying runs are disjoint and each
    has [min_length] entries or more), and does not grow when [min_length]
    does. *)
Theorem find_consecutive_events_bounds (mask : list bool) (min_length : Z) :
  exists c,
    find_consecutive_events mask min_length = Ok c
    /\ (0 <= min_length -> 0 <= c /\ c * min_length <= count_true mask)
    /\ forall m', min_length <= m' ->
         exists c', find_consecutive_events mask m' = Ok c' /\ c' <= c.
Proof.
  rewrite find_consecutive_events_spells. eexists. split; [reflexivity|].
  pose proof (spells_positive mask 0 ltac:(lia)) as Hpos.
  pose proof (spells_total mask 0 ltac:(lia)) as Htot.
  rewrite dry_spell_loop_spells. split.
  - intros Hm.
    destruct (count_at_least_bound min_length _ Hm Hpos) as (H0 & H1 & _).
    split; [exact H0 | lia].
  - intros m' Hm'. rewrite find_consecutive_events_spells.
    eexists. split; [reflexivity|]. rewrite dry_spell_loop_spells.
    now apply count_at_least_antitone.
Qed.

(** ** [extreme_weather_analysis]: what it returns *)

Section ExtremeReport.

Context {F : Type} `{Scalar F}.

Lemma argmax_from_range (a : list F) : forall mp max_ind i,
  0 <= max_ind < i ->
  0 <= argmax_from mp max_ind i a < i + Z.of_nat (length a).
Proof.
  induction a as [|x a IH]; intros mp max_ind i Hi; cbn [argmax_from length].
  - lia.
  - destruct (np_isnan mp); [lia|].
    destruct (negb (x <=? mp)%np).
    + specialize (IH x i (i + 1)). lia.
    + specialize (IH mp max_ind (i + 1)). lia.
Qed.

Lemma np_argmax_range (a : list F) :
  a <> [] ->
  exists day, np_argmax a = Ok day /\ 0 <= day < Z.of_nat (length a).
Proof.
  destruct a as [|x a]; [congruence|]. intros _. eexists.
  split; [reflexivity|].
  pose proof (argmax_from_range a x 0 1 ltac:(lia)). cbn [length]. lia.
Qed.

Lemma getitem_in_range {A : Type} (a : list A) (i : Z) :
  0 <= i < Z.of_nat (length a) ->
  exists x, getitem a i = Ok x /\ nth_error a (Z.to_nat i) = Some x.
Proof.
  intros Hi. unfold getitem.
  replace (norm_index a i) with (norm_index a (Z.of_nat (Z.to_nat i)))
    by (f_equal; lia).
  rewrite norm_index_in_range by lia. cbn [bind].
  destruct (nth_error a (Z.to_nat i)) as [x|] eqn:E.
  - now exists x.
  - apply nth_error_None in E. lia.
Qed.

Variable np_percentile : list F -> Z -> result F.

(** The report of [extreme_weather_analysis], field by field. *)
Lemma extreme_weather_analysis_value (s : WeatherSeries F)
  (hot cold rain wind : F) :
  same_lengths s -> temperature s <> [] ->
  np_percentile (temperature s) 95 = Ok hot ->
  np_percentile (temperature s) 5 = Ok cold ->
  np_percentile (rainy s) 90 = Ok rain ->
  np_percentile (wind_speed s) 95 = Ok wind ->
  exists day d t p w c,
    most_extreme_day s = Ok day
    /\ 0 <= day < Z.of_nat (length (temperature s))
    /\ nth_error (dates s) (Z.to_nat day) = Some d
    /\ nth_error (temperature s) (Z.to_nat day) = Some t
    /\ nth_error (precipitation s) (Z.to_nat day) = Some p
    /\ nth_error (wind_speed s) (Z.to_nat day) = Some w
    /\ 0 <= c
    /\ 3 * c <= count_true (map (fun t => (t >? hot)%np) (temperature s))
    /\ extreme_weather_analysis np_percentile s
       = Ok {| temp_hot := hot; temp_cold := cold;
               heavy_rain := rain; high_wind := wind;
               hot_days :=
                 count_true (map (fun t => (t >? hot)%np) (temperature s));
               cold_days :=
                 count_true (map (fun t => (t <? cold)%np) (temperature s));
               heavy_rain_days :=
                 count_true (map (fun p => (p >? rain)%np) (precipitation s));
               high_wind_days :=
                 count_true (map (fun w => (w >? wind)%np) (wind_speed s));
               heat_waves := c;
               extreme_date := d; extreme_temperature := t;
               extreme_precipitation := p; extreme_wind_speed := w |}.
Proof.
  intros Hs Hne Hhot Hcold Hrain Hwind.
  destruct Hs as [Hd Hv].
  destruct (same_lengths_variables s (conj Hd Hv)) as (_ & Ep & Ew & _).
  destruct (extreme_score_ok s (conj Hd Hv)) as (sc & Hsc & Lsc).
  destruct (np_argmax_range sc) as (day & Hday & Rday).
  { destruct sc; [|discriminate]. destruct (temperature s); [congruence|].
    discriminate. }
  rewrite Lsc in Rday.
  assert (Hmost : most_extreme_day s = Ok day)
    by (unfold most_extreme_day; now rewrite Hsc).
  destruct (getitem_in_range (dates s) day) as (d & Gd & Nd); [lia|].
  destruct (getitem_in_range (temperature s) day) as (t & Gt & Nt); [lia|].
  destruct (getitem_in_range (precipitation s) day) as (p & Gp & Np); [lia|].
  destruct (getitem_in_range (wind_speed s) day) as (w & Gw & Nw); [lia|].
  set (mask := map (fun t => (t >? hot)%np) (temperature s)).
  destruct (find_consecutive_events_count mask 3 ltac:(lia))
    as (c & Hc & Hc0 & Hc3).
  exists day, d, t, p, w, c.
  unfold extreme_weather_analysis, heavy_rain_threshold.
  rewrite Hhot, Hcold, Hrain, Hwind. cbn [bind]. fold mask.
  rewrite Hc, Hmost. cbn [bind]. rewrite Gd, Gt, Gp, Gw. cbn [bind].
  repeat match goal with |- _ /\ _ => split end;
    try assumption; try reflexivity; lia.
Qed.

(** X3.  When the six arrays have one length, the series is not empty and
    the four calls of [np.percentile] return, [extreme_weather_analysis]
    returns too: the index of the most extreme day is within the arrays,
    the date, temperature, precipitation and wind speed reported for it are
    the entries at that one index, the thresholds are the percentiles, and
    the counts satisfy [3 * heat_waves <= hot_days <= N]: a heat wave
    consists of three hot days or more and heat waves do not overlap. *)
Theorem extreme_weather_analysis_returns (s : WeatherSeries F)
  (hot cold rain wind : F) :
  same_lengths s -> temperature s <> [] ->
  np_percentile (temperature s) 95 = Ok hot ->
  np_percentile (temperature s) 5 = Ok cold ->
  np_percentile (rainy s) 90 = Ok rain ->
  np_percentile (wind_speed s) 95 = Ok wind ->
  exists r day,
    extreme_weather_analysis np_percentile s = Ok r
    /\ most_extreme_day s = Ok day
    /\ 0 <= day < Z.of_nat (length (temperature s))
    /\ nth_error (dates s) (Z.to_nat day) = Some (extreme_date r)
    /\ nth_error (temperature s) (Z.to_nat day) = Some (extreme_temperature r)
    /\ nth_error (precipitation s) (Z.to_nat day)
       = Some (extreme_precipitation r)
    /\ nth_error (wind_speed s) (Z.to_nat day) = Some (extreme_wind_speed r)
    /\ (temp_hot r, temp_cold r, heavy_rain r, high_wind r)
       = (hot, cold, rain, wind)
    /\ 0 <= heat_waves r
    /\ 3 * heat_waves r <= hot_days r
    /\ hot_days r <= Z.of_nat (length (temperature s)).
Proof.
  intros Hs Hne Hhot Hcold Hrain Hwind.
  destruct (extreme_weather_analysis_value s hot cold rain wind
              Hs Hne Hhot Hcold Hrain Hwind)
    as (day & d & t & p & w & c & Hmost & Rday & Nd & Nt & Np & Nw
        & Hc0 & Hc3 & Hr).
  eexists. exists day. split; [exact Hr|].
  cbn [extreme_date extreme_temperature extreme_precipitation
       extreme_wind_speed temp_hot temp_cold heavy_rain high_wind
       heat_waves hot_days].
  pose proof (count_true_le_length
                (map (fun t => (t >? hot)%np) (temperature s))) as L.
  rewrite length_map in L.
  repeat match goal with |- _ /\ _ => split end;
    try assumption; try reflexivity; lia.
Qed.

End ExtremeReport.

(** X3 at a concrete series: the three changing days, with a percentile
    that returns the first entry of its array. *)
Lemma extreme_weather_analysis_witness :
  exists r day,
    extreme_weather_analysis (fun a _ => Ok (hd 0%float a)) three_days = Ok r
    /\ most_extreme_day three_days = Ok day
    /\ 3 * heat_waves r <= hot_days r.
Proof.
  destruct (extreme_weather_analysis_returns (fun a _ => Ok (hd 0%float a))
              three_days 20%float 20%float 3%float 8%float)
    as (r & day & Hr & Hday & _ & _ & _ & _ & _ & _ & _ & H3 & _);
    try reflexivity.
  - split; [reflexivity|]. repeat constructor.
  - discriminate.
  - exists r, day. auto.
Defined.

(** ** [precipitation_patterns]: the dry-spell section *)

Lemma count_true_In (l : list bool) : 1 <= count_true l <-> In true l.
Proof.
  induction l as [|b l IH].
  - rewrite count_true_nil. simpl. split; [lia | tauto].
  - rewrite count_true_cons. pose proof (count_true_nonneg l).
    destruct b; cbn [astype_int In].
    + split; [now left | lia].
    + split; [intros; right; apply IH; lia | intros [E | E]; [discriminate|]].
      apply IH in E. lia.
Qed.

Lemma sum_positive (ls : list Z) :
  Forall (fun len => 1 <= len) ls ->
  Z.of_nat (length ls) <= fold_left Z.add ls 0
  /\ forall x, In x ls -> x <= fold_left Z.add ls 0.
Proof.
  induction 1 as [|y ls Hy Hls IH]; cbn [length fold_left In].
  - split; [simpl; lia | tauto].
  - rewrite sum_shift. destruct IH as [I1 I2]. split; [lia|].
    intros x [<- | Hx]; [lia | specialize (I2 x Hx); lia].
Qed.

(** There is a dry spell exactly when the mask has a true entry. *)
Lemma dry_spell_loop_nonempty (mask : list bool) :
  dry_spell_loop mask <> [] <-> In true mask.
Proof.
  destruct (dry_spell_loop_facts mask) as (Hpos & Hsum & _).
  revert Hpos Hsum. generalize (dry_spell_loop mask). intros ls Hpos Hsum.
  rewrite <- count_true_In, <- Hsum.
  destruct (sum_positive ls Hpos) as [Hlen _]. split.
  - intros Hne. destruct ls; [congruence | simpl length in Hlen; lia].
  - intros Hs E. subst ls. simpl in Hs. lia.
Qed.

Lemma fold_max_spec (ls : list Z) : forall acc,
  (forall x, In x ls -> x <= fold_left Z.max ls acc)
  /\ acc <= fold_left Z.max ls acc
  /\ (fold_left Z.max ls acc = acc \/ In (fold_left Z.max ls acc) ls).
Proof.
  induction ls as [|y ls IH]; intros acc; cbn [fold_left In].
  - repeat split; [tauto | lia | now left].
  - destruct (IH (Z.max acc y)) as (I1 & I2 & I3). split; [|split].
    + intros x [<- | Hx]; [lia | now apply I1].
    + lia.
    + destruct I3 as [E | Hin]; [|now right; right].
      rewrite E. destruct (Z.max_spec acc y) as [[_ ->] | [_ ->]];
        [right; now left | now left].
Qed.

Lemma fold_min_spec (ls : list Z) : forall acc,
  (forall x, In x ls -> fold_left Z.min ls acc <= x)
  /\ fold_left Z.min ls acc <= acc
  /\ (fold_left Z.min ls acc = acc \/ In (fold_left Z.min ls acc) ls).
Proof.
  induction ls as [|y ls IH]; intros acc; cbn [fold_left In].
  - repeat split; [tauto | lia | now left].
  - destruct (IH (Z.min acc y)) as (I1 & I2 & I3). split; [|split].
    + intros x [<- | Hx]; [lia | now apply I1].
    + lia.
    + destruct I3 as [E | Hin]; [|now right; right].
      rewrite E. destruct (Z.min_spec acc y) as [[_ ->] | [_ ->]];
        [now left | right; now left].
Qed.

Section DrySpells.

Context {F : Type} `{Scalar F}.

Lemma no_rain_length (s : WeatherSeries F) :
  length (no_rain s) = length (precipitation s).
Proof. unfold no_rain. apply length_map. Qed.

(** X4.  The report of [precipitation_patterns] has its dry-spell section
    exactly when some day has a precipitation equal to 0; when no day has,
    the report stops after the five lines of the summary.  The number of
    spells it prints is at most the number of days that are not dry, plus
    one. *)
Theorem dry_spell_section_iff (days : Z) (s : WeatherSeries F) :
  (In (Text "Dry Spell Analysis:") (precipitation_patterns days s)
   <-> exists p, In p (precipitation s) /\ (p ==? of_int 0)%np = true)
  /\ ((forall p, In p (precipitation s) -> (p ==? of_int 0)%np = false) ->
      length (precipitation_patterns days s) = 5%nat)
  /\ forall n, In (IntField "Number of dry spells" n)
                  (precipitation_patterns days s) ->
               n <= Z.of_nat (length (precipitation s))
                    - count_true (no_rain s) + 1.
Proof.
  assert (Hmask : In true (no_rain s)
                  <-> exists p, In p (precipitation s)
                                /\ (p ==? of_int 0)%np = true).
  { unfold no_rain. rewrite in_map_iff. split.
    - intros (p & Hp & Hin). now exists p.
    - intros (p & Hin & Hp). now exists p. }
  pose proof (dry_spell_loop_nonempty (no_rain s)) as Hne.
  unfold precipitation_patterns.
  destruct (dry_spell_loop (no_rain s)) as [|x ls] eqn:E; cbn [length Nat.ltb Nat.leb].
  - split; [|split].
    + rewrite <- Hmask, <- Hne. split.
      * intros Hin. apply in_app_or in Hin. simpl in Hin.
        repeat destruct Hin as [Hin | Hin]; try discriminate; tauto.
      * intros C. now elim C.
    + reflexivity.
    + intros n Hin. apply in_app_or in Hin. simpl in Hin.
      repeat destruct Hin as [Hin | Hin]; try discriminate; tauto.
  - split; [|split].
    + rewrite <- Hmask, <- Hne. split; [intros _; discriminate|].
      intros _. apply in_or_app. right. now left.
    + intros Hdry. exfalso.
      assert (Hin : In true (no_rain s)) by (apply Hne; discriminate).
      apply Hmask in Hin. destruct Hin as (p & Hp & Hz).
      rewrite (Hdry p Hp) in Hz. discriminate.
    + intros n Hin. apply in_app_or in Hin. simpl in Hin.
      repeat destruct Hin as [Hin | Hin]; try discriminate; try tauto.
      injection Hin as <-.
      destruct (dry_spell_loop_facts (no_rain s)) as (_ & _ & Hcount).
      rewrite E, no_rain_length in Hcount.
      exact Hcount.
Qed.

(** X5.  Either there is no dry spell, or the longest and the shortest
    dry spell that the report prints are lengths of spells that occur,
    they bound all the others, the shortest is at least one day and the
    longest at most the number of days. *)
Theorem dry_spell_extremes (days : Z) (s : WeatherSeries F) :
  dry_spell_loop (no_rain s) = []
  \/ exists longest shortest,
       In (IntField "Longest dry spell" longest) (precipitation_patterns days s)
       /\ In (IntField "Shortest dry spell" shortest)
             (precipitation_patterns days s)
       /\ In longest (dry_spell_loop (no_rain s))
       /\ In shortest (dry_spell_loop (no_rain s))
       /\ (forall x, In x (dry_spell_loop (no_rain s)) ->
                     shortest <= x <= longest)
       /\ 1 <= shortest
       /\ longest <= Z.of_nat (length (precipitation s)).
Proof.
  destruct (dry_spell_loop_facts (no_rain s)) as (Hpos & Hsum & _).
  unfold precipitation_patterns. revert Hpos Hsum.
  generalize (dry_spell_loop (no_rain s)). intros ls Hpos Hsum.
  destruct ls as [|x ls]; [now left | right].
  cbn [length Nat.ltb Nat.leb hd tl].
  destruct (fold_max_spec (x :: ls) 0) as (M1 & M2 & M3).
  destruct (fold_min_spec ls x) as (N1 & N2 & N3).
  assert (Hx : 1 <= x) by now inversion Hpos.
  assert (HinL : In (fold_left Z.max (x :: ls) 0) (x :: ls)).
  { destruct M3 as [E | Hin]; [|exact Hin]. specialize (M1 x (or_introl eq_refl)).
    lia. }
  assert (HinS : In (fold_left Z.min ls x) (x :: ls)).
  { destruct N3 as [-> | Hin]; [now left | now right]. }
  exists (fold_left Z.max (x :: ls) 0), (fold_left Z.min ls x).
  split; [apply in_or_app; right; simpl; tauto|].
  split; [apply in_or_app; right; simpl; tauto|].
  split; [exact HinL|]. split; [exact HinS|]. split; [|split].
  - intros y Hy. split; [|now apply M1].
    destruct Hy as [<- | Hy]; [exact N2 | now apply N1].
  - eapply Forall_forall in Hpos; [|exact HinS]. exact Hpos.
  - destruct (sum_positive (x :: ls) Hpos) as [_ Hle].
    specialize (Hle _ HinL). rewrite Hsum in Hle.
    pose proof (count_true_le_length (no_rain s)) as L.
    rewrite no_rain_length in L. lia.
Qed.

End DrySpells.

(** X6.  Over the reals, when no precipitation is negative, every day is
    either a rainy day or a day of a dry spell: the number of rainy days
    and the lengths of the dry spells add up to the number of days. *)
Theorem rainy_days_and_dry_spells (s : WeatherSeries R) :
  (forall p, In p (precipitation s) -> (0 <= p)%R) ->
  count_true (map (fun p => (p >? of_int 0)%np) (precipitation s))
  + fold_left Z.add (dry_spell_loop (no_rain s)) 0
  = Z.of_nat (length (precipitation s)).
Proof.
  intros Hp.
  destruct (dry_spell_loop_facts (no_rain s)) as (_ & -> & _).
  unfold no_rain. induction (precipitation s) as [|p l IH].
  - reflexivity.
  - cbn [map length]. rewrite !count_true_cons, Nat2Z.inj_succ.
    specialize (IH (fun q Hq => Hp q (or_intror Hq))).
    specialize (Hp p (or_introl eq_refl)).
    revert IH.
    generalize (count_true (map (fun q : R => (q >? of_int 0)%np) l)),
               (count_true (map (fun q : R => (q ==? of_int 0)%np) l)).
    intros a b IH.
    cbn [fltb feqb of_int exactR]. unfold Rltb, Reqb.
    destruct (Rlt_dec 0 p), (Req_dec_T p 0); cbn [astype_int]; try lra; lia.
Qed.

(** X6 at a concrete series: one dry and one rainy day. *)
Lemma rainy_days_and_dry_spells_witness :
  count_true (map (fun p => (p >? of_int 0)%np)
                (precipitation changing_days_exact))
  + fold_left Z.add (dry_spell_loop (no_rain changing_days_exact)) 0 = 2.
Proof.
  apply (rainy_days_and_dry_spells changing_days_exact).
  intros p [<- | [<- | []]]; lra.
Defined.

(** ** The generator: edge cases and what it computes *)

Section GeneratorValue.

Context {F : Type} `{Scalar F} `{Trig F}.

(** For a day count within the calendar the generator returns, and what
    it returns is the pointwise expression [generated]. *)
Lemma generate_weather_data_generated (days : Z) (rng : Draws F) :
  0 <= days <= 2914269 ->
  generate_weather_data days rng = Ok (generated days rng).
Proof.
  intros Hd. unfold generate_weather_data.
  rewrite make_dates_ok by lia. cbn [bind].
  rewrite !np_random_ok by lia. cbn [bind].
  rewrite ar_loop_ok by (rewrite length_map, length_seq; lia). cbn [bind].
  unfold range. rewrite Z.sub_0_r.
  repeat (rewrite np_binop_same_length by solve_len; cbn [bind]).
  reflexivity.
Qed.

(** X7.  The edge cases of the day count.  A negative count raises
    [ValueError] (the date list is empty, then the first sampler refuses a
    negative size); a count of 0 returns the series of six empty arrays; a
    count above 2914269 raises [OverflowError]. *)
Theorem generate_weather_data_edge_cases (rng : Draws F) :
  (forall days, days < 0 ->
     generate_weather_data days rng = Raise ValueError)
  /\ generate_weather_data 0 rng
     = Ok {| dates := []; temperature := []; humidity := [];
             precipitation := []; wind_speed := []; pressure := [] |}
  /\ (forall days, 2914269 < days ->
        generate_weather_data days rng = Raise OverflowError).
Proof.
  split; [|split].
  - intros days Hd. unfold generate_weather_data.
    rewrite make_dates_ok by lia. cbn [bind]. unfold np_random.
    now replace (days <? 0) with true by (symmetry; apply Z.ltb_lt; lia).
  - rewrite generate_weather_data_generated by lia. reflexivity.
  - intros days Hd. unfold generate_weather_data.
    now rewrite make_dates_overflow by lia.
Qed.

End GeneratorValue.

Lemma zip_with_Forall_both {A B C : Type} (P : A -> Prop) (Q : B -> Prop)
  (S : C -> Prop) (op : A -> B -> C) (a : list A) :
  forall b, Forall P a -> Forall Q b ->
            (forall x y, P x -> Q y -> S (op x y)) ->
            Forall S (zip_with op a b).
Proof.
  induction a as [|x a IH]; intros [|y b] Ha Hb Hop; simpl; constructor;
    inversion Ha; inversion Hb; subst; auto.
Qed.

Lemma Forall_map_seq {A : Type} (P : A -> Prop) (f : nat -> A) (n : nat) :
  (forall k, P (f k)) -> Forall P (map f (seq 0 n)).
Proof.
  intros Hf. apply Forall_forall. intros x Hx. apply in_map_iff in Hx.
  destruct Hx as (k & <- & _). apply Hf.
Qed.

(** *** The autoregressive noise stays bounded *)

Lemma scan_from_bounded (B : R) (noise : list R) :
  Forall (fun n => - B <= n <= B)%R noise ->
  forall carry, (- (10 / 7 * B) <= carry <= 10 / 7 * B)%R ->
  Forall (fun v => - (10 / 7 * B) <= v <= 10 / 7 * B)%R
         (scan_from carry noise).
Proof.
  induction 1 as [|n t Hn Ht IH]; intros carry Hc; cbn [scan_from].
  - constructor.
  - assert (Hv : (- (10 / 7 * B) <= n + 3 / 10 * carry <= 10 / 7 * B)%R) by lra.
    constructor; [exact Hv | apply IH; exact Hv].
Qed.

(** X8.  The autoregressive loop is stable: when every draw of the noise
    lies in [[-B, B]], the loop returns and every entry of the variation it
    leaves lies in [[-10B/7, 10B/7]], whatever the length. *)
Theorem ar_loop_bounded (B : R) (noise : list R) :
  Forall (fun n => - B <= n <= B)%R noise ->
  exists variation,
    ar_loop (Z.of_nat (length noise)) noise = Ok variation
    /\ Forall (fun v => - (10 / 7 * B) <= v <= 10 / 7 * B)%R variation.
Proof.
  intros Hn. exists (ar1_scan noise). split; [apply ar_loop_scan|].
  destruct Hn as [|n t Hn Ht]; cbn [ar1_scan]; constructor.
  - lra.
  - apply scan_from_bounded; [exact Ht | lra].
Qed.

(** X8 at a concrete noise. *)
Lemma ar_loop_bounded_witness :
  exists variation,
    ar_loop 3 [1; -1; 1]%R = Ok variation
    /\ Forall (fun v => - (10 / 7 * 1) <= v <= 10 / 7 * 1)%R variation.
Proof.
  apply (ar_loop_bounded 1 [1; -1; 1]%R).
  repeat constructor; lra.
Defined.

(** *** Temperature and rain in a generated series *)

Lemma seasonal_temp_bounds (x : R) :
  (5 <= of_int 20 + of_int 15 * np_sin x <= 35)%R.
Proof.
  cbn [of_int exactR np_sin trigR]. pose proof (SIN_bound x). lra.
Qed.

(** X9.  In a generated series the temperature is the seasonal curve,
    which stays within 20 plus or minus 15, plus the autoregressive
    variation: when every N(0,5) draw lies in [[-B, B]], every temperature
    lies in [[5 - 10B/7, 35 + 10B/7]]. *)
Theorem generated_temperature_bounds (days : Z) (rng : Draws R) (B : R) :
  0 <= days <= 2914269 ->
  (forall k, (- B <= normal_0_5 rng k <= B)%R) ->
  exists s,
    generate_weather_data days rng = Ok s
    /\ Forall (fun t => 5 - 10 / 7 * B <= t <= 35 + 10 / 7 * B)%R
              (temperature s).
Proof.
  intros Hd Hn. exists (generated days rng).
  split; [now apply generate_weather_data_generated|].
  unfold generated. cbn [temperature]. cbv zeta.
  apply zip_with_Forall_both
    with (P := fun x => (5 <= x <= 35)%R)
         (Q := fun v => (- (10 / 7 * B) <= v <= 10 / 7 * B)%R).
  - apply Forall_forall. intros x Hx. apply in_map_iff in Hx.
    destruct Hx as (d & <- & _). apply seasonal_temp_bounds.
  - assert (Hscan : forall noise,
               Forall (fun n => - B <= n <= B)%R noise ->
               Forall (fun v => - (10 / 7 * B) <= v <= 10 / 7 * B)%R
                      (ar1_scan noise)).
    { intros noise [|n t Hn0 Ht]; cbn [ar1_scan]; constructor;
        [lra | apply scan_from_bounded; [exact Ht | lra]]. }
    apply Hscan. now apply Forall_map_seq.
  - intros x y Hx Hy. cbn [fadd exactR]. lra.
Qed.

(** X9 at a concrete input: two calm days. *)
Lemma generated_temperature_witness :
  exists s,
    generate_weather_data 2 calm = Ok s
    /\ Forall (fun t => 5 - 10 / 7 * 0 <= t <= 35 + 10 / 7 * 0)%R
              (temperature s).
Proof.
  apply (generated_temperature_bounds 2 calm 0).
  - lia.
  - intros k. simpl. lra.
Defined.

Lemma zip_with_never {A B : Type} (op : A -> B -> bool) (a : list A) :
  forall b, length a = length b ->
  (forall x y, In x a -> In y b -> op x y = false) ->
  zip_with op a b = repeat false (length a).
Proof.
  induction a as [|x a IH]; intros [|y b] E Hop; simpl in *;
    try discriminate; auto.
  rewrite Hop by auto. f_equal. apply IH; [lia | auto].
Qed.

Lemma zip_with_unselected {A : Type} (zero : A) (n : nat) : forall a,
  length a = n ->
  zip_with (fun (e : bool) x => if e then x else zero) (repeat false n) a
  = repeat zero n.
Proof.
  induction n as [|n IH]; intros [|x a] E; simpl in *; try discriminate; auto.
  f_equal. apply IH. lia.
Qed.

(** X10.  A rain event needs a uniform draw below [0.3 * p] with
    [p <= 1]: when every uniform draw is at least 0.3 it never rains, the
    generated precipitation is 0 on every day, and so the selection of the
    rainy days, on which the heavy-rain percentile and the mean per rainy
    day are computed, is empty. *)
Theorem generated_without_rain (days : Z) (rng : Draws R) :
  0 <= days <= 2914269 ->
  (forall k, (3 / 10 <= random_01 rng k)%R) ->
  exists s,
    generate_weather_data days rng = Ok s
    /\ precipitation s = repeat 0%R (Z.to_nat days)
    /\ rainy s = [].
Proof.
  intros Hd Hu. exists (generated days rng).
  split; [now apply generate_weather_data_generated|].
  assert (Hp : precipitation (generated days rng) = repeat 0%R (Z.to_nat days)).
  { unfold generated. cbn [precipitation]. cbv zeta.
    rewrite zip_with_never.
    - rewrite length_map, length_seq.
      apply zip_with_unselected. now rewrite length_map, length_seq.
    - solve_len.
    - intros u p Hin Hp. apply in_map_iff in Hin. destruct Hin as (k & <- & _).
      apply in_map_iff in Hp. destruct Hp as (q & <- & Hq).
      apply in_map_iff in Hq. destruct Hq as (h & <- & _).
      pose proof (np_clip_bounds h 0 1 ltac:(lra)) as Hc.
      cbn [of_int exactR] in *. specialize (Hu k).
      cbn [fltb fmul exactR]. unfold lit. cbn [fdiv of_int exactR].
      unfold Rltb. destruct (Rlt_dec _ _); [lra | reflexivity]. }
  split; [exact Hp|]. unfold rainy. rewrite Hp.
  apply select_none. intros x Hx. apply repeat_spec in Hx. subst x.
  cbn [fltb of_int exactR]. unfold Rltb. destruct (Rlt_dec 0 0); [lra | reflexivity].
Qed.

(** X10 at a concrete input: two days under the rainless source. *)
Lemma generated_without_rain_witness :
  exists s,
    generate_weather_data 2 rainless = Ok s
    /\ precipitation s = [0; 0]%R
    /\ rainy s = [].
Proof.
  apply (generated_without_rain 2 rainless).
  - lia.
  - intros k. simpl. lra.
Defined.

(** ** [moving_averages]: the smoothed series *)

Section MovingAverageValues.

Context {F : Type} `{Scalar F}.

Lemma kernel_repeat (w : Z) :
  map (fun o => (o / of_int w)%np) (np_ones w)
  = repeat (of_int 1 / of_int w)%np (Z.to_nat w).
Proof. unfold np_ones. now rewrite map_repeat. Qed.

Lemma firstn_of_repeat {A : Type} (c : A) (n : nat) : forall m,
  (n <= m)%nat -> firstn n (repeat c m) = repeat c n.
Proof.
  induction n as [|n IH]; intros [|m] Hm; simpl; try reflexivity; try lia.
  f_equal. apply IH. lia.
Qed.

Lemma windows_repeat (c : F) (n : nat) : forall m,
  (1 <= n)%nat ->
  windows n (repeat c m) = repeat (repeat c n) (m + 1 - n).
Proof.
  induction m as [|m IH]; intros Hn.
  - replace (0 + 1 - n)%nat with 0%nat by lia. reflexivity.
  - cbn [repeat windows]. change (c :: repeat c m) with (repeat c (S m)).
    rewrite repeat_length. destruct (Nat.leb n (S m)) eqn:E.
    + apply Nat.leb_le in E. rewrite IH by assumption.
      replace (S m + 1 - n)%nat with (S (m + 1 - n)) by lia.
      cbn [repeat]. f_equal.
      now apply (firstn_of_repeat c n (S m)).
    + apply Nat.leb_gt in E. now replace (S m + 1 - n)%nat with 0%nat by lia.
Qed.

(** X11.  On a series shorter than the window the "moving average" is a
    constant array: [np.convolve] slides the series over the kernel, so
    each of the [w - N + 1] entries is the same product of the whole
    series with [N] copies of [1/w]. *)
Theorem moving_average_short_is_constant (w : Z) (temps : list F) :
  temps <> [] -> Z.of_nat (length temps) < w ->
  moving_average w temps
  = Ok (repeat (np_dot (repeat (of_int 1 / of_int w)%np (length temps))
                       (rev temps))
               (Z.to_nat w - length temps + 1)).
Proof.
  intros Hne Hw. unfold moving_average, np_convolve_valid.
  rewrite kernel_repeat, repeat_length.
  replace (Nat.ltb (length temps) (Z.to_nat w)) with true
    by (symmetry; apply Nat.ltb_lt; lia).
  rewrite repeat_length.
  replace (Nat.eqb (Z.to_nat w) 0) with false
    by (symmetry; apply Nat.eqb_neq; lia).
  replace (Nat.eqb (length temps) 0) with false
    by (symmetry; apply Nat.eqb_neq; destruct temps; [congruence | simpl; lia]).
  f_equal. rewrite windows_repeat
    by (destruct temps; [congruence | simpl; lia]).
  rewrite map_repeat. f_equal. lia.
Qed.

(** [np.ptp] returns on every array that is not empty. *)
Lemma np_ptp_ok (a : list F) : a <> [] -> exists r, np_ptp a = Ok r.
Proof. destruct a; [congruence|]. intros _. eexists. reflexivity. Qed.

Lemma moving_average_ok (w : Z) (temps : list F) :
  1 <= w -> temps <> [] ->
  exists out, moving_average w temps = Ok out /\ out <> [].
Proof.
  intros Hw Hne. unfold moving_average.
  pose proof (np_convolve_valid_length temps
                (map (fun o => (o / of_int w)%np) (np_ones w))) as L.
  destruct (np_convolve_valid temps _) as [out|e].
  - exists out. split; [reflexivity|]. destruct L as (_ & _ & Hlen).
    intros ->. simpl in Hlen. lia.
  - destruct L as ([-> | Hk] & _); [congruence|]. exfalso.
    apply (f_equal (@length F)) in Hk.
    rewrite length_map, np_ones_length in Hk. simpl in Hk. lia.
Qed.

Variable np_polyfit : list F -> list F -> result (F * F).

(** X12.  [moving_averages] on an empty series raises [ValueError] (from
    [np.convolve], before anything is fitted); on a series that is not
    empty it raises only what [np.polyfit] raises, and returns whenever
    [np.polyfit] does, with the fitted slope and intercept in its
    report. *)
Theorem moving_averages_edge_cases (s : WeatherSeries F) :
  (temperature s = [] -> moving_averages np_polyfit s = Raise ValueError)
  /\ (temperature s <> [] ->
      match np_polyfit
              (map of_int (range 0 (Z.of_nat (length (temperature s)))))
              (temperature s) with
      | Ok (sl, ic) =>
          exists r, moving_averages np_polyfit s = Ok r
                    /\ slope r = sl /\ intercept r = ic
                    /\ temp_7day r <> [] /\ temp_30day r <> []
      | Raise e => moving_averages np_polyfit s = Raise e
      end).
Proof.
  split.
  - intros E. unfold moving_averages. rewrite E. reflexivity.
  - intros Hne. unfold moving_averages.
    destruct (moving_average_ok 7 (temperature s)) as (o7 & -> & H7);
      [lia | assumption |].
    destruct (moving_average_ok 30 (temperature s)) as (o30 & -> & H30);
      [lia | assumption |].
    cbn [bind].
    destruct (np_ptp_ok _ Hne) as (r0 & ->).
    destruct (np_ptp_ok _ H7) as (r7 & ->).
    destruct (np_ptp_ok _ H30) as (r30 & ->). cbn [bind].
    destruct (np_polyfit _ _) as [[sl ic]|e]; cbn [bind]; [|reflexivity].
    eexists. split; [reflexivity|]. cbn [slope intercept temp_7day temp_30day].
    auto.
Qed.

End MovingAverageValues.

(** ** The trend label of the report *)




(** X11 at a concrete series: three days and the 7-day window. *)
Lemma moving_average_short_witness :
  moving_average 7 [1; 2; 3]%float
  = Ok (repeat (np_dot (repeat (of_int 1 / of_int 7)%np 3) [3; 2; 1]%float) 5).
Proof.
  apply (moving_average_short_is_constant 7 [1; 2; 3]%float).
  - discriminate.
  - simpl. lia.
Defined.

(** *** Smoothing over the reals *)

Lemma fold_np_maximum_spec (l : list R) : forall acc,
  (acc <= fold_left np_maximum l acc)%R
  /\ (forall x, In x l -> (x <= fold_left np_maximum l acc)%R)
  /\ (fold_left np_maximum l acc = acc \/ In (fold_left np_maximum l acc) l).
Proof.
  induction l as [|y l IH]; intros acc; cbn [fold_left In].
  - split; [lra | split; [tauto | now left]].
  - destruct (IH (np_maximum acc y)) as (I1 & I2 & I3).
    assert (Hm : (acc <= np_maximum acc y /\ y <= np_maximum acc y)%R
                 /\ (np_maximum acc y = acc \/ np_maximum acc y = y)).
    { unfold np_maximum, np_isnan. cbn [fleb feqb exactR].
      unfold Rleb, Reqb. destruct (Rle_dec y acc), (Req_dec_T acc acc);
        cbn [orb negb]; try congruence; split; auto; lra. }
    destruct Hm as [[M1 M2] M3]. split; [lra|]. split.
    + intros x [<- | Hx]; [lra | now apply I2].
    + destruct I3 as [E | Hin]; [|now right; right].
      rewrite E. destruct M3 as [-> | ->]; [now left | right; now left].
Qed.

Lemma fold_np_minimum_spec (l : list R) : forall acc,
  (fold_left np_minimum l acc <= acc)%R
  /\ (forall x, In x l -> (fold_left np_minimum l acc <= x)%R)
  /\ (fold_left np_minimum l acc = acc \/ In (fold_left np_minimum l acc) l).
Proof.
  induction l as [|y l IH]; intros acc; cbn [fold_left In].
  - split; [lra | split; [tauto | now left]].
  - destruct (IH (np_minimum acc y)) as (I1 & I2 & I3).
    assert (Hm : (np_minimum acc y <= acc /\ np_minimum acc y <= y)%R
                 /\ (np_minimum acc y = acc \/ np_minimum acc y = y)).
    { unfold np_minimum, np_isnan. cbn [fleb feqb exactR].
      unfold Rleb, Reqb. destruct (Rle_dec acc y), (Req_dec_T acc acc);
        cbn [orb negb]; try congruence; split; auto; lra. }
    destruct Hm as [[M1 M2] M3]. split; [lra|]. split.
    + intros x [<- | Hx]; [lra | now apply I2].
    + destruct I3 as [E | Hin]; [|now right; right].
      rewrite E. destruct M3 as [-> | ->]; [now left | right; now left].
Qed.

(** [np.max] and [np.min] over the reals: an entry that bounds the rest. *)
Lemma np_max_spec (a : list R) :
  a <> [] ->
  exists m, np_max a = Ok m /\ In m a /\ forall x, In x a -> (x <= m)%R.
Proof.
  destruct a as [|x t]; [congruence|]. intros _.
  destruct (fold_np_maximum_spec t x) as (M1 & M2 & M3).
  eexists. split; [reflexivity|]. split.
  - destruct M3 as [-> | Hin]; [now left | now right].
  - intros y [<- | Hy]; [exact M1 | now apply M2].
Qed.

Lemma np_min_spec (a : list R) :
  a <> [] ->
  exists m, np_min a = Ok m /\ In m a /\ forall x, In x a -> (m <= x)%R.
Proof.
  destruct a as [|x t]; [congruence|]. intros _.
  destruct (fold_np_minimum_spec t x) as (M1 & M2 & M3).
  eexists. split; [reflexivity|]. split.
  - destruct M3 as [-> | Hin]; [now left | now right].
  - intros y [<- | Hy]; [exact M1 | now apply M2].
Qed.

Lemma firstn_incl {A : Type} (n : nat) (l : list A) (x : A) :
  In x (firstn n l) -> In x l.
Proof.
  intros Hx. rewrite <- (firstn_skipn n l). apply in_or_app. now left.
Qed.

Lemma windows_In (n : nat) (a : list R) (win : list R) :
  In win (windows n a) ->
  length win = n /\ forall x, In x win -> In x a.
Proof.
  induction a as [|y t IH]; cbn [windows]; [intros []|].
  destruct (Nat.leb n (length (y :: t))) eqn:E; [|intros []].
  apply Nat.leb_le in E. intros [<- | Hin].
  - split; [now apply firstn_length_le | apply firstn_incl].
  - destruct (IH Hin) as [Hl Hx]. split; [exact Hl|].
    intros x Hxw. right. now apply Hx.
Qed.

(** A window weighted by [n] equal weights [c >= 0] stays between
    [n * c] times the bounds of its entries. *)
Lemma dot_equal_weights (c lo hi : R) (win : list R) :
  (0 <= c)%R -> Forall (fun x => lo <= x <= hi)%R win ->
  forall acc,
  (acc + lo * (INR (length win) * c)
   <= fold_left Rplus (zip_with Rmult win (repeat c (length win))) acc
   <= acc + hi * (INR (length win) * c))%R.
Proof.
  intros Hc. induction 1 as [|x win Hx Hwin IH]; intros acc.
  - simpl. lra.
  - cbn [length repeat zip_with fold_left]. rewrite S_INR.
    specialize (IH (acc + x * c)%R). nra.
Qed.

Lemma rev_of_repeat {A : Type} (c : A) (n : nat) :
  rev (repeat c n) = repeat c n.
Proof.
  induction n as [|n IH]; [reflexivity|]. cbn [repeat rev]. rewrite IH.
  clear IH. induction n; simpl; [reflexivity | now f_equal].
Qed.

(** X13.  Over the reals, with a window no longer than the series every
    smoothed value is a mean of [w] consecutive raw values, so it lies
    between any two bounds of the raw series; hence the range of the
    smoothed series is at most the range of the raw one, and the
    "smoothing effect" that the report prints is never negative. *)
Theorem smoothing_stays_within_range (w : Z) (temps : list R) :
  1 <= w <= Z.of_nat (length temps) ->
  exists out r0 r,
    moving_average w temps = Ok out
    /\ np_ptp temps = Ok r0
    /\ np_ptp out = Ok r
    /\ (forall lo hi, Forall (fun t => lo <= t <= hi)%R temps ->
                      Forall (fun v => lo <= v <= hi)%R out)
    /\ (0 <= r <= r0)%R.
Proof.
  intros Hw.
  assert (Hne : temps <> []) by (intros ->; simpl in Hw; lia).
  destruct (moving_average_ok w temps) as (out & Hout & Hone);
    [lia | assumption |].
  assert (Hin : forall lo hi, Forall (fun t => lo <= t <= hi)%R temps ->
                              Forall (fun v => lo <= v <= hi)%R out).
  { intros lo hi Hb. revert Hout. unfold moving_average, np_convolve_valid.
    rewrite kernel_repeat, repeat_length.
    replace (Nat.ltb (length temps) (Z.to_nat w)) with false
      by (symmetry; apply Nat.ltb_ge; lia).
    rewrite repeat_length.
    destruct (Nat.eqb (length temps) 0); [discriminate|].
    destruct (Nat.eqb (Z.to_nat w) 0); [discriminate|].
    intros E. apply (f_equal (fun x => match x with Ok o => o | _ => [] end)) in E.
    subst out. apply Forall_forall. intros v Hv. apply in_map_iff in Hv.
    destruct Hv as (win & <- & Hwin). apply windows_In in Hwin.
    destruct Hwin as [Hlen Hsub]. rewrite rev_of_repeat.
    assert (Hwb : Forall (fun x => lo <= x <= hi)%R win).
    { apply Forall_forall. intros x Hx.
      eapply Forall_forall in Hb; [exact Hb | now apply Hsub]. }
    assert (Hpos : (0 < IZR w)%R) by (apply IZR_lt; lia).
    pose proof (dot_equal_weights (1 / IZR w) lo hi win
                  ltac:(apply Rlt_le, Rdiv_lt_0_compat; lra) Hwb 0%R) as D.
    rewrite Hlen in D.
    replace (INR (Z.to_nat w)) with (IZR w) in D
      by (rewrite INR_IZR_INZ; f_equal; lia).
    replace (IZR w * (1 / IZR w))%R with 1%R in D by (field; lra).
    unfold np_dot, np_sum. cbn [fadd fmul fdiv of_int exactR]. lra. }
  destruct (np_max_spec temps Hne) as (hi & Hhi & _ & Bhi).
  destruct (np_min_spec temps Hne) as (lo & Hlo & _ & Blo).
  destruct (np_max_spec out Hone) as (hi' & Hhi' & Ihi' & Bhi').
  destruct (np_min_spec out Hone) as (lo' & Hlo' & Ilo' & _).
  assert (Hb : Forall (fun t => lo <= t <= hi)%R temps).
  { apply Forall_forall. intros x Hx. split; [now apply Blo | now apply Bhi]. }
  specialize (Hin lo hi Hb) as Hob.
  exists out, (hi - lo)%R, (hi' - lo')%R.
  split; [exact Hout|]. unfold np_ptp. rewrite Hhi, Hlo, Hhi', Hlo'.
  split; [reflexivity|]. split; [reflexivity|]. split; [exact Hin|].
  pose proof (Bhi' lo' Ilo').
  eapply Forall_forall in Ihi'; [|exact Hob].
  eapply Forall_forall in Ilo'; [|exact Hob].
  cbn beta in Ihi', Ilo'. lra.
Qed.

(** X13 at a concrete series: two days and a window of two. *)
Lemma smoothing_witness :
  exists out r0 r,
    moving_average 2 [1; 3]%R = Ok out
    /\ np_ptp [1; 3]%R = Ok r0 /\ np_ptp out = Ok r /\ (0 <= r <= r0)%R.
Proof.
  destruct (smoothing_stays_within_range 2 [1; 3]%R)
    as (out & r0 & r & H1 & H2 & H3 & _ & H4).
  - simpl. lia.
  - exists out, r0, r. auto.
Defined.

(** ** The calendar: months and days of the year *)

Lemma range_In (lo hi x : Z) : In x (range lo hi) <-> lo <= x < hi.
Proof. unfold range. rewrite range_from_In. lia. Qed.

Lemma month_from_yday_range (leapyear : bool) (n : Z) :
  0 <= n < 365 -> 1 <= month_from_yday leapyear n <= 12.
Proof.
  intros Hn.
  assert (Hall : forallb (fun k =>
                   forallb (fun l =>
                     (1 <=? month_from_yday l k)
                     && (month_from_yday l k <=? 12)) [true; false])
                   (range 0 365) = true) by (vm_compute; reflexivity).
  rewrite forallb_forall in Hall. specialize (Hall n).
  rewrite range_In in Hall. specialize (Hall Hn).
  rewrite forallb_forall in Hall. specialize (Hall leapyear).
  assert (Hl : In leapyear [true; false])
    by (destruct leapyear; simpl; auto).
  apply Hall in Hl. apply andb_true_iff in Hl. destruct Hl as [L1 L2].
  apply Z.leb_le in L1, L2. lia.
Qed.

(** Every ordinal has a month from 1 to 12. *)
Lemma date_month_range (d : datetime) : 1 <= date_month d <= 12.
Proof.
  unfold date_month. cbv zeta. destruct (_ || _); [lia|].
  apply month_from_yday_range. apply Z.mod_pos_bound. lia.
Qed.

Lemma tm_yday_range (d : datetime) : 1 <= tm_yday d <= 366.
Proof.
  unfold tm_yday. cbv zeta. destruct (_ || _); [lia|].
  pose proof (Z.mod_pos_bound (((d - 1) mod 146097) mod 36524 mod 1461) 365).
  lia.
Qed.

Lemma check_cycle_true : check_cycle = true.
Proof. vm_compute. reflexivity. Qed.

Lemma check_cycle_sound :
  check_cycle = true ->
  forall y m d,
    In y (range 1 401) -> In m (range 1 13) ->
    In d (range 1 (days_in_month y m + 1)) ->
    check_date y m d = true.
Proof.
  unfold check_cycle. intros C y m d Hy Hm Hd.
  pose proof (proj1 (forallb_forall _ _) C y Hy) as C1. cbv beta in C1.
  pose proof (proj1 (forallb_forall _ _) C1 m Hm) as C2. cbv beta in C2.
  exact (proj1 (forallb_forall _ _) C2 d Hd).
Qed.

Lemma check_date_first_cycle (y m d : Z) :
  1 <= y <= 400 -> 1 <= m <= 12 -> 1 <= d <= days_in_month y m ->
  check_date y m d = true.
Proof.
  intros Hy Hm Hd.
  apply (check_cycle_sound check_cycle_true); apply range_In; lia.
Qed.

(** The calendar repeats every 400 years, which are 146097 days. *)
Lemma is_leap_period (y k : Z) : is_leap (y + 400 * k) = is_leap y.
Proof.
  unfold is_leap.
  replace ((y + 400 * k) mod 4) with (y mod 4)
    by (replace (y + 400 * k) with (y + (100 * k) * 4) by lia;
        now rewrite Z_mod_plus_full).
  replace ((y + 400 * k) mod 100) with (y mod 100)
    by (replace (y + 400 * k) with (y + (4 * k) * 100) by lia;
        now rewrite Z_mod_plus_full).
  replace ((y + 400 * k) mod 400) with (y mod 400)
    by (replace (y + 400 * k) with (y + k * 400) by lia;
        now rewrite Z_mod_plus_full).
  reflexivity.
Qed.

Lemma days_before_year_period (y k : Z) :
  days_before_year (y + 400 * k) = days_before_year y + 146097 * k.
Proof.
  unfold days_before_year. cbv zeta.
  replace ((y + 400 * k - 1) / 4) with ((y - 1) / 4 + 100 * k)
    by (replace (y + 400 * k - 1) with (y - 1 + (100 * k) * 4) by lia;
        now rewrite Z.div_add).
  replace ((y + 400 * k - 1) / 100) with ((y - 1) / 100 + 4 * k)
    by (replace (y + 400 * k - 1) with (y - 1 + (4 * k) * 100) by lia;
        now rewrite Z.div_add).
  replace ((y + 400 * k - 1) / 400) with ((y - 1) / 400 + k)
    by (replace (y + 400 * k - 1) with (y - 1 + k * 400) by lia;
        now rewrite Z.div_add).
  lia.
Qed.

Lemma ymd2ord_period (y m d k : Z) :
  ymd2ord (y + 400 * k) m d = ymd2ord y m d + 146097 * k.
Proof.
  unfold ymd2ord, days_before_month.
  rewrite days_before_year_period, is_leap_period. lia.
Qed.

Lemma date_month_period (o k : Z) :
  date_month (o + 146097 * k) = date_month o.
Proof.
  unfold date_month.
  replace ((o + 146097 * k - 1) mod 146097) with ((o - 1) mod 146097);
    [reflexivity|].
  replace (o + 146097 * k - 1) with (o - 1 + k * 146097) by lia.
  now rewrite Z_mod_plus_full.
Qed.

Lemma tm_yday_period (o k : Z) : tm_yday (o + 146097 * k) = tm_yday o.
Proof.
  unfold tm_yday.
  replace ((o + 146097 * k - 1) mod 146097) with ((o - 1) mod 146097);
    [reflexivity|].
  replace (o + 146097 * k - 1) with (o - 1 + k * 146097) by lia.
  now rewrite Z_mod_plus_full.
Qed.

(** X14.  The calendar functions agree with one another on every date
    from year 1 on: the ordinal of the date [year-month-day], as
    [start_date] is computed, has [month] as its month and the days before
    that month plus [day] as its day of the year. *)
Theorem calendar_round_trip (year month day : Z) :
  1 <= year -> 1 <= month <= 12 -> 1 <= day <= days_in_month year month ->
  date_month (ymd2ord year month day) = month
  /\ tm_yday (ymd2ord year month day) = days_before_month year month + day.
Proof.
  intros Hy Hm Hd.
  set (k := (year - 1) / 400). set (y0 := (year - 1) mod 400 + 1).
  assert (Hy0 : 1 <= y0 <= 400)
    by (pose proof (Z.mod_pos_bound (year - 1) 400); unfold y0; lia).
  assert (E : year = y0 + 400 * k).
  { unfold y0, k. pose proof (Z.div_mod (year - 1) 400). lia. }
  assert (Hdim : days_in_month year month = days_in_month y0 month)
    by (unfold days_in_month; now rewrite E, is_leap_period).
  assert (Hdbm : days_before_month year month = days_before_month y0 month)
    by (unfold days_before_month; now rewrite E, is_leap_period).
  rewrite Hdim in Hd. rewrite Hdbm, E, ymd2ord_period.
  rewrite date_month_period, tm_yday_period.
  pose proof (check_date_first_cycle y0 month day Hy0 Hm Hd) as C.
  unfold check_date in C. apply andb_true_iff in C. destruct C as [C1 C2].
  apply Z.eqb_eq in C1, C2. split; assumption.
Qed.

(** X14 at a concrete date: the first day of the generated series. *)
Lemma calendar_round_trip_witness :
  date_month (ymd2ord 2021 1 1) = 1
  /\ tm_yday (ymd2ord 2021 1 1) = days_before_month 2021 1 + 1.
Proof.
  apply (calendar_round_trip 2021 1 1); [lia | lia |].
  split; [lia | vm_compute; discriminate].
Defined.

(** ** [seasonal_analysis]: seasons and months *)

Lemma month_cases (m : Z) :
  1 <= m <= 12 ->
  m = 1 \/ m = 2 \/ m = 3 \/ m = 4 \/ m = 5 \/ m = 6 \/ m = 7 \/ m = 8
  \/ m = 9 \/ m = 10 \/ m = 11 \/ m = 12.
Proof. lia. Qed.

Lemma one_season_per_month (m : Z) :
  1 <= m <= 12 ->
  count_true (map (fun season : string * list Z => np_isin m (snd season))
                  seasons) = 1.
Proof.
  intros Hm. apply month_cases in Hm.
  repeat destruct Hm as [-> | Hm]; try subst m; reflexivity.
Qed.

Lemma season_counts (ms : list Z) :
  Forall (fun m => 1 <= m <= 12) ms ->
  fold_left Z.add
    (map (fun season : string * list Z =>
            count_true (map (fun m => np_isin m (snd season)) ms)) seasons) 0
  = Z.of_nat (length ms).
Proof.
  induction 1 as [|m ms Hm Hms IH].
  - reflexivity.
  - cbn [map seasons fold_left snd length] in *.
    rewrite !count_true_cons, Nat2Z.inj_succ.
    revert IH.
    generalize (count_true (map (fun m => np_isin m [12; 1; 2]) ms)),
               (count_true (map (fun m => np_isin m [3; 4; 5]) ms)),
               (count_true (map (fun m => np_isin m [6; 7; 8]) ms)),
               (count_true (map (fun m => np_isin m [9; 10; 11]) ms)).
    intros a b c d IH. apply month_cases in Hm.
    repeat destruct Hm as [-> | Hm]; try subst m; cbn [np_isin existsb Z.eqb
      Pos.eqb orb astype_int]; lia.
Qed.

Lemma getmask_ok {A : Type} (a : list A) (mask : list bool) :
  length a = length mask -> getmask a mask = Ok (select a mask).
Proof.
  intros E. unfold getmask. rewrite E, Nat.eqb_refl.
  destruct mask; [|reflexivity].
  destruct a; [reflexivity | discriminate].
Qed.

Lemma getmask_mismatch {A : Type} (a : list A) (mask : list bool) :
  mask <> [] -> length a <> length mask -> getmask a mask = Raise IndexError.
Proof.
  intros Hm E. unfold getmask.
  destruct mask as [|b mask]; [congruence|]. cbn [length Nat.eqb].
  now replace (Nat.eqb (length a) (S (length mask))) with false
    by (symmetry; apply Nat.eqb_neq; exact E).
Qed.

Lemma select_by_none {A B : Type} (f : B -> bool) (ds : list B) :
  (forall d, In d ds -> f d = false) ->
  forall ts : list A, select ts (map f ds) = [].
Proof.
  induction ds as [|d ds IH]; intros Hf [|t ts]; simpl; try reflexivity.
  rewrite (Hf d) by now left. apply IH. intros; apply Hf. now right.
Qed.

Section Seasons.

Context {F : Type} `{Scalar F}.

Lemma months_of_length (s : WeatherSeries F) :
  length (months_of s) = length (dates s).
Proof. apply length_map. Qed.

Lemma season_mask_length (s : WeatherSeries F) (sm : list Z) :
  length (season_mask s sm) = length (dates s).
Proof. unfold season_mask. now rewrite length_map, months_of_length. Qed.

(** X15.  Every date of a series has a month from 1 to 12 and belongs to
    exactly one of the four seasons of [seasonal_analysis]; so the four
    season masks select every day once: their sizes add up to the number
    of days. *)
Theorem every_day_in_one_season (s : WeatherSeries F) :
  Forall (fun m => 1 <= m <= 12) (months_of s)
  /\ (forall d, In d (dates s) ->
        count_true (map (fun season : string * list Z =>
                           np_isin (date_month d) (snd season)) seasons) = 1)
  /\ fold_left Z.add
       (map (fun season : string * list Z =>
               count_true (season_mask s (snd season))) seasons) 0
     = Z.of_nat (length (dates s)).
Proof.
  assert (Hm : Forall (fun m => 1 <= m <= 12) (months_of s)).
  { apply Forall_forall. intros m Hin. apply in_map_iff in Hin.
    destruct Hin as (d & <- & _). apply date_month_range. }
  split; [exact Hm|]. split.
  - intros d _. apply one_season_per_month, date_month_range.
  - rewrite <- months_of_length. now apply season_counts.
Qed.

(** X16.  [seasonal_analysis] returns when the temperature and the
    precipitation have the length of the date array, with one average for
    each of Winter, Spring, Summer and Fall, in this order, and one total
    for each month from 1 to 12; a season in which no date falls gets the
    mean of an empty selection (a NaN in IEEE arithmetic).  When there
    is a date and the temperature, or else the precipitation, has another
    length than the dates, a mask raises [IndexError].  Without a date the
    masks are empty, their length is not checked and nothing is raised,
    whatever the other arrays hold: every average is the mean of an empty
    selection and every total its sum. *)
Theorem seasonal_analysis_edge_cases (s : WeatherSeries F) :
  (length (temperature s) = length (dates s) ->
   length (precipitation s) = length (dates s) ->
   exists averages totals,
     seasonal_analysis s = Ok (averages, totals)
     /\ map fst averages = ["Winter"; "Spring"; "Summer"; "Fall"]%string
     /\ map fst totals = [1; 2; 3; 4; 5; 6; 7; 8; 9; 10; 11; 12]
     /\ forall season,
          In season seasons ->
          (forall d, In d (dates s) ->
                     np_isin (date_month d) (snd season) = false) ->
          In (fst season, np_mean []) averages)
  /\ (dates s <> [] ->
      length (temperature s) <> length (dates s) ->
      seasonal_analysis s = Raise IndexError)
  /\ (dates s <> [] ->
      length (temperature s) = length (dates s) ->
      length (precipitation s) <> length (dates s) ->
      seasonal_analysis s = Raise IndexError)
  /\ (dates s = [] ->
      seasonal_analysis s
      = Ok (map (fun season : string * list Z => (fst season, np_mean []))
                seasons,
            map (fun month => (month, np_sum [])) (range 1 13))).
Proof.
  split; [|split; [|split]].
  - intros Et Ep. unfold seasonal_analysis.
    change (range 1 13) with [1; 2; 3; 4; 5; 6; 7; 8; 9; 10; 11; 12].
    cbn [mapM seasons fst snd].
    rewrite !getmask_ok
      by (now rewrite ?season_mask_length, ?length_map, ?months_of_length).
    cbn [bind]. eexists. eexists. split; [reflexivity|].
    split; [reflexivity|]. split; [reflexivity|].
    intros season Hin Hnone.
    assert (Hsel : select (temperature s) (season_mask s (snd season)) = []).
    { unfold season_mask, months_of. rewrite map_map.
      now apply select_by_none. }
    unfold seasons in Hin. simpl in Hin.
    repeat destruct Hin as [<- | Hin]; try destruct Hin;
      cbn [fst snd] in *; rewrite Hsel; simpl; tauto.
  - intros Hd Et. unfold seasonal_analysis. cbn [mapM seasons fst snd].
    rewrite getmask_mismatch; [reflexivity | | now rewrite season_mask_length].
    unfold season_mask, months_of. destruct (dates s); [congruence|].
    discriminate.
  - intros Hd Et Ep. unfold seasonal_analysis.
    change (range 1 13) with [1; 2; 3; 4; 5; 6; 7; 8; 9; 10; 11; 12].
    cbn [mapM seasons fst snd].
    rewrite !getmask_ok by (now rewrite season_mask_length).
    cbn [bind].
    rewrite getmask_mismatch; [reflexivity | | now rewrite length_map, months_of_length].
    unfold months_of. destruct (dates s); [congruence|]. discriminate.
  - intros Hd. unfold seasonal_analysis, season_mask, months_of.
    rewrite Hd. reflexivity.
Qed.

End Seasons.

(** *** The monthly totals over the reals *)

Lemma np_sum_cons_R (x : R) (l : list R) : np_sum (x :: l) = (x + np_sum l)%R.
Proof.
  unfold np_sum. cbn [fold_left fadd of_int exactR].
  rewrite fold_Rplus_shift. lra.
Qed.

Lemma np_sum_nil_R : np_sum ([] : list R) = 0%R.
Proof. reflexivity. Qed.

Lemma np_sum_select_cons (b : bool) (p : R) (l : list R) :
  np_sum (if b then p :: l else l) = ((if b then p else 0) + np_sum l)%R.
Proof. destruct b; [apply np_sum_cons_R | lra]. Qed.

Lemma monthly_split (ps : list R) : forall ms,
  length ps = length ms -> Forall (fun m => 1 <= m <= 12) ms ->
  fold_left Rplus
    (map (fun month => np_sum (select ps (map (fun m => m =? month) ms)))
         [1; 2; 3; 4; 5; 6; 7; 8; 9; 10; 11; 12]) 0%R
  = np_sum ps.
Proof.
  induction ps as [|p ps IH]; intros [|m ms] E Hm; try discriminate.
  - cbn [map select fold_left]. rewrite np_sum_nil_R. lra.
  - inversion Hm as [|? ? Hm1 Hms]; subst.
    specialize (IH ms ltac:(simpl in E; lia) Hms).
    cbn [map fold_left] in *. cbn [select]. rewrite !np_sum_select_cons.
    rewrite np_sum_cons_R. revert IH.
    generalize (np_sum (select ps (map (fun m => m =? 1) ms))),
               (np_sum (select ps (map (fun m => m =? 2) ms))),
               (np_sum (select ps (map (fun m => m =? 3) ms))),
               (np_sum (select ps (map (fun m => m =? 4) ms))),
               (np_sum (select ps (map (fun m => m =? 5) ms))),
               (np_sum (select ps (map (fun m => m =? 6) ms))),
               (np_sum (select ps (map (fun m => m =? 7) ms))),
               (np_sum (select ps (map (fun m => m =? 8) ms))),
               (np_sum (select ps (map (fun m => m =? 9) ms))),
               (np_sum (select ps (map (fun m => m =? 10) ms))),
               (np_sum (select ps (map (fun m => m =? 11) ms))),
               (np_sum (select ps (map (fun m => m =? 12) ms))),
               (np_sum ps).
    intros t1 t2 t3 t4 t5 t6 t7 t8 t9 t10 t11 t12 total IH.
    apply month_cases in Hm1.
    repeat destruct Hm1 as [-> | Hm1]; try subst m;
      cbn [Z.eqb Pos.eqb]; lra.
Qed.

(** X17.  Over the reals, when the arrays have the length of the dates,
    every day's precipitation is counted in exactly one month: the twelve
    monthly totals of [seasonal_analysis] add up to the total
    precipitation. *)
Theorem monthly_totals_add_up (s : WeatherSeries R) :
  length (temperature s) = length (dates s) ->
  length (precipitation s) = length (dates s) ->
  exists averages totals,
    seasonal_analysis s = Ok (averages, totals)
    /\ fold_left Rplus (map snd totals) 0%R = np_sum (precipitation s).
Proof.
  intros Et Ep. unfold seasonal_analysis.
  change (range 1 13) with [1; 2; 3; 4; 5; 6; 7; 8; 9; 10; 11; 12].
  cbn [mapM seasons fst snd].
  rewrite !getmask_ok
    by (now rewrite ?season_mask_length, ?length_map, ?months_of_length).
  cbn [bind]. eexists. eexists. split; [reflexivity|].
  cbn [map snd].
  pose proof (monthly_split (precipitation s) (months_of s)) as M.
  cbn [map] in M. apply M.
  - now rewrite months_of_length.
  - apply Forall_forall. intros m Hin. apply in_map_iff in Hin.
    destruct Hin as (d & <- & _). apply date_month_range.
Qed.

(** X17 at a concrete series: the two changing days. *)
Lemma monthly_totals_witness :
  exists averages totals,
    seasonal_analysis changing_days_exact = Ok (averages, totals)
    /\ fold_left Rplus (map snd totals) 0%R
       = np_sum (precipitation changing_days_exact).
Proof.
  apply (monthly_totals_add_up changing_days_exact); reflexivity.
Defined.

(** ** [basic_statistics]: errors and the numbers it prints *)

Section Statistics.

Context {F : Type} `{Scalar F}.
Variable np_median : list F -> F.

Lemma summarize_value (data : list F) :
  data <> [] ->
  exists lo hi,
    np_min data = Ok lo /\ np_max data = Ok hi
    /\ summarize np_median data
       = Ok {| stat_mean := np_mean data; stat_median := np_median data;
               stat_std := np_std data; stat_min := lo; stat_max := hi;
               stat_range := (hi - lo)%np |}.
Proof.
  destruct data as [|x t]; [congruence|]. intros _. do 2 eexists.
  split; [reflexivity|]. split; reflexivity.
Qed.

Lemma variables_not_empty (s : WeatherSeries F) :
  same_lengths s -> temperature s <> [] ->
  Forall (fun v => v <> []) (variables s).
Proof.
  intros [_ Hv] Hne. apply Forall_forall. intros v Hin E.
  rewrite Forall_forall in Hv. specialize (Hv v Hin). rewrite E in Hv.
  destruct (temperature s); [congruence | discriminate].
Qed.

(** With five variables that are not empty the five summaries are
    printed, the temperature first. *)
Lemma basic_statistics_value (s : WeatherSeries F) :
  Forall (fun v => v <> []) (variables s) ->
  exists st,
    mapM (summarize np_median) (variables s) = Ok st
    /\ basic_statistics np_median s
       = Ok (combine (map fst (labelled_variables s)) st).
Proof.
  intros Hv. unfold variables in Hv.
  repeat match goal with
         | Hf : Forall _ (_ :: _) |- _ =>
             let Hx := fresh "Hx" in
             apply Forall_cons_iff in Hf; destruct Hf as [Hx Hf]
         end.
  destruct (summarize_value _ Hx) as (l1 & h1 & _ & _ & E1).
  destruct (summarize_value _ Hx0) as (l2 & h2 & _ & _ & E2).
  destruct (summarize_value _ Hx1) as (l3 & h3 & _ & _ & E3).
  destruct (summarize_value _ Hx2) as (l4 & h4 & _ & _ & E4).
  destruct (summarize_value _ Hx3) as (l5 & h5 & _ & _ & E5).
  unfold basic_statistics, labelled_variables, variables.
  cbn [mapM fst snd]. rewrite E1, E2, E3, E4, E5. cbn [bind].
  eexists. split; reflexivity.
Qed.

(** X18.  [basic_statistics] prints a summary for each of the five
    variables, in the order of the dictionary, when none of them is empty;
    when one of them is empty it raises [ValueError]: the mean, the median
    and the standard deviation of the empty array are printed and [np.min]
    refuses it. *)
Theorem basic_statistics_edge_cases (s : WeatherSeries F) :
  (Forall (fun v => v <> []) (variables s) ->
   exists r,
     basic_statistics np_median s = Ok r
     /\ map fst r = map fst (labelled_variables s)
     /\ map (fun x => stat_mean (snd x)) r = map np_mean (variables s)
     /\ map (fun x => stat_median (snd x)) r = map np_median (variables s)
     /\ map (fun x => stat_std (snd x)) r = map np_std (variables s))
  /\ (Exists (fun v => v = []) (variables s) ->
      basic_statistics np_median s = Raise ValueError).
Proof.
  split.
  - intros Hv. unfold variables in Hv.
    repeat match goal with
           | Hf : Forall _ (_ :: _) |- _ =>
               let Hx := fresh "Hx" in
               apply Forall_cons_iff in Hf; destruct Hf as [Hx Hf]
           end.
    destruct (summarize_value _ Hx) as (l1 & h1 & _ & _ & E1).
    destruct (summarize_value _ Hx0) as (l2 & h2 & _ & _ & E2).
    destruct (summarize_value _ Hx1) as (l3 & h3 & _ & _ & E3).
    destruct (summarize_value _ Hx2) as (l4 & h4 & _ & _ & E4).
    destruct (summarize_value _ Hx3) as (l5 & h5 & _ & _ & E5).
    unfold basic_statistics, labelled_variables, variables.
    cbn [mapM fst snd]. rewrite E1, E2, E3, E4, E5. cbn [bind].
    eexists. split; [reflexivity|].
    repeat match goal with |- _ /\ _ => split end; reflexivity.
  - intros Hv. unfold basic_statistics, labelled_variables.
    unfold variables in Hv. cbn [mapM fst snd].
    destruct (temperature s) as [|t ts]; [reflexivity|].
    destruct (humidity s) as [|h hs]; [reflexivity|].
    destruct (precipitation s) as [|p ps]; [reflexivity|].
    destruct (wind_speed s) as [|w ws]; [reflexivity|].
    destruct (pressure s) as [|q qs]; [reflexivity|].
    exfalso.
    repeat match goal with
           | He : Exists _ (_ :: _) |- _ =>
               apply Exists_cons in He; destruct He as [He | He];
               [discriminate|]
           end.
    inversion Hv.
Qed.

End Statistics.

(** *** The summaries over the reals *)

Lemma sum_between (lo hi : R) (a : list R) :
  Forall (fun x => lo <= x <= hi)%R a ->
  forall acc,
    (acc + lo * INR (length a) <= fold_left Rplus a acc
     <= acc + hi * INR (length a))%R.
Proof.
  induction 1 as [|x a Hx Ha IH]; intros acc.
  - simpl. lra.
  - cbn [length fold_left]. rewrite S_INR. specialize (IH (acc + x)%R). nra.
Qed.

Lemma np_mean_between (lo hi : R) (a : list R) :
  a <> [] -> Forall (fun x => lo <= x <= hi)%R a ->
  (lo <= np_mean a <= hi)%R.
Proof.
  intros Hne Ha. unfold np_mean, np_sum. cbn [fdiv fadd of_int exactR].
  rewrite <- INR_IZR_INZ.
  pose proof (sum_between lo hi a Ha 0%R) as S.
  assert (Hn : (0 < INR (length a))%R).
  { apply lt_0_INR. destruct a; [congruence | simpl; lia]. }
  revert S Hn. generalize (fold_left Rplus a 0%R), (INR (length a)).
  intros total n S Hn.
  assert (E : (total / n * n = total)%R) by (field; lra).
  revert E. generalize (total / n)%R. intros q E. nra.
Qed.

Lemma np_std_between (lo hi : R) (a : list R) :
  a <> [] -> Forall (fun x => lo <= x <= hi)%R a ->
  (0 <= np_std a <= hi - lo)%R.
Proof.
  intros Hne Ha. pose proof (np_mean_between lo hi a Hne Ha) as Hm.
  unfold np_std. cbv zeta. cbn [fsqrt exactR]. split; [apply sqrt_pos|].
  rewrite map_map.
  assert (Hsq : (lo <= hi)%R) by lra.
  rewrite <- (sqrt_square (hi - lo)) by lra.
  apply sqrt_le_1_alt.
  apply (np_mean_between 0 ((hi - lo) * (hi - lo))).
  - destruct a; [congruence | discriminate].
  - apply Forall_forall. intros y Hy. apply in_map_iff in Hy.
    destruct Hy as (v & <- & Hv). rewrite Forall_forall in Ha.
    specialize (Ha v Hv). cbn [fmul fsub exactR].
    revert Hm. generalize (np_mean a). intros m Hm.
    assert (0 <= (hi - lo - (v - m)) * (hi - lo + (v - m)))%R
      by (apply Rmult_le_pos; lra).
    pose proof (Rle_0_sqr (v - m)) as Hs. unfold Rsqr in Hs. lra.
Qed.

Section StatisticsOverR.

Variable np_median : list R -> R.

Lemma summarize_bounds (data : list R) :
  data <> [] ->
  exists st,
    summarize np_median data = Ok st
    /\ (stat_min st <= stat_mean st <= stat_max st)%R
    /\ (0 <= stat_std st <= stat_range st)%R
    /\ stat_range st = (stat_max st - stat_min st)%R
    /\ In (stat_min st) data /\ In (stat_max st) data.
Proof.
  intros Hne.
  destruct (np_min_spec data Hne) as (lo & Hlo & Ilo & Blo).
  destruct (np_max_spec data Hne) as (hi & Hhi & Ihi & Bhi).
  destruct (summarize_value np_median data Hne) as (lo' & hi' & El & Eh & E).
  rewrite Hlo in El. rewrite Hhi in Eh.
  injection El as <-. injection Eh as <-.
  eexists. split; [exact E|].
  cbn [stat_min stat_mean stat_max stat_std stat_range fsub exactR].
  assert (Ha : Forall (fun x => lo <= x <= hi)%R data).
  { apply Forall_forall. intros x Hx. split; [now apply Blo | now apply Bhi]. }
  split; [now apply np_mean_between|].
  split; [now apply np_std_between|].
  split; [reflexivity|]. split; assumption.
Qed.

(** X19.  Over the reals, for five variables that are not empty, each
    summary of [basic_statistics] is consistent: the minimum and the
    maximum are entries of the variable, the mean lies between them, the
    standard deviation is not negative and is at most the range, and the
    range is the maximum less the minimum. *)
Theorem basic_statistics_consistent (s : WeatherSeries R) :
  Forall (fun v => v <> []) (variables s) ->
  exists r,
    basic_statistics np_median s = Ok r
    /\ length r = 5%nat
    /\ Forall2 (fun (x : string * Summary R) data =>
                  (stat_min (snd x) <= stat_mean (snd x) <= stat_max (snd x))%R
                  /\ (0 <= stat_std (snd x) <= stat_range (snd x))%R
                  /\ stat_range (snd x)
                     = (stat_max (snd x) - stat_min (snd x))%R
                  /\ In (stat_min (snd x)) data
                  /\ In (stat_max (snd x)) data)
               r (variables s).
Proof.
  intros Hv. unfold variables in Hv.
  repeat match goal with
         | Hf : Forall _ (_ :: _) |- _ =>
             let Hx := fresh "Hx" in
             apply Forall_cons_iff in Hf; destruct Hf as [Hx Hf]
         end.
  destruct (summarize_bounds _ Hx) as (s1 & E1 & B1).
  destruct (summarize_bounds _ Hx0) as (s2 & E2 & B2).
  destruct (summarize_bounds _ Hx1) as (s3 & E3 & B3).
  destruct (summarize_bounds _ Hx2) as (s4 & E4 & B4).
  destruct (summarize_bounds _ Hx3) as (s5 & E5 & B5).
  unfold basic_statistics, labelled_variables, variables.
  cbn [mapM fst snd]. rewrite E1, E2, E3, E4, E5. cbn [bind].
  eexists. split; [reflexivity|]. split; [reflexivity|].
  repeat (apply Forall2_cons; [cbn [snd]; tauto|]). apply Forall2_nil.
Qed.

End StatisticsOverR.

(** X19 at a concrete series: the two changing days, with the first entry
    for a median. *)
Lemma basic_statistics_witness :
  exists r,
    basic_statistics (fun a => hd 0%R a) changing_days_exact = Ok r
    /\ length r = 5%nat.
Proof.
  destruct (basic_statistics_consistent (fun a => hd 0%R a)
              changing_days_exact) as (r & Hr & Hl & _).
  - repeat constructor; discriminate.
  - exists r. split; assumption.
Defined.

(** ** [generate_report] and [main]: how the analyses compose *)

Lemma seasonal_analysis_ok {F : Type} `{Scalar F} (s : WeatherSeries F) :
  length (temperature s) = length (dates s) ->
  length (precipitation s) = length (dates s) ->
  exists r, seasonal_analysis s = Ok r.
Proof.
  intros Et Ep. unfold seasonal_analysis.
  change (range 1 13) with [1; 2; 3; 4; 5; 6; 7; 8; 9; 10; 11; 12].
  cbn [mapM seasons fst snd].
  rewrite !getmask_ok
    by (now rewrite ?season_mask_length, ?length_map, ?months_of_length).
  cbn [bind]. eexists. reflexivity.
Qed.

(** [np.corrcoef(x, y)[0, 1]] on two arrays of one length. *)
Lemma np_corrcoef_xy_entry {F : Type} `{Scalar F} (x y : list F) :
  length x = length y ->
  exists c row,
    np_corrcoef_xy x y = Ok c
    /\ getitem c 0 = Ok row
    /\ getitem row 1 = Ok (entry (np_corrcoef [x; y]) 0 1).
Proof.
  intros E. unfold np_corrcoef_xy. rewrite E, Nat.eqb_refl.
  do 2 eexists. split; [reflexivity|]. split; reflexivity.
Qed.

(** The correlation of the first two rows does not depend on the rows
    after them. *)
Lemma np_corrcoef_first_pair {F : Type} `{Scalar F} (x y : list F)
  (rest : list (list F)) :
  entry (np_corrcoef [x; y]) 0 1 = entry (np_corrcoef (x :: y :: rest)) 0 1.
Proof. reflexivity. Qed.

Section ReportFacts.

Context {F : Type} `{Scalar F}.
Variable np_median : list F -> F.
Variable np_percentile : list F -> Z -> result F.
Variable np_polyfit : list F -> list F -> result (F * F).

(** The report of a series of one length that is not empty, when the calls
    of [np.percentile] and [np.polyfit] return. *)
Lemma generate_report_value (days : Z) (s : WeatherSeries F)
  (hot cold rain wind sl ic : F) :
  same_lengths s -> temperature s <> [] ->
  np_percentile (temperature s) 95 = Ok hot ->
  np_percentile (temperature s) 5 = Ok cold ->
  np_percentile (rainy s) 90 = Ok rain ->
  np_percentile (wind_speed s) 95 = Ok wind ->
  np_polyfit (map of_int (range 0 (Z.of_nat (length (temperature s)))))
             (temperature s) = Ok (sl, ic) ->
  exists st se ex tr r0 lo hi,
    mapM (summarize np_median) (variables s) = Ok st
    /\ np_min (temperature s) = Ok lo
    /\ np_max (temperature s) = Ok hi
    /\ r0 = (hi - lo)%np
    /\ seasonal_analysis s = Ok se
    /\ extreme_weather_analysis np_percentile s = Ok ex
    /\ temp_hot ex = hot
    /\ hot_days ex
       = count_true (map (fun t => (t >? hot)%np) (temperature s))
    /\ moving_averages np_polyfit s = Ok tr
    /\ range_original tr = r0
    /\ slope tr = sl
    /\ generate_report np_median np_percentile np_polyfit days s
       = Ok {| statistics := combine (map fst (labelled_variables s)) st;
               seasonal := se;
               correlations := np_corrcoef (variables s);
               extremes := ex;
               trends := tr;
               precipitation_lines := precipitation_patterns days s;
               insights :=
                 {| temp_range := r0;
                    temp_mean := np_mean (temperature s);
                    wet_days :=
                      count_true (map (fun p => (p >? of_int 0)%np)
                                      (precipitation s));
                    wet_percentage :=
                      (of_int (count_true
                                 (map (fun p => (p >? of_int 0)%np)
                                      (precipitation s)))
                       / of_int days * of_int 100)%np;
                    temp_humid_corr :=
                      entry (np_corrcoef [temperature s; humidity s]) 0 1;
                    hot_threshold := hot;
                    insight_hot_days :=
                      count_true (map (fun t => (t >? hot)%np)
                                      (temperature s)) |} |}.
Proof.
  intros Hs Hne Hhot Hcold Hrain Hwind Hfit.
  destruct (same_lengths_variables s Hs) as (Eh & Ep & Ew & Epr).
  destruct (basic_statistics_value np_median s
              (variables_not_empty s Hs Hne)) as (st & Hst & Hbs).
  destruct (seasonal_analysis_ok s) as (se & Hse);
    [symmetry; apply Hs | rewrite Ep; symmetry; apply Hs |].
  destruct (extreme_weather_analysis_value np_percentile s hot cold rain wind
              Hs Hne Hhot Hcold Hrain Hwind)
    as (day & d & t & p & w & c & _ & _ & _ & _ & _ & _ & _ & _ & Hex).
  destruct (moving_average_ok 7 (temperature s)) as (o7 & H7 & N7);
    [lia | assumption |].
  destruct (moving_average_ok 30 (temperature s)) as (o30 & H30 & N30);
    [lia | assumption |].
  destruct (summarize_value np_median (temperature s) Hne)
    as (lo & hi & Hlo & Hhi & _).
  assert (Hr0 : np_ptp (temperature s) = Ok (hi - lo)%np)
    by (unfold np_ptp; now rewrite Hhi, Hlo).
  destruct (np_ptp_ok _ N7) as (r7 & Hr7).
  destruct (np_ptp_ok _ N30) as (r30 & Hr30).
  destruct (np_corrcoef_xy_entry (temperature s) (humidity s)
              (eq_sym Eh)) as (cm & row & Hcm & Hrow & Hcorr).
  exists st, se. eexists. eexists. exists (hi - lo)%np, lo, hi.
  split; [exact Hst|]. split; [exact Hlo|]. split; [exact Hhi|].
  split; [reflexivity|]. split; [exact Hse|]. split; [exact Hex|].
  split; [reflexivity|]. split; [reflexivity|].
  assert (Hma : moving_averages np_polyfit s
                = Ok {| temp_7day := o7; temp_30day := o30;
                        range_original := (hi - lo)%np;
                        range_7day := r7; range_30day := r30;
                        slope := sl; intercept := ic;
                        direction := trend_direction sl |}).
  { unfold moving_averages. rewrite H7, H30. cbn [bind].
    rewrite Hr0, Hr7, Hr30. cbn [bind]. now rewrite Hfit. }
  split; [exact Hma|]. split; [reflexivity|]. split; [reflexivity|].
  unfold generate_report. rewrite Hbs, Hse. cbn [bind].
  unfold correlation_analysis. rewrite (column_stack_T_ok s Hs). cbn [bind].
  rewrite Hex, Hma. cbn [bind].
  unfold key_insights. rewrite Hr0, Hcm. cbn [bind].
  rewrite Hrow. cbn [bind]. rewrite Hcorr. cbn [bind].
  rewrite Hhot. reflexivity.
Qed.

Lemma temperature_summary (s : WeatherSeries F) (st : list (Summary F))
  (lo hi : F) :
  np_min (temperature s) = Ok lo -> np_max (temperature s) = Ok hi ->
  mapM (summarize np_median) (variables s) = Ok st ->
  exists rest,
    st = {| stat_mean := np_mean (temperature s);
            stat_median := np_median (temperature s);
            stat_std := np_std (temperature s);
            stat_min := lo; stat_max := hi;
            stat_range := (hi - lo)%np |} :: rest
    /\ length rest = 4%nat.
Proof.
  intros Hlo Hhi. unfold variables. cbn [mapM].
  unfold summarize at 1. unfold np_ptp. rewrite Hlo, Hhi. cbn [bind].
  destruct (summarize np_median (humidity s)); [|discriminate].
  destruct (summarize np_median (precipitation s)); [|discriminate].
  destruct (summarize np_median (wind_speed s)); [|discriminate].
  destruct (summarize np_median (pressure s)); [|discriminate].
  cbn [bind]. intros E. injection E as <-. eexists. split; reflexivity.
Qed.

(** X20.  [generate_report] returns on a series of one length that is not
    empty whenever its calls of [np.percentile] and [np.polyfit] return,
    and its key insights agree with the sections before them: the mean
    and the range of the temperature are those of the first summary and
    of the trend analysis, the count of wet days is the "Total rainy
    days" of the precipitation section, and the hot days and their
    threshold are those of the extreme-weather analysis. *)
Theorem generate_report_returns (days : Z) (s : WeatherSeries F)
  (hot cold rain wind sl ic : F) :
  same_lengths s -> temperature s <> [] ->
  np_percentile (temperature s) 95 = Ok hot ->
  np_percentile (temperature s) 5 = Ok cold ->
  np_percentile (rainy s) 90 = Ok rain ->
  np_percentile (wind_speed s) 95 = Ok wind ->
  np_polyfit (map of_int (range 0 (Z.of_nat (length (temperature s)))))
             (temperature s) = Ok (sl, ic) ->
  exists r,
    generate_report np_median np_percentile np_polyfit days s = Ok r
    /\ length (statistics r) = 5%nat
    /\ (exists name st,
          nth_error (statistics r) 0 = Some (name, st)
          /\ stat_mean st = temp_mean (insights r)
          /\ stat_range st = temp_range (insights r))
    /\ range_original (trends r) = temp_range (insights r)
    /\ In (IntField "Total rainy days" (wet_days (insights r)))
          (precipitation_lines r)
    /\ temp_hot (extremes r) = hot_threshold (insights r)
    /\ hot_days (extremes r) = insight_hot_days (insights r).
Proof.
  intros Hs Hne Hhot Hcold Hrain Hwind Hfit.
  destruct (generate_report_value days s hot cold rain wind sl ic
              Hs Hne Hhot Hcold Hrain Hwind Hfit)
    as (st & se & ex & tr & r0 & lo & hi & Hst & Hlo & Hhi & -> & _ & _
        & Hth & Hhd & _ & Hro & _ & Hr).
  destruct (temperature_summary s st lo hi Hlo Hhi Hst) as (rest & -> & Lr).
  eexists. split; [exact Hr|].
  cbn [statistics insights trends extremes precipitation_lines
       temp_mean temp_range wet_days hot_threshold insight_hot_days].
  split.
  { unfold labelled_variables. cbn [map fst combine length].
    destruct rest as [|a [|b [|c [|d [|e rest]]]]]; try discriminate.
    reflexivity. }
  split.
  { unfold labelled_variables. cbn [map fst combine nth_error].
    do 2 eexists. split; [reflexivity|]. split; reflexivity. }
  split; [exact Hro|].
  split; [unfold precipitation_patterns; right; left; reflexivity|].
  split; assumption.
Qed.

End ReportFacts.

(** X20 at a concrete series in binary64: the three changing days, with a
    median and a percentile that return the first entry of their array
    and a fit that returns a flat line. *)
Lemma generate_report_witness :
  exists r,
    generate_report (fun a => hd 0%float a) (fun a _ => Ok (hd 0%float a))
                    (fun _ _ => Ok (0%float, 0%float)) 3 three_days = Ok r
    /\ hot_days (extremes r) = insight_hot_days (insights r).
Proof.
  destruct (generate_report_returns
              (fun a => hd 0%float a) (fun a _ => Ok (hd 0%float a))
              (fun _ _ => Ok (0%float, 0%float)) 3 three_days
              20%float 20%float 3%float 8%float 0%float 0%float)
    as (r & Hr & _ & _ & _ & _ & _ & Hh); try reflexivity.
  - split; [reflexivity|]. repeat constructor.
  - discriminate.
  - exists r. split; assumption.
Defined.

(** X21.  Over the reals, the correlation of temperature and humidity
    that the key insights compute from the two arrays alone is the entry
    [[0, 1]] of the five-by-five matrix of [correlation_analysis]. *)
Theorem insight_correlation_is_matrix_entry
  (np_median : list R -> R) (np_percentile : list R -> Z -> result R)
  (np_polyfit : list R -> list R -> result (R * R))
  (days : Z) (s : WeatherSeries R) (hot cold rain wind sl ic : R) :
  same_lengths s -> temperature s <> [] ->
  np_percentile (temperature s) 95 = Ok hot ->
  np_percentile (temperature s) 5 = Ok cold ->
  np_percentile (rainy s) 90 = Ok rain ->
  np_percentile (wind_speed s) 95 = Ok wind ->
  np_polyfit (map of_int (range 0 (Z.of_nat (length (temperature s)))))
             (temperature s) = Ok (sl, ic) ->
  exists r,
    generate_report np_median np_percentile np_polyfit days s = Ok r
    /\ correlation_analysis s = Ok (correlations r)
    /\ temp_humid_corr (insights r) = entry (correlations r) 0 1.
Proof.
  intros Hs Hne Hhot Hcold Hrain Hwind Hfit.
  destruct (generate_report_value np_median np_percentile np_polyfit
              days s hot cold rain wind sl ic
              Hs Hne Hhot Hcold Hrain Hwind Hfit)
    as (st & se & ex & tr & r0 & lo & hi & _ & _ & _ & _ & _ & _
        & _ & _ & _ & _ & _ & Hr).
  eexists. split; [exact Hr|]. cbn [correlations insights temp_humid_corr].
  split.
  - unfold correlation_analysis. now rewrite (column_stack_T_ok s Hs).
  - apply np_corrcoef_first_pair.
Qed.

(** X21 at a concrete series: the two changing days. *)
Lemma insight_correlation_witness :
  exists r,
    generate_report (fun _ => 0%R) (fun _ _ => Ok 0%R)
                    (fun _ _ => Ok (0%R, 0%R)) 2 changing_days_exact = Ok r
    /\ temp_humid_corr (insights r) = entry (correlations r) 0 1.
Proof.
  destruct (insight_correlation_is_matrix_entry
              (fun _ => 0%R) (fun _ _ => Ok 0%R) (fun _ _ => Ok (0%R, 0%R))
              2 changing_days_exact 0%R 0%R 0%R 0%R 0%R 0%R)
    as (r & Hr & _ & Hc); try reflexivity.
  - split; [reflexivity|]. repeat constructor.
  - discriminate.
  - exists r. split; assumption.
Defined.

Section Analyzer.

Context {F : Type} `{Scalar F} `{Trig F}.
Variable np_median : list F -> F.
Variable np_percentile : list F -> Z -> result F.
Variable np_polyfit : list F -> list F -> result (F * F).


(** X22.  The analyzer on the edge of its day count: with no day, or with
    a negative count, the run ends in [ValueError] (with no day the data
    are generated and the report fails at the first [np.min]); a count
    above 2914269 ends in [OverflowError]; and the report of any series
    with an empty temperature array raises [ValueError], whatever the
    other arrays hold. *)
Theorem run_analyzer_edge_cases (rng : Draws F) :
  (forall days, days <= 0 ->
     run_analyzer np_median np_percentile np_polyfit days rng
     = Raise ValueError)
  /\ (forall days, 2914269 < days ->
        run_analyzer np_median np_percentile np_polyfit days rng
        = Raise OverflowError)
  /\ (forall days s, temperature s = [] ->
        generate_report np_median np_percentile np_polyfit days s
        = Raise ValueError).
Proof.
  split; [|split].
  - intros days Hd. unfold run_analyzer.
    destruct (Z.eq_dec days 0) as [-> | Hn].
    + rewrite generate_weather_data_generated by lia. reflexivity.
    + unfold generate_weather_data.
      rewrite make_dates_ok by lia. cbn [bind]. unfold np_random.
      now replace (days <? 0) with true by (symmetry; apply Z.ltb_lt; lia).
  - intros days Hd. unfold run_analyzer, generate_weather_data.
    now rewrite make_dates_overflow by lia.
  - intros days s E. unfold generate_report, basic_statistics,
      labelled_variables. cbn [mapM fst snd]. rewrite E. reflexivity.
Qed.


End Analyzer.


(** ** [correlation_analysis]: the strong correlations *)

Section StrongCorrelations.

Context {F : Type} `{Scalar F}.

Lemma In_if_singleton {A : Type} (t : bool) (x y : A) :
  In x (if t then [y] else []) <-> t = true /\ x = y.
Proof.
  destruct t; simpl; split; try tauto.
  - intros [E | []]. now split.
  - intros [_ E]. now left.
  - intros [E _]. discriminate.
Qed.

Lemma if_Ok {A : Type} (t : bool) (x y : A) :
  (if t then Ok x else Ok y) = Ok (if t then x else y).
Proof. now destruct t. Qed.

Lemma strong_correlations_explicit
  (a00 a01 a02 a03 a04 a10 a11 a12 a13 a14 a20 a21 a22 a23 a24
   a30 a31 a32 a33 a34 a40 a41 a42 a43 a44 : F) :
  strong_correlations
    [[a00; a01; a02; a03; a04]; [a10; a11; a12; a13; a14];
     [a20; a21; a22; a23; a24]; [a30; a31; a32; a33; a34];
     [a40; a41; a42; a43; a44]]
  = Ok (concat
     [concat [if strong a01 then [("Temperature", "Humidity", a01)] else [];
              if strong a02 then [("Temperature", "Precipitation", a02)] else [];
              if strong a03 then [("Temperature", "Wind Speed", a03)] else [];
              if strong a04 then [("Temperature", "Pressure", a04)] else []];
      concat [if strong a12 then [("Humidity", "Precipitation", a12)] else [];
              if strong a13 then [("Humidity", "Wind Speed", a13)] else [];
              if strong a14 then [("Humidity", "Pressure", a14)] else []];
      concat [if strong a23 then [("Precipitation", "Wind Speed", a23)] else [];
              if strong a24 then [("Precipitation", "Pressure", a24)] else []];
      concat [if strong a34 then [("Wind Speed", "Pressure", a34)] else []];
      concat []])%string.
Proof.
  unfold strong_correlations, strong.
  change (range 0 (Z.of_nat (length variable_names))) with [0; 1; 2; 3; 4].
  cbn [mapM].
  change (range (0 + 1) (Z.of_nat (length variable_names))) with [1; 2; 3; 4].
  change (range (1 + 1) (Z.of_nat (length variable_names))) with [2; 3; 4].
  change (range (2 + 1) (Z.of_nat (length variable_names))) with [3; 4].
  change (range (3 + 1) (Z.of_nat (length variable_names))) with [4].
  change (range (4 + 1) (Z.of_nat (length variable_names))) with (@nil Z).
  cbn [mapM].
  repeat (cbn [bind];
          match goal with
          | |- context [getitem ?l ?i] =>
              let v := eval cbv in (getitem l i) in
              change (getitem l i) with v
          end).
  cbn [bind]. rewrite !if_Ok. cbn [bind]. reflexivity.
Qed.

Lemma app_if_singleton {A : Type} (t : bool) (x : A) (l : list A) :
  (if t then [x] else []) ++ l = if t then x :: l else l.
Proof. now destruct t. Qed.

Lemma five_entries {A : Type} (l : list A) :
  length l = 5%nat -> exists a b c d e, l = [a; b; c; d; e].
Proof.
  destruct l as [|a [|b [|c [|d [|e [|]]]]]]; try discriminate.
  intros _. now exists a, b, c, d, e.
Qed.

(** The nested loop is a filter over the pairs above the diagonal, row
    by row. *)
Lemma strong_correlations_filter (c : list (list F)) :
  length c = 5%nat -> Forall (fun row => length row = 5%nat) c ->
  strong_correlations c
  = Ok (filter (fun x => strong (snd x)) (map (listed c) upper_pairs)).
Proof.
  intros Hc Hrows.
  destruct (five_entries c Hc) as (r0 & r1 & r2 & r3 & r4 & ->).
  repeat match goal with
         | Hf : Forall _ (_ :: _) |- _ =>
             let Hx := fresh "Hx" in
             apply Forall_cons_iff in Hf; destruct Hf as [Hx Hf]
         end.
  destruct (five_entries r0 Hx) as (a00 & a01 & a02 & a03 & a04 & ->).
  destruct (five_entries r1 Hx0) as (a10 & a11 & a12 & a13 & a14 & ->).
  destruct (five_entries r2 Hx1) as (a20 & a21 & a22 & a23 & a24 & ->).
  destruct (five_entries r3 Hx2) as (a30 & a31 & a32 & a33 & a34 & ->).
  destruct (five_entries r4 Hx3) as (a40 & a41 & a42 & a43 & a44 & ->).
  rewrite strong_correlations_explicit. f_equal.
  cbn [concat]. rewrite ?app_nil_r, <- ?app_assoc, ?app_if_singleton.
  reflexivity.
Qed.

Lemma upper_pairs_In (i j : nat) :
  In (i, j) upper_pairs <-> (i < j < 5)%nat.
Proof.
  unfold upper_pairs. cbn [In]. split.
  - intros Hin.
    repeat destruct Hin as [Hin | Hin]; try (injection Hin as <- <-; lia).
    destruct Hin.
  - intros Hij.
    destruct i as [|[|[|[|i]]]]; destruct j as [|[|[|[|[|j]]]]]; try lia;
      tauto.
Qed.

(** X24.  On a five-by-five matrix the "strong correlations" are listed
    without an error: a line is printed exactly for the pairs [i < j] of
    variables whose entry [[i, j]] has an absolute value above [0.3], with
    the names of the two variables and that entry, so no variable is
    paired with itself, no pair is listed in both orders, and there are
    at most ten lines. *)
Theorem strong_correlations_listing (c : list (list F)) :
  length c = 5%nat -> Forall (fun row => length row = 5%nat) c ->
  exists l,
    strong_correlations c = Ok l
    /\ (forall a b r,
          In (a, b, r) l <->
          exists i j,
            (i < j < 5)%nat
            /\ nth_error variable_names i = Some a
            /\ nth_error variable_names j = Some b
            /\ r = entry c i j
            /\ (fabs r >? lit 3 10)%np = true)
    /\ (length l <= 10)%nat.
Proof.
  intros Hc Hrows. rewrite (strong_correlations_filter c Hc Hrows).
  eexists. split; [reflexivity|]. split.
  - intros a b r. rewrite filter_In, in_map_iff. cbn [snd]. split.
    + intros [((i & j) & E & Hin) Ht]. apply upper_pairs_In in Hin.
      assert (Ha : nth_error variable_names i
                   = Some (nth i variable_names ""%string))
        by (apply nth_error_nth'; simpl; lia).
      assert (Hb : nth_error variable_names j
                   = Some (nth j variable_names ""%string))
        by (apply nth_error_nth'; simpl; lia).
      unfold listed in E. cbn [fst snd] in E. injection E as Ea Eb Er.
      exists i, j. split; [exact Hin|].
      split; [rewrite <- Ea; exact Ha|].
      split; [rewrite <- Eb; exact Hb|].
      split; [symmetry; exact Er | exact Ht].
    + intros (i & j & Hij & Ha & Hb & -> & Ht). split; [|exact Ht].
      exists (i, j). split; [|now apply upper_pairs_In].
      unfold listed. cbn [fst snd].
      now rewrite (nth_error_nth _ _ _ Ha), (nth_error_nth _ _ _ Hb).
  - etransitivity; [apply filter_length_le|]. now rewrite length_map.
Qed.

End StrongCorrelations.

Lemma corr_shape {F : Type} `{Scalar F} (s : WeatherSeries F) :
  length (np_corrcoef (variables s)) = 5%nat
  /\ Forall (fun row => length row = 5%nat) (np_corrcoef (variables s)).
Proof.
  unfold np_corrcoef, np_cov, diag, variables.
  cbn [map zip_with seq nth length hd].
  split; [reflexivity|].
  repeat (apply Forall_cons; [reflexivity|]). apply Forall_nil.
Qed.

(** X24 at a concrete matrix in binary64: every entry is 1. *)
Lemma strong_correlations_witness :
  exists l,
    strong_correlations (repeat (repeat 1%float 5) 5) = Ok l
    /\ (length l <= 10)%nat.
Proof.
  destruct (strong_correlations_listing (repeat (repeat 1%float 5) 5))
    as (l & Hl & _ & Hlen).
  - reflexivity.
  - repeat constructor.
  - exists l. split; assumption.
Defined.

(** ** Degenerate input in binary64: a variable without variance *)

(** *** Zeros and NaN in binary64 *)

Lemma Prim2SF_nan : Prim2SF nan = S754_nan.
Proof. reflexivity. Qed.

Lemma zn64_mul_l (a b : float) : zero_or_nan64 a -> zero_or_nan64 (a * b)%float.
Proof.
  unfold zero_or_nan64. rewrite mul_spec.
  destruct (Prim2SF a), (Prim2SF b); simpl; tauto.
Qed.

Lemma zn64_mul_r (a b : float) : zero_or_nan64 b -> zero_or_nan64 (a * b)%float.
Proof.
  unfold zero_or_nan64. rewrite mul_spec.
  destruct (Prim2SF a), (Prim2SF b); simpl; tauto.
Qed.

Lemma zn64_add (a b : float) :
  zero_or_nan64 a -> zero_or_nan64 b -> zero_or_nan64 (a + b)%float.
Proof.
  unfold zero_or_nan64. rewrite add_spec.
  destruct (Prim2SF a) as [[]|[]| |], (Prim2SF b) as [[]|[]| |]; simpl; tauto.
Qed.

Lemma zn64_sub (a b : float) :
  zero_or_nan64 a -> zero_or_nan64 b -> zero_or_nan64 (a - b)%float.
Proof.
  unfold zero_or_nan64. rewrite sub_spec.
  destruct (Prim2SF a) as [[]|[]| |], (Prim2SF b) as [[]|[]| |]; simpl; tauto.
Qed.

Lemma zn64_sqrt (a : float) : zero_or_nan64 a -> zero_or_nan64 (PrimFloat.sqrt a).
Proof.
  unfold zero_or_nan64. rewrite sqrt_spec.
  destruct (Prim2SF a) as [[]|[]| |]; simpl; tauto.
Qed.

Lemma zn64_div_l (a b : float) : zero_or_nan64 a -> zero_or_nan64 (a / b)%float.
Proof.
  unfold zero_or_nan64. rewrite div_spec.
  destruct (Prim2SF a), (Prim2SF b); simpl; tauto.
Qed.

Lemma div_zn64 (a b : float) :
  zero_or_nan64 a -> zero_or_nan64 b -> (a / b)%float = nan.
Proof.
  unfold zero_or_nan64. intros Ha Hb. apply Prim2SF_inj.
  rewrite div_spec, Prim2SF_nan.
  destruct (Prim2SF a), (Prim2SF b); simpl in *; tauto.
Qed.

Lemma nan_div64 (b : float) : (nan / b)%float = nan.
Proof. apply Prim2SF_inj. now rewrite div_spec, Prim2SF_nan. Qed.



Lemma np_isnan_nan64 : np_isnan nan = true.
Proof. reflexivity. Qed.

Lemma np_clip_nan64 (lo hi : float) : np_clip nan lo hi = nan.
Proof.
  unfold np_clip, np_maximum, np_minimum. rewrite np_isnan_nan64.
  rewrite orb_true_r. rewrite np_isnan_nan64. now rewrite orb_true_r.
Qed.

Lemma fold_add_zn64 (l : list float) : forall acc,
  zero_or_nan64 acc -> Forall zero_or_nan64 l ->
  zero_or_nan64 (fold_left PrimFloat.add l acc).
Proof.
  induction l as [|x l IH]; intros acc Hacc Hl; cbn [fold_left].
  - exact Hacc.
  - inversion Hl; subst. apply IH; [now apply zn64_add | assumption].
Qed.

Lemma np_sum_zn64 (l : list float) :
  Forall zero_or_nan64 l -> zero_or_nan64 (np_sum l).
Proof. intros Hl. apply fold_add_zn64; [exact I | exact Hl]. Qed.

Lemma np_mean_zn64 (l : list float) :
  Forall zero_or_nan64 l -> zero_or_nan64 (np_mean l).
Proof. intros Hl. apply zn64_div_l, np_sum_zn64, Hl. Qed.

Lemma np_dot_zn64_l (a b : list float) :
  Forall zero_or_nan64 a -> zero_or_nan64 (np_dot a b).
Proof.
  intros Ha. apply np_sum_zn64. revert b.
  induction Ha as [|x a Hx Ha IH]; intros [|y b]; cbn [zip_with];
    constructor; [now apply zn64_mul_l | apply IH].
Qed.

Lemma np_dot_zn64_r (a b : list float) :
  Forall zero_or_nan64 b -> zero_or_nan64 (np_dot a b).
Proof.
  intros Hb. apply np_sum_zn64. revert a.
  induction Hb as [|y b Hy Hb IH]; intros [|x a]; cbn [zip_with];
    constructor; [now apply zn64_mul_r | apply IH].
Qed.

(** The deviations of a degenerate variable from its mean are zeros (or
    NaN), and so is its standard deviation. *)
Lemma degenerate_centred (a : list float) :
  degenerate a ->
  Forall zero_or_nan64 (map (fun v => (v - np_mean a)%np) a).
Proof.
  intros [_ [Hz | [_ Hd]]]; apply Forall_map.
  - assert (Hm : zero_or_nan64 (np_mean a)).
    { apply np_mean_zn64. eapply Forall_impl; [|exact Hz].
      intros v ->. exact I. }
    eapply Forall_impl; [|exact Hz]. intros v ->.
    apply zn64_sub; [exact I | exact Hm].
  - eapply Forall_impl; [|exact Hd]. intros v Hv.
    cbn [fsub binary64] in Hv. cbn [fsub binary64]. rewrite Hv. exact I.
Qed.







Lemma corr_entry_nan64_l (z b : list float) (k sd lo hi : float) :
  Forall zero_or_nan64 z ->
  np_clip (PrimFloat.div
             (PrimFloat.div (PrimFloat.mul (np_dot z b) k)
                            (PrimFloat.sqrt (PrimFloat.mul (np_dot z z) k)))
             sd) lo hi = nan.
Proof.
  intros Hz. rewrite (div_zn64 (PrimFloat.mul (np_dot z b) k)).
  - rewrite nan_div64. apply np_clip_nan64.
  - now apply zn64_mul_l, np_dot_zn64_l.
  - now apply zn64_sqrt, zn64_mul_l, np_dot_zn64_l.
Qed.

Lemma corr_entry_nan64_r (z a : list float) (k sd lo hi : float) :
  Forall zero_or_nan64 z ->
  np_clip (PrimFloat.div
             (PrimFloat.div (PrimFloat.mul (np_dot a z) k) sd)
             (PrimFloat.sqrt (PrimFloat.mul (np_dot z z) k)))
          lo hi = nan.
Proof.
  intros Hz. rewrite div_zn64.
  - apply np_clip_nan64.
  - now apply zn64_div_l, zn64_mul_l, np_dot_zn64_r.
  - now apply zn64_sqrt, zn64_mul_l, np_dot_zn64_l.
Qed.

(** The row and the column of a degenerate variable in the correlation
    matrix are NaN. *)
Lemma corr_degenerate_entries (s : WeatherSeries float) (k : nat)
  (v : list float) :
  nth_error (variables s) k = Some v -> degenerate v ->
  forall i, (i < 5)%nat ->
    entry (np_corrcoef (variables s)) k i = nan
    /\ entry (np_corrcoef (variables s)) i k = nan.
Proof.
  intros Hv Hd. pose proof (degenerate_centred v Hd) as Hz.
  unfold variables in Hv.
  do 5 (destruct k as [|k];
        [cbn [nth_error] in Hv; injection Hv as Hv; rewrite <- Hv in Hz;
         unfold np_corrcoef, np_cov, diag, variables;
         cbn [map zip_with seq nth length hd];
         cbn [fmul fdiv fsqrt binary64];
         intros i Hi; unfold entry;
         do 5 (destruct i as [|i];
               [cbn [nth]; split;
                [apply corr_entry_nan64_l | apply corr_entry_nan64_r];
                exact Hz|]);
         lia|]).
  destruct k; discriminate.
Qed.




(** A constant whose mean is not computed exactly is not degenerate, and
    is not detected either: with a temperature of 0.1 on three days the
    mean is 0.10000000000000002, the standard deviation is [2^-56], every
    normalised temperature is 1, day 2 is reported and the temperature
    row of the correlation matrix is 1, 0, 0, 0, 0. *)
Lemma rounded_mean_is_not_detected :
  np_mean (temperature tenths) = 0x1.999999999999bp-4%float
  /\ np_std (temperature tenths) = 0x1p-56%float
  /\ temp_normalized tenths = [1; 1; 1]%float
  /\ most_extreme_day tenths = Ok 2
  /\ match correlation_analysis tenths with
     | Ok m => hd [] m
     | Raise _ => []
     end = [1; 0; 0; 0; 0]%float.
Proof. repeat split; vm_compute; reflexivity. Qed.

(** X25.  In binary64, when one of the five variables is degenerate, its
    row and its column of the correlation matrix are NaN, no comparison
    with a NaN holds, and the variable is in none of the "strong
    correlations" that are listed; nothing is raised. *)
Theorem constant_variable_is_not_listed (s : WeatherSeries float) (k : nat)
  (v : list float) (name : string) :
  same_lengths s ->
  nth_error (variables s) k = Some v -> degenerate v ->
  nth_error variable_names k = Some name ->
  exists m l,
    correlation_analysis s = Ok m
    /\ (forall i, (i < 5)%nat -> entry m k i = nan /\ entry m i k = nan)
    /\ strong_correlations m = Ok l
    /\ forall a b r, In (a, b, r) l -> a <> name /\ b <> name.
Proof.
  intros Hs Hv Hc Hname. unfold correlation_analysis.
  rewrite column_stack_T_ok by assumption. cbn [bind].
  destruct (corr_shape s) as (Hl & Hrows).
  do 2 eexists. split; [reflexivity|].
  split; [exact (corr_degenerate_entries s k v Hv Hc)|].
  split; [apply (strong_correlations_filter _ Hl Hrows)|].
  intros a b r Hin. apply filter_In in Hin. destruct Hin as [Hin Ht].
  apply in_map_iff in Hin. destruct Hin as ((i & j) & E & Hij).
  apply upper_pairs_In in Hij. cbn [snd] in Ht.
  assert (Ha : nth_error variable_names i
               = Some (nth i variable_names ""%string))
    by (apply nth_error_nth'; simpl; lia).
  assert (Hb : nth_error variable_names j
               = Some (nth j variable_names ""%string))
    by (apply nth_error_nth'; simpl; lia).
  unfold listed in E. cbn [fst snd] in E. injection E as Ea Eb Er.
  assert (Hk : (k < 5)%nat).
  { assert (Hn : nth_error variable_names k <> None) by congruence.
    apply nth_error_Some in Hn. exact Hn. }
  assert (Hnan : forall r', r' = nan -> strong r' = false)
    by (intros r' ->; reflexivity).
  assert (Hik : i <> k).
  { intros ->. destruct (corr_degenerate_entries s k v Hv Hc j) as [E _];
      [lia|]. rewrite <- Er, (Hnan _ E) in Ht. discriminate. }
  assert (Hjk : j <> k).
  { intros ->. destruct (corr_degenerate_entries s k v Hv Hc i) as [_ E];
      [lia|]. rewrite <- Er, (Hnan _ E) in Ht. discriminate. }
  assert (Ha' : nth_error variable_names i = Some a)
    by (rewrite <- Ea; exact Ha).
  assert (Hb' : nth_error variable_names j = Some b)
    by (rewrite <- Eb; exact Hb).
  assert (Hinj : forall p q x,
             nth_error variable_names p = Some x ->
             nth_error variable_names q = Some x -> p = q).
  { intros p q x Hp Hq.
    do 5 (destruct p as [|p];
          [do 5 (destruct q as [|q];
                 [cbn in Hp, Hq; congruence|]);
           destruct q; discriminate|]).
    destruct p; discriminate. }
  split; intros ->; [apply Hik | apply Hjk]; eauto.
Qed.

(** X25 at a concrete series: two days of 20 degrees. *)
Lemma constant_variable_listing_witness :
  exists m l,
    correlation_analysis flat_temperature = Ok m
    /\ strong_correlations m = Ok l
    /\ forall a b r,
         In (a, b, r) l ->
         a <> "Temperature"%string /\ b <> "Temperature"%string.
Proof.
  destruct (constant_variable_is_not_listed flat_temperature 0
              [20; 20]%float "Temperature"%string)
    as (m & l & Hm & _ & Hl & Hn).
  - split; [reflexivity|]. repeat constructor.
  - reflexivity.
  - split; [discriminate|]. right. split; [simpl; lia|].
    apply Forall_cons; [reflexivity|]. apply Forall_cons; [reflexivity|].
    apply Forall_nil.
  - reflexivity.
  - exists m, l. auto.
Defined.
